(** * HAProxy data-plane core: buffers, buffer pool, stream connectors

    A shallow embedding of
      - include/common/buffer.h    (wrapping buffers and the pooled allocator),
      - include/haproxy/stconn.h   (stream endpoint flags, shutdown helpers),
      - src/conn_stream.c          (attach / detach of a conn_stream),
      - include/haproxy/mux_quic-t.h (per-stream QUIC flow-control record),
    followed by the properties established about them.

    Conventions.  A pointer into a buffer's storage area is kept as its
    offset from [b->data]; the storage itself is the memory found at
    [b->data + k], a function of [k].  The integer fields of the C structures
    are kept in [Z]; the statements about buffers assume the structural
    invariant [wf], under which no C expression of the modelled functions
    leaves the range of its type.  Where C compares or combines unsigned
    32-bit quantities outside such an invariant the reduction modulo 2^32 is
    written out ([uint]). *)

From Stdlib Require Import ZArith List Bool Lia.
From Stdlib Require Import Strings.Byte.
Import ListNotations.

Local Open Scope Z_scope.

(* ================================================================== *)
(** * Part I.  The programs                                            *)
(* ================================================================== *)

(* ------------------------------------------------------------------ *)
(** ** include/common/buffer.h : wrapping buffers                      *)
(* ------------------------------------------------------------------ *)

Module Buffer.

(** [struct buffer].  [p] is [b->p - b->data]; [data k] is the byte stored at
    [b->data + k]. *)
Record buffer : Type := mkbuf {
  p    : Z;
  size : Z;
  i    : Z;
  o    : Z;
  data : Z -> byte
}.

Definition set_p (b : buffer) (v : Z) : buffer :=
  mkbuf v (size b) (i b) (o b) (data b).
Definition set_i (b : buffer) (v : Z) : buffer :=
  mkbuf (p b) (size b) v (o b) (data b).
Definition set_o (b : buffer) (v : Z) : buffer :=
  mkbuf (p b) (size b) (i b) v (data b).
Definition set_data (b : buffer) (m : Z -> byte) : buffer :=
  mkbuf (p b) (size b) (i b) (o b) m.

(** [struct ist]: a pointer and a length; here the bytes themselves. *)
Definition ist : Type := list byte.

Definition len (s : list byte) : Z := Z.of_nat (length s).

(** [*ptr = c] *)
Definition store (m : Z -> byte) (ptr : Z) (c : byte) : Z -> byte :=
  fun a => if a =? ptr then c else m a.

(** [memcpy(dst, src, n)]: the [n] first bytes of [src] land at
    [dst .. dst+n-1]. *)
Definition memcpy (m : Z -> byte) (dst : Z) (src : list byte) (n : Z)
  : Z -> byte :=
  fun a => if (dst <=? a) && (a <? dst + n)
           then nth (Z.to_nat (a - dst)) src x00
           else m a.

(** The [b_ptr(b, ofs)] macro, [ofs] signed. *)
Definition b_ptr (b : buffer) (ofs : Z) : Z :=
  let ret := p b + ofs in
  if (0 <? ofs) && (size b <=? ret) then ret - size b
  else if (ofs <? 0) && (ret <? 0) then ret + size b
  else ret.

Definition b_end (b : buffer) : Z := size b.

Definition b_to_end (b : buffer) : Z := size b - p b.

Definition buffer_len (b : buffer) : Z := i b + o b.

Definition buffer_not_empty (b : buffer) : Z := Z.lor (i b) (o b).

Definition buffer_empty (b : buffer) : bool := buffer_not_empty b =? 0.

Definition buffer_wrap_sub (b : buffer) (ptr : Z) : Z :=
  if ptr <? 0 then ptr + size b else ptr.

Definition buffer_wrap_add (b : buffer) (ptr : Z) : Z :=
  if 0 <=? ptr - size b then ptr - size b else ptr.

Definition buffer_total_space (b : buffer) : Z := size b - buffer_len b.

Definition buffer_pending (b : buffer) : Z := i b.

Definition bi_fast_delete (b : buffer) (n : Z) : buffer :=
  let b := set_i b (i b - n) in
  set_p b (p b + n).

Definition buffer_flush (b : buffer) : buffer :=
  let b := set_p b (buffer_wrap_add b (p b + i b)) in
  let b := set_o b (o b + i b) in
  set_i b 0.

(** *** Helpers of common/buf.h used by buffer.h *)

(** Modelled from the spec: common/buf.h is not part of the sources at hand.
    The head of the buffer is the oldest byte still scheduled for output,
    [o] bytes before [p], wrapping. *)
Definition b_head (b : buffer) : Z := b_ptr b (- o b).

(** Modelled from the spec: [b_tail] of common/buf.h, the position that
    follows the last pending input byte, where the next input byte goes. *)
Definition b_tail (b : buffer) : Z := b_ptr b (i b).

(** Modelled from the spec: [b_contig_space] of common/buf.h, "the largest
    span writable without wrapping, accounting for both the physical end of
    the region and the position of unconsumed output bytes".  The span starts
    at the tail; it stops at the head when the stored data wrap, at the end of
    the region otherwise. *)
Definition b_contig_space (b : buffer) : Z :=
  let right := b_head b in
  let left := right + (i b + o b) in
  if size b <=? left then right - (left - size b) else size b - left.

(** Modelled from the spec: [b_del] of common/buf.h as [bi_eat] uses it,
    the removal of [del] bytes from the front of the logical input stream. *)
Definition b_del (b : buffer) (del : Z) : buffer :=
  let b' := set_p b (b_ptr b del) in
  set_i b' (i b - del).

(** Modelled from the spec: [b_reset] of common/buf.h; a buffer that was just
    obtained holds no data and its pointer is at the start of the region. *)
Definition b_reset (b : buffer) : buffer :=
  mkbuf 0 (size b) 0 0 (data b).

(** *** Block and character insertion *)

Definition bo_putchr (b : buffer) (c : byte) : buffer :=
  if buffer_len b =? size b then b
  else
    let b := set_data b (store (data b) (p b) c) in
    let b := set_p b (b_ptr b 1) in
    set_o b (o b + 1).

Definition bo_putblk (b : buffer) (blk : list byte) (len : Z) : buffer * Z :=
  let cur_len := buffer_len b in
  let len := if len >? size b - cur_len then size b - cur_len else len in
  if len =? 0 then (b, 0)
  else
    let half := b_contig_space b in
    let half := if half >? len then len else half in
    let b := set_data b (memcpy (data b) (p b) blk half) in
    let b := set_p b (b_ptr b half) in
    let b :=
      if len >? half then
        let b := set_data b (memcpy (data b) (p b)
                               (skipn (Z.to_nat half) blk) (len - half)) in
        set_p b (b_ptr b half)
      else b in
    let b := set_o b (o b + len) in
    (b, len).

Definition bi_putchr (b : buffer) (c : byte) : buffer :=
  if buffer_len b =? size b then b
  else
    let b := set_data b (store (data b) (b_tail b) c) in
    set_i b (i b + 1).

Definition bi_putblk (b : buffer) (blk : list byte) (len : Z) : buffer * Z :=
  let cur_len := buffer_len b in
  let len := if len >? size b - cur_len then size b - cur_len else len in
  if len =? 0 then (b, 0)
  else
    let half := b_contig_space b in
    let half := if half >? len then len else half in
    let b := set_data b (memcpy (data b) (b_tail b) blk half) in
    let b :=
      if len >? half then
        set_data b (memcpy (data b) (b_ptr b (i b + half))
                      (skipn (Z.to_nat half) blk) (len - half))
      else b in
    let b := set_i b (i b + len) in
    (b, len).

(** *** Strings against wrapping buffers *)

(** The [while (r.len--)] loop of [b_isteq]: [pos] is the read pointer,
    [r] what is left of the needle.  [false] is the [return -1] exit. *)
Fixpoint isteq_loop (b : buffer) (pos : Z) (r : list byte) : bool :=
  match r with
  | [] => true
  | c :: r' =>
      if Byte.eqb (data b pos) c then
        let pos := pos + 1 in
        let pos := if pos =? b_end b then 0 else pos in
        isteq_loop b pos r'
      else false
  end.

Definition b_isteq (b : buffer) (ofs : Z) (n : Z) (s : ist) : Z :=
  if n <? len s then 0
  else if isteq_loop b (b_ptr b ofs) s then len s else -1.

Definition bi_eat (b : buffer) (s : ist) : buffer * Z :=
  let ret := b_isteq b 0 (i b) s in
  if ret >? 0 then (b_del b ret, ret) else (b, ret).

(** The copy loop shared by [bi_istput] and [bo_istput]. *)
Fixpoint istput_loop (endp : Z) (m : Z -> byte) (pos : Z) (r : list byte)
  : Z -> byte :=
  match r with
  | [] => m
  | c :: r' =>
      let m := store m pos c in
      let pos := pos + 1 in
      let pos := if pos =? endp then 0 else pos in
      istput_loop endp m pos r'
  end.

Definition bi_istput (b : buffer) (s : ist) : buffer * Z :=
  if len s >? size b - i b - o b then
    (b, if len s <? size b then 0 else -1)
  else
    let pos := b_ptr b (i b) in
    let b := set_i b (i b + len s) in
    let b := set_data b (istput_loop (b_end b) (data b) pos s) in
    (b, len s).

Definition bo_istput (b : buffer) (s : ist) : buffer * Z :=
  if len s >? size b - o b then
    (b, if len s <? size b then 0 else -1)
  else
    let pos := p b in
    let b := set_o b (o b + len s) in
    let b := set_p b (b_ptr b (len s)) in
    let b := set_data b (istput_loop (b_end b) (data b) pos s) in
    (b, len s).

(** *** Reading a buffer back *)

(** The byte found [ofs] bytes after [p] (before it when [ofs] is negative),
    as consumers address the contents through [b_ptr]. *)
Definition b_peek (b : buffer) (ofs : Z) : byte := data b (b_ptr b ofs).

(** The pending input, oldest byte first. *)
Definition input_bytes (b : buffer) : list byte :=
  map (fun k => b_peek b (Z.of_nat k)) (seq 0 (Z.to_nat (i b))).

(** The pending output, oldest byte first. *)
Definition output_bytes (b : buffer) : list byte :=
  map (fun k => b_peek b (Z.of_nat k - o b)) (seq 0 (Z.to_nat (o b))).

(** The structural invariant of a buffer: the stored data fit, and [p] lies
    inside the region (at its start for the zero-sized sentinels). *)
Definition wf (b : buffer) : Prop :=
  0 <= i b /\ 0 <= o b /\ i b + o b <= size b /\
  0 <= p b /\ (p b < size b \/ (size b = 0 /\ p b = 0)).

(** The free room of a buffer. *)
Definition room (b : buffer) : Z := size b - i b - o b.

(** The position [x] taken back into a region of [sz] bytes when it is at
    most one region too far. *)
Definition wrap (sz x : Z) : Z := if x <? sz then x else x - sz.

(** Where the bytes of a block land: the memory once [r] bytes of [blk]
    were written from position [t] of a region of [sz] bytes, going on at the
    start of the region when its end is reached. *)
Definition put_at (m : Z -> byte) (sz t : Z) (blk : list byte) (r : Z)
  : Z -> byte :=
  fun a =>
    if (t <=? a) && (a <? t + r) && (a <? sz)
    then nth (Z.to_nat (a - t)) blk x00
    else if (0 <=? a) && (a <? t + r - sz)
         then nth (Z.to_nat (a - t + sz)) blk x00
         else m a.

(** An operation on the input side of a buffer: a block is put, or bytes
    are consumed from the front. *)
Inductive bi_op : Type :=
| BiPut (blk : list byte)
| BiDel (n : Z).

Definition bi_apply (b : buffer) (op : bi_op) : buffer :=
  match op with
  | BiPut blk => fst (bi_putblk b blk (len blk))
  | BiDel n => b_del b n
  end.

(** The same operation on the byte sequence it is meant to act on. *)
Definition seq_apply (q : list byte) (op : bi_op) : list byte :=
  match op with
  | BiPut blk => q ++ blk
  | BiDel n => skipn (Z.to_nat n) q
  end.

(** The operations [ops], started with [q] pending in a region that has
    [cap] bytes for the input, never hold more than [cap] bytes nor consume
    more than is pending. *)
Fixpoint fits (cap : Z) (q : list byte) (ops : list bi_op) : Prop :=
  match ops with
  | [] => True
  | op :: ops' =>
      match op with
      | BiPut blk => len q + len blk <= cap
      | BiDel n => 0 <= n <= len q
      end /\ fits cap (seq_apply q op) ops'
  end.

(** *** Buffers to run the functions on *)

(** An empty buffer of 8 bytes whose pointer is 2 bytes before the end of
    the region. *)
Definition buf_6_of_8 : buffer := mkbuf 6 8 0 0 (fun _ => x00).

(** The block "ABCDE". *)
Definition blk_ABCDE : list byte := [x41; x42; x43; x44; x45].

(** An 8-byte buffer holding 2 bytes of input and 1 byte of output. *)
Definition buf_busy : buffer := mkbuf 6 8 2 1 (fun _ => x2e).

(** "ABCDE" pending as input across the end of an 8-byte region. *)
Definition buf_wrapped : buffer := fst (bi_istput buf_6_of_8 blk_ABCDE).

(** An 8-byte buffer without input whose 5 bytes of output wrap: the 3 free
    bytes are at offsets 3 to 5. *)
Definition buf_out5 : buffer := mkbuf 3 8 0 5 (fun _ => x2e).

(** *** More of buffer.h: sizes and pointers *)

Definition bi_space_for_replace (b : buffer) : Z :=
  (* If the input side data overflows, we cannot insert data contiguously. *)
  if size b <=? p b + i b then 0
  else
    (* the last byte used: a byte of the output side if the buffer wraps,
       or the end of the buffer *)
    let endp := buffer_wrap_sub b (p b - o b) in
    let endp := if endp <=? p b then size b else endp in
    endp - (p b + i b).

Definition buffer_pointer (b : buffer) (ptr : Z) : Z :=
  if ptr <? 0 then ptr + size b
  else if 0 <=? ptr - size b then ptr - size b
  else ptr.

Definition buffer_count (b : buffer) (from to : Z) : Z :=
  let count := to - from in
  count + (if count <? 0 then size b else 0).

End Buffer.

(* ------------------------------------------------------------------ *)
(** ** include/common/buffer.h : the pooled buffer allocator            *)
(* ------------------------------------------------------------------ *)

Module Pool.

(** An [unsigned int] computation, reduced modulo 2^32. *)
Definition uint (x : Z) : Z := x mod 2 ^ 32.

(** Build-time parameters that buffer.h only refers to. *)
Record config : Type := mkconfig {
  CONFIG_HAP_LOCKLESS_POOLS : bool;  (* is the macro defined *)
  sizeof_struct_buffer : Z           (* sizeof(struct buffer) *)
}.

(** Modelled from the spec: [struct pool_head] of common/memory.h, "process-wide
    state holding { allocated_count, used_count, capacity_limit, free_list }";
    [size] is the size of one pool object.  The free list holds the addresses
    of the free objects, the next one to be handed out first. *)
Record pool_head : Type := mkpool {
  free_list : list Z;
  allocated : Z;
  used      : Z;
  limit     : Z;
  size      : Z
}.

(** A [struct buffer *]: one of the two zero-sized static buffers, or a
    buffer living in a pool object. *)
Inductive buffer_ptr : Type :=
| buf_empty
| buf_wanted
| buf_at (a : Z).

(** What the allocator does to the pool, in program order. *)
Inductive event : Type :=
| EvLock                       (* HA_SPIN_LOCK(POOL_LOCK, &pool->lock) *)
| EvUnlock                     (* HA_SPIN_UNLOCK(POOL_LOCK, &pool->lock) *)
| EvMargin (passed : bool)     (* the test (allocated - used) > margin *)
| EvPop (r : option Z)         (* __pool_get_first() and its result *)
| EvRefill (r : option Z).     (* __pool_refill_alloc() and its result *)

Record state : Type := mkstate {
  pool_head_buffer : pool_head;
  heap    : list Z;               (* the areas malloc() can still provide *)
  buffers : Z -> Buffer.buffer;   (* the struct buffer at each pool object *)
  buf     : buffer_ptr;           (* the caller's handle, [*buf] *)
  trace   : list event            (* most recent event last *)
}.

(** State passing, written as in the C text. *)
Definition M (A : Type) : Type := state -> A * state.

Definition ret {A : Type} (x : A) : M A := fun s => (x, s).

Definition bind {A B : Type} (m : M A) (k : A -> M B) : M B :=
  fun s => let (x, s') := m s in k x s'.

Notation "x <- m ;; k" := (bind m (fun x => k))
  (at level 61, m at next level, right associativity).
Notation "m ;;; k" := (bind m (fun _ => k))
  (at level 61, right associativity).

Definition get_pool : M pool_head := fun s => (pool_head_buffer s, s).

Definition set_pool (ph : pool_head) : M unit :=
  fun s => (tt, mkstate ph (heap s) (buffers s) (buf s) (trace s)).

Definition emit (e : event) : M unit :=
  fun s => (tt, mkstate (pool_head_buffer s) (heap s) (buffers s) (buf s)
                  (trace s ++ [e])).

(** [*buf] *)
Definition get_buf : M buffer_ptr := fun s => (buf s, s).

(** [*buf = v] *)
Definition set_buf (v : buffer_ptr) : M unit :=
  fun s => (tt, mkstate (pool_head_buffer s) (heap s) (buffers s) v (trace s)).

(** [ptr->size]; the two static buffers have size 0. *)
Definition buf_size (ptr : buffer_ptr) : M Z :=
  fun s => (match ptr with
            | buf_empty | buf_wanted => 0
            | buf_at a => Buffer.size (buffers s a)
            end, s).

(** [b->size = pool_head_buffer->size - sizeof(struct buffer); b_reset(b);] *)
Definition buf_setup (cfg : config) (a : Z) : M unit :=
  fun s =>
    let sz := size (pool_head_buffer s) - sizeof_struct_buffer cfg in
    let b := buffers s a in
    let b := Buffer.mkbuf (Buffer.p b) sz (Buffer.i b) (Buffer.o b)
               (Buffer.data b) in
    let b := Buffer.b_reset b in
    (tt, mkstate (pool_head_buffer s) (heap s)
           (fun x => if x =? a then b else buffers s x) (buf s) (trace s)).

(** [malloc()]: the next area of the heap, NULL once it is exhausted. *)
Definition pool_alloc_area : M (option Z) :=
  fun s => match heap s with
           | [] => (None, s)
           | a :: h => (Some a, mkstate (pool_head_buffer s) h (buffers s)
                                  (buf s) (trace s))
           end.

Definition HA_SPIN_LOCK : M unit := emit EvLock.
Definition HA_SPIN_UNLOCK : M unit := emit EvUnlock.

(** Modelled from the spec: [__pool_get_first] of common/memory.h, "pull
    from the free list"; an object that leaves the free list is in use. *)
Definition __pool_get_first : M (option Z) :=
  ph <- get_pool ;;
  match free_list ph with
  | [] => emit (EvPop None) ;;; ret None
  | a :: l =>
      set_pool (mkpool l (allocated ph) (used ph + 1) (limit ph) (size ph)) ;;;
      emit (EvPop (Some a)) ;;;
      ret (Some a)
  end.

(** The growth loop of the slow path: areas are taken from the system until
    more than [stop] objects are allocated, the last one being returned and
    the others put on the free list; it gives up at the pool's limit
    ([limit = 0] meaning none) or when the system has no memory left. *)
Fixpoint refill_loop (h : list Z) (stop : Z) (ph : pool_head)
  : option Z * pool_head * list Z :=
  if negb (limit ph =? 0) && (limit ph <=? allocated ph) then (None, ph, h)
  else
    match h with
    | [] => (None, ph, h)
    | a :: h' =>
        let n := allocated ph + 1 in
        if n >? stop then
          (Some a, mkpool (free_list ph) n (used ph + 1) (limit ph) (size ph),
           h')
        else
          refill_loop h' stop
            (mkpool (a :: free_list ph) n (used ph) (limit ph) (size ph))
    end.

(** Modelled from the spec: [__pool_refill_alloc] of common/memory.c, "slow
    path: grow the pool (bounded by a global ceiling)" so that [avail]
    objects stay available besides the one returned. *)
Definition __pool_refill_alloc (avail : Z) : M (option Z) :=
  fun s =>
    let ph := pool_head_buffer s in
    let '(r, ph', h') := refill_loop (heap s) (avail + used ph) ph in
    (r, mkstate ph' h' (buffers s) (buf s) (trace s ++ [EvRefill r])).

(** Modelled from the spec: [pool_get_first] of common/memory.h, the locked
    form of [__pool_get_first]. *)
Definition pool_get_first (cfg : config) : M (option Z) :=
  (if CONFIG_HAP_LOCKLESS_POOLS cfg then ret tt else HA_SPIN_LOCK) ;;;
  r <- __pool_get_first ;;
  (if CONFIG_HAP_LOCKLESS_POOLS cfg then ret tt else HA_SPIN_UNLOCK) ;;;
  ret r.

(** Modelled from the spec: [pool_alloc_dirty] of common/memory.h, which
    takes an object from the free list and otherwise grows the pool. *)
Definition pool_alloc_dirty (cfg : config) : M (option Z) :=
  (if CONFIG_HAP_LOCKLESS_POOLS cfg then ret tt else HA_SPIN_LOCK) ;;;
  r <- __pool_get_first ;;
  r <- match r with
       | Some a => ret (Some a)
       | None => __pool_refill_alloc 0
       end ;;
  (if CONFIG_HAP_LOCKLESS_POOLS cfg then ret tt else HA_SPIN_UNLOCK) ;;;
  ret r.

Definition b_alloc (cfg : config) : M (option buffer_ptr) :=
  set_buf buf_wanted ;;;
  b <- pool_alloc_dirty cfg ;;
  match b with
  | Some a =>
      buf_setup cfg a ;;;
      set_buf (buf_at a) ;;;
      ret (Some (buf_at a))
  | None => ret None
  end.

Definition b_alloc_fast (cfg : config) : M (option buffer_ptr) :=
  set_buf buf_wanted ;;;
  b <- pool_get_first cfg ;;
  match b with
  | Some a =>
      buf_setup cfg a ;;;
      set_buf (buf_at a) ;;;
      ret (Some (buf_at a))
  | None => ret None
  end.

Definition b_alloc_margin (cfg : config) (margin : Z)
  : M (option buffer_ptr) :=
  cur <- get_buf ;;
  sz <- buf_size cur ;;
  if negb (sz =? 0) then ret (Some cur)
  else
    set_buf buf_wanted ;;;
    (if CONFIG_HAP_LOCKLESS_POOLS cfg then ret tt else HA_SPIN_LOCK) ;;;
    (* fast path *)
    ph <- get_pool ;;
    let passed := uint (allocated ph - used ph) >? uint margin in
    emit (EvMargin passed) ;;;
    b <- (if passed then __pool_get_first else ret None) ;;
    match b with
    | Some a =>
        (if CONFIG_HAP_LOCKLESS_POOLS cfg then ret tt else HA_SPIN_UNLOCK) ;;;
        buf_setup cfg a ;;;
        set_buf (buf_at a) ;;;
        ret (Some (buf_at a))
    | None =>
        (* slow path, uses malloc() *)
        b <- __pool_refill_alloc margin ;;
        (if CONFIG_HAP_LOCKLESS_POOLS cfg then ret tt else HA_SPIN_UNLOCK) ;;;
        match b with
        | Some a =>
            buf_setup cfg a ;;;
            set_buf (buf_at a) ;;;
            ret (Some (buf_at a))
        | None => ret None
        end
    end.

(** The pool's own invariant: the objects that are allocated and not in use
    are those of the free list, and the counters are [unsigned int]s. *)
Definition pool_ok (ph : pool_head) : Prop :=
  0 <= used ph /\ used ph <= allocated ph /\ allocated ph < 2 ^ 32 /\
  Z.of_nat (length (free_list ph)) = allocated ph - used ph.

(** The pool cannot grow: it is at its limit, as the growth loop tests it
    ([limit = 0] meaning no limit), or the system has no memory left. *)
Definition at_limit (ph : pool_head) : bool :=
  negb (limit ph =? 0) && (limit ph <=? allocated ph).

Definition no_memory (s : state) : Prop :=
  at_limit (pool_head_buffer s) = true \/ heap s = [].

(** The events that open and close the pool's critical section in a given
    build. *)
Definition lock_of (cfg : config) : list event :=
  if CONFIG_HAP_LOCKLESS_POOLS cfg then [] else [EvLock].

Definition unlock_of (cfg : config) : list event :=
  if CONFIG_HAP_LOCKLESS_POOLS cfg then [] else [EvUnlock].

(** The state once the buffer at [a] was set up and given to the caller,
    the pool being [ph], the heap [h], and [t] the events since [s]. *)
Definition handed (cfg : config) (s : state) (ph : pool_head) (h : list Z)
  (a : Z) (t : list event) : state :=
  mkstate ph h
    (fun x => if x =? a
              then Buffer.b_reset
                     (Buffer.mkbuf (Buffer.p (buffers s a))
                        (size ph - sizeof_struct_buffer cfg)
                        (Buffer.i (buffers s a)) (Buffer.o (buffers s a))
                        (Buffer.data (buffers s a)))
              else buffers s x)
    (buf_at a) (trace s ++ t).

(** *** States to run the functions on *)

(** A build with pool locks and one without; [struct buffer] takes 32
    bytes. *)
Definition cfg_locked : config := mkconfig false 32.
Definition cfg_lockless : config := mkconfig true 32.

(** A pool of 4 objects, limited to 4, all of them free, in a system with
    no memory left; the caller holds no buffer. *)
Definition pool4 : state :=
  mkstate (mkpool [100; 200; 300; 400] 4 0 4 16416) []
    (fun _ => Buffer.mkbuf 0 0 0 0 (fun _ => x00)) buf_empty [].

(** The same pool once its 4 objects are in use. *)
Definition pool4_used : state :=
  mkstate (mkpool [] 4 4 4 16416) []
    (fun _ => Buffer.mkbuf 0 0 0 0 (fun _ => x00)) buf_empty [].

(** *** More of buffer.h: giving a buffer back *)

(** Modelled from the spec: [pool_free] of common/memory.h, "returns the
    buffer to the free list"; the object is no longer in use.  The pool is
    locked meanwhile in the builds that have pool locks. *)
Definition pool_free (cfg : config) (a : Z) : M unit :=
  (if CONFIG_HAP_LOCKLESS_POOLS cfg then ret tt else HA_SPIN_LOCK) ;;;
  ph <- get_pool ;;
  set_pool (mkpool (a :: free_list ph) (allocated ph) (used ph - 1)
              (limit ph) (size ph)) ;;;
  (if CONFIG_HAP_LOCKLESS_POOLS cfg then ret tt else HA_SPIN_UNLOCK).

(** [__b_drop], for a handle on a pool object; the two static buffers are
    not pool objects, and [b_drop] never passes them on since their size
    is 0. *)
Definition __b_drop (cfg : config) : M unit :=
  cur <- get_buf ;;
  match cur with
  | buf_at a => pool_free cfg a
  | buf_empty | buf_wanted => ret tt
  end.

Definition b_drop (cfg : config) : M unit :=
  cur <- get_buf ;;
  sz <- buf_size cur ;;
  if sz =? 0 then ret tt else __b_drop cfg.

Definition b_free (cfg : config) : M unit :=
  b_drop cfg ;;;
  set_buf buf_empty.

(** A pool object in use, holding a buffer of 16384 bytes, the handle
    being on it. *)
Definition pool_holding : state :=
  mkstate (mkpool [200] 2 1 4 16416) []
    (fun _ => Buffer.mkbuf 0 16384 0 0 (fun _ => x00)) (buf_at 100) [].

(** The three allocators, when no buffer is held. *)
Inductive allocator : Type := Alloc | AllocFast | AllocMargin (margin : Z).

Definition run_alloc (cfg : config) (f : allocator)
  : M (option buffer_ptr) :=
  match f with
  | Alloc => b_alloc cfg
  | AllocFast => b_alloc_fast cfg
  | AllocMargin m => b_alloc_margin cfg m
  end.

End Pool.

(* ------------------------------------------------------------------ *)
(** ** include/haproxy/stconn.h : stream endpoint flags and shutdowns   *)
(* ------------------------------------------------------------------ *)

Module Stconn.

(** The [SE_FL_*] values of [enum se_flags] (haproxy/stconn-t.h) that
    stconn.h names; the header that gives them their values is taken as a
    parameter. *)
Class se_flags : Type := {
  SE_FL_T_MUX       : Z;
  SE_FL_T_APPLET    : Z;
  SE_FL_SHRD        : Z;
  SE_FL_SHRR        : Z;
  SE_FL_SHR         : Z;
  SE_FL_SHWN        : Z;
  SE_FL_SHWS        : Z;
  SE_FL_SHW         : Z;
  SE_FL_EOI         : Z;
  SE_FL_EOS         : Z;
  SE_FL_ERROR       : Z;
  SE_FL_ERR_PENDING : Z;
  SE_FL_EXP_NO_DATA : Z
}.

(** [enum co_shr_mode] and [enum co_shw_mode] (haproxy/connection-t.h). *)
Inductive co_shr_mode : Type := CO_SHR_DRAIN | CO_SHR_RESET.
Inductive co_shw_mode : Type := CO_SHW_NORMAL | CO_SHW_SILENT.

(** [struct connection], reduced to its [mux] pointer: the name of the
    multiplexer that owns the connection, if any. *)
Record connection : Type := mkconn {
  mux : option nat
}.

(** [struct sedesc] *)
Record sedesc : Type := mksedesc {
  se    : Z;                   (* the endpoint object, opaque *)
  conn  : option connection;
  flags : Z;                   (* SE_FL_* *)
  lra   : Z;
  fsb   : Z
}.

(** [struct stconn] *)
Record stconn : Type := mkstconn {
  sc_sedesc : sedesc;          (* sc->sedesc *)
  sc_flags  : Z;               (* sc->flags, SC_FL_* *)
  ioto      : Z
}.

(** [struct mux_ops], reduced to the two shutdown hooks.  A hook receives
    the stream connector and may update it. *)
Record mux_ops : Type := mkmux {
  shutr : option (stconn -> co_shr_mode -> stconn);
  shutw : option (stconn -> co_shw_mode -> stconn)
}.

(** A call into a multiplexer. *)
Inductive call : Type :=
| CallShutr (m : nat) (mode : co_shr_mode)
| CallShutw (m : nat) (mode : co_shw_mode).

Record world : Type := mkworld {
  sc    : stconn;
  calls : list call             (* most recent call last *)
}.

Definition se_fl_zero (sd : sedesc) : sedesc :=
  mksedesc (se sd) (conn sd) 0 (lra sd) (fsb sd).

Definition se_fl_setall (sd : sedesc) (all : Z) : sedesc :=
  mksedesc (se sd) (conn sd) all (lra sd) (fsb sd).

Definition se_fl_set (sd : sedesc) (on : Z) : sedesc :=
  mksedesc (se sd) (conn sd) (Z.lor (flags sd) on) (lra sd) (fsb sd).

Definition se_fl_clr (sd : sedesc) (off : Z) : sedesc :=
  mksedesc (se sd) (conn sd) (Z.land (flags sd) (Z.lnot off)) (lra sd) (fsb sd).

Definition se_fl_test (sd : sedesc) (test : Z) : bool :=
  negb (Z.land (flags sd) test =? 0).

Definition se_fl_get (sd : sedesc) : Z := flags sd.

Definition with_sedesc (s : stconn) (sd : sedesc) : stconn :=
  mkstconn sd (sc_flags s) (ioto s).

Definition sc_ep_zero (s : stconn) : stconn :=
  with_sedesc s (se_fl_zero (sc_sedesc s)).

Definition sc_ep_setall (s : stconn) (all : Z) : stconn :=
  with_sedesc s (se_fl_setall (sc_sedesc s) all).

Definition sc_ep_set (s : stconn) (on : Z) : stconn :=
  with_sedesc s (se_fl_set (sc_sedesc s) on).

Definition sc_ep_clr (s : stconn) (off : Z) : stconn :=
  with_sedesc s (se_fl_clr (sc_sedesc s) off).

Definition sc_ep_test (s : stconn) (test : Z) : bool :=
  se_fl_test (sc_sedesc s) test.

Definition sc_ep_get (s : stconn) : Z := se_fl_get (sc_sedesc s).

Section WithFlags.

Context {F : se_flags}.

Definition se_fl_set_error (sd : sedesc) : sedesc :=
  if se_fl_test sd (Z.lor SE_FL_EOS SE_FL_EOI)
  then se_fl_set sd SE_FL_ERROR
  else se_fl_set sd SE_FL_ERR_PENDING.

Definition se_expect_no_data (sd : sedesc) : sedesc :=
  se_fl_set sd SE_FL_EXP_NO_DATA.

Definition se_expect_data (sd : sedesc) : sedesc :=
  se_fl_clr sd SE_FL_EXP_NO_DATA.

Definition __sc_conn (s : stconn) : option connection := conn (sc_sedesc s).

Definition sc_conn (s : stconn) : option connection :=
  if sc_ep_test s SE_FL_T_MUX then __sc_conn s else None.

(** The multiplexers, by name: what [conn->mux] points to. *)
Variable muxes : nat -> mux_ops.

(** [sc_mux_ops]; the name is kept along with the operations. *)
Definition sc_mux_ops (s : stconn) : option (nat * mux_ops) :=
  match sc_conn s with
  | Some c => match mux c with
              | Some m => Some (m, muxes m)
              | None => None
              end
  | None => None
  end.

(** A function that can stop on [BUG_ON]: [None] is the abort. *)
Definition M : Type := world -> option world.

Definition seq_ (f g : M) : M :=
  fun w => match f w with Some w' => g w' | None => None end.

Definition BUG_ON (cond : bool) : M :=
  fun w => if cond then None else Some w.

Definition is_none {A : Type} (x : option A) : bool :=
  match x with Some _ => false | None => true end.

Definition sc_conn_shutr (mode : co_shr_mode) : M :=
  fun w =>
    match BUG_ON (is_none (sc_conn (sc w))) w with
    | None => None
    | Some w =>
        if sc_ep_test (sc w) SE_FL_SHR then Some w
        else
          (* clean data-layer shutdown *)
          let w :=
            match sc_mux_ops (sc w) with
            | Some (m, ops) =>
                match shutr ops with
                | Some hook =>
                    mkworld (hook (sc w) mode) (calls w ++ [CallShutr m mode])
                | None => w
                end
            | None => w
            end in
          Some (mkworld
                  (sc_ep_set (sc w)
                     (match mode with
                      | CO_SHR_DRAIN => SE_FL_SHRD
                      | CO_SHR_RESET => SE_FL_SHRR
                      end))
                  (calls w))
    end.

Definition sc_conn_shutw (mode : co_shw_mode) : M :=
  fun w =>
    match BUG_ON (is_none (sc_conn (sc w))) w with
    | None => None
    | Some w =>
        if sc_ep_test (sc w) SE_FL_SHW then Some w
        else
          (* clean data-layer shutdown *)
          let w :=
            match sc_mux_ops (sc w) with
            | Some (m, ops) =>
                match shutw ops with
                | Some hook =>
                    mkworld (hook (sc w) mode) (calls w ++ [CallShutw m mode])
                | None => w
                end
            | None => w
            end in
          Some (mkworld
                  (sc_ep_set (sc w)
                     (match mode with
                      | CO_SHW_NORMAL => SE_FL_SHWN
                      | CO_SHW_SILENT => SE_FL_SHWS
                      end))
                  (calls w))
    end.

Definition sc_conn_shut : M :=
  seq_ (sc_conn_shutw CO_SHW_SILENT) (sc_conn_shutr CO_SHR_RESET).

Definition sc_conn_drain_and_shut : M :=
  seq_ (sc_conn_shutw CO_SHW_SILENT) (sc_conn_shutr CO_SHR_DRAIN).

End WithFlags.

(** What the code relies on from the flag values: each shut flag is a
    non-empty set of bits and the two status masks are the unions of the
    flags of their direction. *)
Definition se_flags_ok (F : se_flags) : Prop :=
  SE_FL_SHR = Z.lor SE_FL_SHRD SE_FL_SHRR /\
  SE_FL_SHW = Z.lor SE_FL_SHWN SE_FL_SHWS /\
  SE_FL_SHRD <> 0 /\ SE_FL_SHRR <> 0 /\
  SE_FL_SHWN <> 0 /\ SE_FL_SHWS <> 0.

(** The values of haproxy/stconn-t.h, used to run the functions. *)
Definition haproxy_se_flags : se_flags := {|
  SE_FL_T_MUX       := 0x00000001;
  SE_FL_T_APPLET    := 0x00000002;
  SE_FL_SHRD        := 0x00000100;
  SE_FL_SHRR        := 0x00000200;
  SE_FL_SHR         := 0x00000300;
  SE_FL_SHWN        := 0x00000400;
  SE_FL_SHWS        := 0x00000800;
  SE_FL_SHW         := 0x00000c00;
  SE_FL_EOI         := 0x00004000;
  SE_FL_EOS         := 0x00008000;
  SE_FL_ERROR       := 0x00010000;
  SE_FL_ERR_PENDING := 0x00020000;
  SE_FL_EXP_NO_DATA := 0x00200000
|}.

(** One multiplexer, whose read-shutdown hook leaves the connector alone
    and which has no write-shutdown hook. *)
Definition one_mux (m : nat) : mux_ops :=
  mkmux (Some (fun s _ => s)) None.

(** A connector attached to a connection owned by multiplexer 0, nothing
    shut yet. *)
Definition sc_attached : world :=
  mkworld (mkstconn (mksedesc 0 (Some (mkconn (Some 0%nat))) 0x00000001 0 0)
             0 0) [].

(** *** More of stconn.h: activity reports and back-pressure *)

(** The [SE_FL_*] values the following functions name, the [SC_FL_*] values
    of [enum sc_flags] (haproxy/stconn-t.h), and what haproxy/ticks.h says
    of timestamps: which value means "never" and the test that a timestamp
    is set.  These headers are taken as parameters. *)
Class se_flags_app : Type := {
  SE_FL_WAIT_DATA        : Z;
  SE_FL_WONT_CONSUME     : Z;
  SE_FL_HAVE_NO_DATA     : Z;
  SE_FL_APPLET_NEED_CONN : Z
}.

Class sc_fl : Type := {
  SC_FL_INDEP_STR : Z;
  SC_FL_WONT_READ : Z;
  SC_FL_NEED_BUFF : Z;
  SC_FL_NEED_ROOM : Z
}.

Class ticks : Type := {
  TICK_ETERNITY : Z;
  tick_isset    : Z -> bool
}.

Section WithActivity.

Context {F : se_flags} {G : se_flags_app} {S : sc_fl} {T : ticks}.

(** The global [now_ms], the date of the call. *)
Variable now_ms : Z.

Definition with_sc_flags (s : stconn) (v : Z) : stconn :=
  mkstconn (sc_sedesc s) v (ioto s).

Definition sc_ep_lra (s : stconn) : Z := lra (sc_sedesc s).

Definition sc_ep_fsb (s : stconn) : Z := fsb (sc_sedesc s).

Definition sc_ep_report_read_activity (s : stconn) : stconn :=
  let sd := sc_sedesc s in
  with_sedesc s (mksedesc (se sd) (conn sd) (flags sd) now_ms (fsb sd)).

Definition sc_ep_report_blocked_send (s : stconn) : stconn :=
  let sd := sc_sedesc s in
  if negb (tick_isset (fsb sd))
  then with_sedesc s (mksedesc (se sd) (conn sd) (flags sd) (lra sd) now_ms)
  else s.

Definition sc_ep_report_send_activity (s : stconn) : stconn :=
  let sd := sc_sedesc s in
  let s := with_sedesc s
             (mksedesc (se sd) (conn sd) (flags sd) (lra sd) TICK_ETERNITY) in
  if Z.land (sc_flags s) SC_FL_INDEP_STR =? 0
  then sc_ep_report_read_activity s
  else s.

Definition sc_waiting_room (s : stconn) : bool :=
  negb (Z.land (sc_flags s) SC_FL_NEED_ROOM =? 0).

Definition se_have_more_data (sd : sedesc) : sedesc :=
  se_fl_clr sd SE_FL_HAVE_NO_DATA.

Definition se_have_no_more_data (sd : sedesc) : sedesc :=
  se_fl_set sd SE_FL_HAVE_NO_DATA.

Definition sc_will_read (s : stconn) : stconn :=
  if negb (Z.land (sc_flags s) SC_FL_WONT_READ =? 0) then
    let s := with_sc_flags s (Z.land (sc_flags s) (Z.lnot SC_FL_WONT_READ)) in
    sc_ep_report_read_activity s
  else s.

Definition sc_wont_read (s : stconn) : stconn :=
  with_sc_flags s (Z.lor (sc_flags s) SC_FL_WONT_READ).

Definition se_need_remote_conn (sd : sedesc) : sedesc :=
  se_fl_set sd SE_FL_APPLET_NEED_CONN.

Definition sc_have_buff (s : stconn) : stconn :=
  if negb (Z.land (sc_flags s) SC_FL_NEED_BUFF =? 0) then
    let s := with_sc_flags s (Z.land (sc_flags s) (Z.lnot SC_FL_NEED_BUFF)) in
    sc_ep_report_read_activity s
  else s.

Definition sc_need_buff (s : stconn) : stconn :=
  with_sc_flags s (Z.lor (sc_flags s) SC_FL_NEED_BUFF).

Definition sc_have_room (s : stconn) : stconn :=
  if negb (Z.land (sc_flags s) SC_FL_NEED_ROOM =? 0) then
    let s := with_sc_flags s (Z.land (sc_flags s) (Z.lnot SC_FL_NEED_ROOM)) in
    sc_ep_report_read_activity s
  else s.

Definition sc_need_room (s : stconn) : stconn :=
  with_sc_flags s (Z.lor (sc_flags s) SC_FL_NEED_ROOM).

(** [se_will_consume(se)], [se_wont_consume(se)] and
    [se_need_more_data(se)], on the stream connector [se->sc] whose
    descriptor [se] is. *)
Definition se_will_consume (s : stconn) : stconn :=
  if se_fl_test (sc_sedesc s) SE_FL_WONT_CONSUME then
    let s := with_sedesc s (se_fl_clr (sc_sedesc s) SE_FL_WONT_CONSUME) in
    sc_ep_report_send_activity s
  else s.

Definition se_wont_consume (s : stconn) : stconn :=
  with_sedesc s (se_fl_set (sc_sedesc s) SE_FL_WONT_CONSUME).

Definition se_need_more_data (s : stconn) : stconn :=
  let s := se_will_consume s in
  with_sedesc s (se_fl_set (sc_sedesc s) SE_FL_WAIT_DATA).

End WithActivity.

(** A flag of [sc->flags] raised by a "need" call and lowered by the
    matching "have" call, which reports a read activity. *)
Definition need_flag (fl : Z) (s : stconn) : stconn :=
  with_sc_flags s (Z.lor (sc_flags s) fl).

Definition have_flag (now_ms fl : Z) (s : stconn) : stconn :=
  if negb (Z.land (sc_flags s) fl =? 0) then
    sc_ep_report_read_activity now_ms
      (with_sc_flags s (Z.land (sc_flags s) (Z.lnot fl)))
  else s.

(** A multiplexer whose shutdown hooks leave the connector on its
    connection and clear no endpoint flag. *)
Definition hooks_keep_endpoint (muxes : nat -> mux_ops) : Prop :=
  forall (m : nat) (s : stconn),
    (forall h mode, shutr (muxes m) = Some h ->
       conn (sc_sedesc (h s mode)) = conn (sc_sedesc s) /\
       Z.land (flags (sc_sedesc s)) (flags (sc_sedesc (h s mode)))
       = flags (sc_sedesc s)) /\
    (forall h mode, shutw (muxes m) = Some h ->
       conn (sc_sedesc (h s mode)) = conn (sc_sedesc s) /\
       Z.land (flags (sc_sedesc s)) (flags (sc_sedesc (h s mode)))
       = flags (sc_sedesc s)).

(** What is kept from one state of the connector to a later one: the
    connection, and every endpoint flag that was set. *)
Definition sc_grows (w w1 : world) : Prop :=
  conn (sc_sedesc (sc w1)) = conn (sc_sedesc (sc w)) /\
  Z.land (flags (sc_sedesc (sc w))) (flags (sc_sedesc (sc w1)))
  = flags (sc_sedesc (sc w)).

(** Values of haproxy/stconn-t.h and haproxy/ticks.h, used to run the
    functions. *)
Definition haproxy_se_flags_app : se_flags_app := {|
  SE_FL_WAIT_DATA        := 0x01000000;
  SE_FL_WONT_CONSUME     := 0x02000000;
  SE_FL_HAVE_NO_DATA     := 0x04000000;
  SE_FL_APPLET_NEED_CONN := 0x08000000
|}.

Definition haproxy_sc_fl : sc_fl := {|
  SC_FL_INDEP_STR := 0x00000040;
  SC_FL_WONT_READ := 0x00000080;
  SC_FL_NEED_BUFF := 0x00000100;
  SC_FL_NEED_ROOM := 0x00000200
|}.

Definition haproxy_ticks : ticks := {|
  TICK_ETERNITY := 0;
  tick_isset := fun t => negb (t =? 0)
|}.

(** A connector with nothing pending, never read from, never blocked. *)
Definition sc_idle : stconn :=
  mkstconn (mksedesc 0 None 0x00000001 0 0) 0 0.

End Stconn.

(* ------------------------------------------------------------------ *)
(** ** src/conn_stream.c : attaching and detaching a conn_stream        *)
(* ------------------------------------------------------------------ *)

Module ConnStream.

(** The operation tables and callback sets the file installs. *)
Inductive si_ops : Type := si_conn_ops | si_applet_ops | si_embedded_ops.
Inductive data_cb_set : Type := si_conn_cb | check_conn_cb.

(** [struct connection], as far as conn_stream.c looks into it. *)
Record connection : Type := mkconn {
  mux        : option nat;   (* conn->mux, the multiplexer's name *)
  conn_ctx   : bool;         (* conn->ctx != NULL *)
  destroy_cb : bool          (* conn->destroy_cb != NULL *)
}.

(** [struct appctx] *)
Record appctx : Type := mkappctx {
  applet_release : bool;     (* appctx->applet->release != NULL *)
  owner          : bool      (* appctx->owner != NULL *)
}.

(** [enum obj_type *end]: what the endpoint pointer designates. *)
Inductive endpoint : Type :=
| EndConn (c : connection)
| EndAppctx (a : appctx).

(** [enum obj_type *app]: what the application pointer designates. *)
Inductive application : Type := AppStream | AppCheck.

(** [struct stream_interface] *)
Record stream_interface : Type := mksi {
  ops               : si_ops;
  wait_event_events : Z      (* si->wait_event.events *)
}.

(** [struct conn_stream]; a NULL pointer is [None]. *)
Record conn_stream : Type := mkcs {
  flags   : Z;
  endp    : option endpoint;          (* cs->end *)
  ctx     : option Z;
  app     : option application;
  si      : option stream_interface;
  data_cb : option data_cb_set
}.

(** The empty flag set of a conn_stream. *)
Definition CS_FL_NONE : Z := 0.

(** Calls that leave the file, in program order. *)
Inductive event : Type :=
| EvMuxUnsubscribe (m : nat) (events : Z)
| EvMuxDetach (m : nat)
| EvConnStopTracking
| EvConnFullClose
| EvConnDestroyCb
| EvConnFree
| EvAppletRelease
| EvAppctxFree
| EvSiFree (arg : option stream_interface)   (* si_free(arg) *)
| EvCsFree.                                  (* pool_free(.., cs) *)

Record world : Type := mkworld {
  cs    : conn_stream;
  alive : bool;            (* the conn_stream has not been given back *)
  log   : list event       (* most recent call last *)
}.

Definition emit (e : event) (w : world) : world :=
  mkworld (cs w) (alive w) (log w ++ [e]).

Definition upd (f : conn_stream -> conn_stream) (w : world) : world :=
  mkworld (f (cs w)) (alive w) (log w).

Definition when (c : bool) (f : world -> world) (w : world) : world :=
  if c then f w else w.

Notation "f >> g" := (fun w => g (f w))
  (at level 62, left associativity, only parsing).

(** [cs_conn], [cs_appctx], [cs_strm], [cs_check] of haproxy/conn_stream.h:
    the object behind [cs->end] or [cs->app] when it has the asked type. *)
Definition cs_conn (c : conn_stream) : option connection :=
  match endp c with Some (EndConn x) => Some x | _ => None end.

Definition cs_appctx (c : conn_stream) : option appctx :=
  match endp c with Some (EndAppctx x) => Some x | _ => None end.

Definition cs_strm (c : conn_stream) : bool :=
  match app c with Some AppStream => true | _ => false end.

Definition cs_check (c : conn_stream) : bool :=
  match app c with Some AppCheck => true | _ => false end.

Definition set_si_ops (v : si_ops) (c : conn_stream) : conn_stream :=
  mkcs (flags c) (endp c) (ctx c) (app c)
    (match si c with
     | Some s => Some (mksi v (wait_event_events s))
     | None => None
     end)
    (data_cb c).

Definition set_data_cb (v : option data_cb_set) (c : conn_stream)
  : conn_stream :=
  mkcs (flags c) (endp c) (ctx c) (app c) (si c) v.

Definition cs_free : world -> world :=
  (fun w => emit (EvSiFree (si (cs w))) w) >>
  emit EvCsFree >>
  (fun w => mkworld (cs w) false (log w)).

(** [cs_attach_endp]; [cs->si->ops] is written without a test of [cs->si]
    when a stream is attached: [None] is that dereference of a NULL
    pointer. *)
Definition cs_attach_endp (e : endpoint) (cx : option Z) (w : world)
  : option world :=
  let w := upd (fun c => mkcs (flags c) (Some e) cx (app c) (si c)
                           (data_cb c)) w in
  match e with
  | EndConn conn =>
      let conn' := if conn_ctx conn then conn
                   else mkconn (mux conn) true (destroy_cb conn) in
      let w := upd (fun c => mkcs (flags c) (Some (EndConn conn')) (ctx c)
                               (app c) (si c) (data_cb c)) w in
      if cs_strm (cs w) then
        match si (cs w) with
        | Some _ =>
            Some (upd (set_si_ops si_conn_ops
                       >> set_data_cb (Some si_conn_cb)) w)
        | None => None
        end
      else if cs_check (cs w) then
        Some (upd (set_data_cb (Some check_conn_cb)) w)
      else Some w
  | EndAppctx a =>
      let a' := mkappctx (applet_release a) true in
      let w := upd (fun c => mkcs (flags c) (Some (EndAppctx a')) (ctx c)
                               (app c) (si c) (data_cb c)) w in
      match si (cs w) with
      | Some _ => Some (upd (set_si_ops si_applet_ops >> set_data_cb None) w)
      | None => Some w
      end
  end.

Section WithMux.

(** What a multiplexer's [unsubscribe] and [detach] do to the conn_stream
    they are handed. *)
Variable mux_unsubscribe : nat -> conn_stream -> conn_stream.
Variable mux_detach : nat -> conn_stream -> conn_stream.

Definition cs_detach_endp : world -> world :=
  (fun w =>
     match cs_conn (cs w) with
     | Some conn =>
         match mux conn with
         | Some m =>
             (* TODO: handle unsubscribe for healthchecks too *)
             let w :=
               match si (cs w) with
               | Some s =>
                   when (negb (wait_event_events s =? 0))
                     (emit (EvMuxUnsubscribe m (wait_event_events s)) >>
                      upd (mux_unsubscribe m)) w
               | None => w
               end in
             (emit (EvMuxDetach m) >> upd (mux_detach m)) w
         | None =>
             (* too early to have a mux, the connection is destroyed *)
             (emit EvConnStopTracking >>
              emit EvConnFullClose >>
              when (destroy_cb conn) (emit EvConnDestroyCb) >>
              emit EvConnFree) w
         end
     | None =>
         match cs_appctx (cs w) with
         | Some a =>
             (when (applet_release a) (emit EvAppletRelease) >>
              emit EvAppctxFree) w
         | None => w
         end
     end) >>
  upd (fun c => mkcs CS_FL_NONE None None (app c) (si c) (data_cb c)) >>
  upd (set_si_ops si_embedded_ops) >>
  upd (set_data_cb None) >>
  (fun w => match app (cs w) with
            | None => cs_free w
            | Some _ => w
            end).

(** What [cs_detach_endp] does before it looks at the application
    pointer. *)
Definition detach_endp_body : world -> world :=
  fun w =>
    let w1 :=
      match cs_conn (cs w) with
      | Some conn =>
          match mux conn with
          | Some m =>
              let w :=
                match si (cs w) with
                | Some s =>
                    when (negb (wait_event_events s =? 0))
                      (fun w => upd (mux_unsubscribe m)
                                  (emit (EvMuxUnsubscribe m
                                           (wait_event_events s)) w)) w
                | None => w
                end in
              upd (mux_detach m) (emit (EvMuxDetach m) w)
          | None =>
              emit EvConnFree
                (when (destroy_cb conn) (emit EvConnDestroyCb)
                   (emit EvConnFullClose (emit EvConnStopTracking w)))
          end
      | None =>
          match cs_appctx (cs w) with
          | Some a =>
              emit EvAppctxFree
                (when (applet_release a) (emit EvAppletRelease) w)
          | None => w
          end
      end in
    upd (set_data_cb None)
      (upd (set_si_ops si_embedded_ops)
         (upd (fun c => mkcs CS_FL_NONE None None (app c) (si c) (data_cb c))
            w1)).

End WithMux.

Definition cs_detach_app : world -> world :=
  (fun w => emit (EvSiFree (si (cs w))) w) >>
  upd (fun c => mkcs (flags c) (endp c) (ctx c) None None None) >>
  (fun w => match endp (cs w) with
            | None => cs_free w
            | Some _ => w
            end).

(** The conn_stream was handed to [pool_free]. *)
Definition freed (w : world) : bool :=
  existsb (fun e => match e with EvCsFree => true | _ => false end) (log w).

(** A conn_stream between a stream and a connection owned by multiplexer 0,
    and one that has the connection but no application. *)
Definition cs_both : world :=
  mkworld (mkcs 0 (Some (EndConn (mkconn (Some 0%nat) true false))) None
             (Some AppStream) (Some (mksi si_conn_ops 0)) (Some si_conn_cb))
    true [].

Definition cs_endp_only : world :=
  mkworld (mkcs 0 (Some (EndConn (mkconn (Some 0%nat) true false))) None
             None None None)
    true [].

(** *** More of conn_stream.c: attaching the application *)

(** [cs_attach_app]; [si_new] is what [si_new(cs)] returns, NULL when the
    allocation fails.  The result is the function's return value. *)
Definition cs_attach_app (si_new : option stream_interface)
  (a : application) (w : world) : Z * world :=
  let w := upd (fun c => mkcs (flags c) (endp c) (ctx c) (Some a) (si c)
                           (data_cb c)) w in
  match a with
  | AppStream =>
      let w :=
        match si (cs w) with
        | None => upd (fun c => mkcs (flags c) (endp c) (ctx c) (app c)
                                  si_new (data_cb c)) w
        | Some _ => w
        end in
      match si (cs w) with
      | None => (-1, w)
      | Some _ =>
          match cs_conn (cs w), cs_appctx (cs w) with
          | Some _, _ =>
              (0, upd (set_si_ops si_conn_ops
                       >> set_data_cb (Some si_conn_cb)) w)
          | None, Some _ =>
              (0, upd (set_si_ops si_applet_ops >> set_data_cb None) w)
          | None, None =>
              (0, upd (set_si_ops si_embedded_ops >> set_data_cb None) w)
          end
      end
  | AppCheck => (0, upd (set_data_cb (Some check_conn_cb)) w)
  end.

(** Multiplexer hooks that leave the application and the stream interface
    of the conn_stream they are handed as they are. *)
Definition hook_keeps_app (h : nat -> conn_stream -> conn_stream) : Prop :=
  forall m c, app (h m c) = app c /\ si (h m c) = si c.

(** The number of calls of a kind in a log. *)
Definition count_events (f : event -> bool) (l : list event) : nat :=
  length (filter f l).

Definition is_cs_free (e : event) : bool :=
  match e with EvCsFree => true | _ => false end.

Definition is_si_release (e : event) : bool :=
  match e with EvSiFree (Some _) => true | _ => false end.

Definition is_endp_release (e : event) : bool :=
  match e with
  | EvMuxDetach _ | EvConnFree | EvAppctxFree => true
  | _ => false
  end.

(** A live conn_stream with nothing attached to it. *)
Definition cs_fresh : world :=
  mkworld (mkcs 0 None None None None None) true [].

(** The stream interface once its operations are [si_embedded_ops], and
    whether an endpoint is attached, as a number. *)
Definition embedded (s : option stream_interface)
  : option stream_interface :=
  match s with
  | Some x => Some (mksi si_embedded_ops (wait_event_events x))
  | None => None
  end.

Definition has_endp (c : conn_stream) : nat :=
  match endp c with Some _ => 1%nat | None => 0%nat end.

End ConnStream.

(* ------------------------------------------------------------------ *)
(** ** include/haproxy/mux_quic-t.h : per-stream flow control           *)
(* ------------------------------------------------------------------ *)

Module MuxQuic.

Definition QC_SF_NONE      : Z := 0x00000000.
Definition QC_SF_BLK_SFCTL : Z := 0x00000010.

(** [struct qcs], its flow-control counters: [rx.offset], [tx.offset],
    [tx.sent_offset], [tx.ack_offset], [tx.msd]. *)
Record qcs : Type := mkqcs {
  flags          : Z;   (* QC_SF_* *)
  rx_offset      : Z;   (* the current offset of received data *)
  tx_offset      : Z;   (* last offset of data ready to be sent *)
  tx_sent_offset : Z;   (* last offset sent by transport layer *)
  tx_ack_offset  : Z;   (* last acked ordered byte offset *)
  tx_msd         : Z    (* fctl bytes limit to respect on emission *)
}.

(** The outcome of feeding an input to a stream. *)
Inductive result : Type :=
| Ok (q : qcs)
| ProtocolError.

(** The inputs a stream reacts to. *)
Inductive input : Type :=
| Recv (n : Z)            (* [n] more bytes arrive from the peer *)
| Produce (n : Z)         (* the application queues [n] bytes for emission *)
| Sent (n : Z)            (* the transport reports [n] more bytes sent *)
| Ack (off : Z)           (* the peer acknowledges up to offset [off] *)
| MaxStreamData (m : Z).  (* the peer announces a transmit ceiling *)

Section WithCeilings.

(** The receive ceiling of the stream and the room the connection leaves to
    it ("connection_max_data - other_streams_usage"), both negotiated outside
    of the record. *)
Variable rx_max_offset : Z.
Variable conn_room : Z.

(** A stream that has just been opened, allowed to emit up to [msd]. *)
Definition qcs_new (msd : Z) : qcs := mkqcs QC_SF_NONE 0 0 0 0 msd.

(** Modelled from the spec: the functions of src/mux_quic.c that update a
    [struct qcs] are not part of the sources at hand.  "Receiving more than
    the ceiling, or producing an acknowledgment offset outside
    [0, sent_offset], is a protocol violation reported to the caller, not
    corrected silently.  Transmit blocking sets a blocked-on-flow-control
    flag the moment tx_offset would exceed min(tx_max_offset,
    connection_max_data - other_streams_usage); the flag clears only when a
    ceiling-raising update is received."  A transport report that would move
    [sent_offset] backwards or past [offset] is refused in the same way. *)
Definition qcs_step (q : qcs) (x : input) : result :=
  match x with
  | Recv n =>
      if (n <? 0) || (n >? rx_max_offset - rx_offset q) then ProtocolError
      else Ok (mkqcs (flags q) (rx_offset q + n) (tx_offset q)
                 (tx_sent_offset q) (tx_ack_offset q) (tx_msd q))
  | Produce n =>
      if n <? 0 then ProtocolError
      else if n >? Z.min (tx_msd q) conn_room - tx_offset q then
        Ok (mkqcs (Z.lor (flags q) QC_SF_BLK_SFCTL) (rx_offset q) (tx_offset q)
              (tx_sent_offset q) (tx_ack_offset q) (tx_msd q))
      else Ok (mkqcs (flags q) (rx_offset q) (tx_offset q + n)
                 (tx_sent_offset q) (tx_ack_offset q) (tx_msd q))
  | Sent n =>
      if (n <? 0) || (n >? tx_offset q - tx_sent_offset q) then ProtocolError
      else Ok (mkqcs (flags q) (rx_offset q) (tx_offset q)
                 (tx_sent_offset q + n) (tx_ack_offset q) (tx_msd q))
  | Ack off =>
      if (off <? 0) || (off >? tx_sent_offset q) then ProtocolError
      else Ok (mkqcs (flags q) (rx_offset q) (tx_offset q)
                 (tx_sent_offset q) off (tx_msd q))
  | MaxStreamData m =>
      if m >? tx_msd q then
        Ok (mkqcs (Z.land (flags q) (Z.lnot QC_SF_BLK_SFCTL)) (rx_offset q)
              (tx_offset q) (tx_sent_offset q) (tx_ack_offset q) m)
      else Ok q
  end.

(** The states a stream goes through: every accepted input moves it on,
    a refused one leaves it where it was. *)
Inductive reachable (msd : Z) : qcs -> Prop :=
| reach_new : reachable msd (qcs_new msd)
| reach_step : forall q x q',
    reachable msd q -> qcs_step q x = Ok q' -> reachable msd q'.

(** Feeding a list of inputs, refused ones being dropped; the number of
    refusals is counted. *)
Fixpoint qcs_run (q : qcs) (xs : list input) : qcs * nat :=
  match xs with
  | [] => (q, 0%nat)
  | x :: xs' =>
      match qcs_step q x with
      | Ok q' => qcs_run q' xs'
      | ProtocolError => let (q', n) := qcs_run q xs' in (q', S n)
      end
  end.

(** The bounds of the flow-control record. *)
Definition fctl_ok (q : qcs) : Prop :=
  rx_offset q <= rx_max_offset /\
  tx_sent_offset q <= tx_offset q /\ tx_offset q <= tx_msd q.

End WithCeilings.

End MuxQuic.

(* ================================================================== *)
(** * Part II.  Properties                                             *)
(* ================================================================== *)

(* ------------------------------------------------------------------ *)
(** ** Tactics                                                         *)
(* ------------------------------------------------------------------ *)

(** Case analysis on the comparisons a C condition is made of. *)
Ltac cmp_cases :=
  repeat match goal with
  | |- context [?a >? ?b] => rewrite (Z.gtb_ltb a b)
  | H : context [?a >? ?b] |- _ => rewrite (Z.gtb_ltb a b) in H
  | |- context [?a <? ?b] => destruct (Z.ltb_spec a b)
  | |- context [?a <=? ?b] => destruct (Z.leb_spec a b)
  | |- context [?a =? ?b] => destruct (Z.eqb_spec a b)
  | H : context [?a <? ?b] |- _ => destruct (Z.ltb_spec a b)
  | H : context [?a <=? ?b] |- _ => destruct (Z.leb_spec a b)
  | H : context [?a =? ?b] |- _ => destruct (Z.eqb_spec a b)
  end; simpl in *.

(** Settle the comparisons that the context decides, without splitting. *)
Ltac cmp_lia :=
  repeat match goal with
  | |- context [?a >? ?b] => rewrite (Z.gtb_ltb a b)
  | |- context [?a <? ?b] =>
      first [ rewrite (proj2 (Z.ltb_lt a b)) by lia
            | rewrite (proj2 (Z.ltb_ge a b)) by lia ]
  | |- context [?a <=? ?b] =>
      first [ rewrite (proj2 (Z.leb_le a b)) by lia
            | rewrite (proj2 (Z.leb_gt a b)) by lia ]
  | |- context [?a =? ?b] =>
      first [ rewrite (proj2 (Z.eqb_eq a b)) by lia
            | rewrite (proj2 (Z.eqb_neq a b)) by lia ]
  end; cbn [andb orb negb].

(* ------------------------------------------------------------------ *)
(** ** Lists read through an index                                     *)
(* ------------------------------------------------------------------ *)

Section ListFacts.

Context {A : Type}.

Lemma map_seq_ext (f g : nat -> A) (n : nat) :
  (forall k, (k < n)%nat -> f k = g k) ->
  map f (seq 0 n) = map g (seq 0 n).
Proof.
  intros H. apply map_ext_in. intros k Hk. apply in_seq in Hk. apply H. lia.
Qed.

Lemma map_seq_shift (f : nat -> A) (n s m : nat) :
  map f (seq (n + s) m) = map (fun k => f (n + k)%nat) (seq s m).
Proof.
  revert s. induction m as [|m IH]; intros s; simpl.
  - reflexivity.
  - f_equal. rewrite <- IH. f_equal. f_equal. lia.
Qed.

Lemma map_seq_from (f : nat -> A) (n m : nat) :
  map f (seq n m) = map (fun k => f (n + k)%nat) (seq 0 m).
Proof. rewrite <- map_seq_shift. now rewrite Nat.add_0_r. Qed.

Lemma map_seq_app (f : nat -> A) (n m : nat) :
  map f (seq 0 (n + m)) =
  map f (seq 0 n) ++ map (fun k => f (n + k)%nat) (seq 0 m).
Proof.
  rewrite seq_app, map_app. f_equal. apply map_seq_from.
Qed.

Lemma map_nth_seq (l : list A) (n : nat) (d : A) :
  (n <= length l)%nat -> map (fun k => nth k l d) (seq 0 n) = firstn n l.
Proof.
  revert l. induction n as [|n IH]; intros l Hn.
  - reflexivity.
  - destruct l as [|x l]; simpl in Hn. lia.
    simpl. f_equal. rewrite <- seq_shift, map_map. apply IH. lia.
Qed.

Lemma firstn_map_seq (f : nat -> A) (n m : nat) :
  (n <= m)%nat -> firstn n (map f (seq 0 m)) = map f (seq 0 n).
Proof.
  intros Hn. replace m with (n + (m - n))%nat by lia.
  rewrite map_seq_app, firstn_app, length_map, length_seq, Nat.sub_diag.
  rewrite firstn_all2 by (rewrite length_map, length_seq; lia).
  cbn [firstn]. apply app_nil_r.
Qed.

End ListFacts.

(* ------------------------------------------------------------------ *)
(** ** Wrapping buffers                                                *)
(* ------------------------------------------------------------------ *)

Section BufferFacts.

Import Buffer.

Lemma len_nonneg (s : list byte) : 0 <= len s.
Proof. unfold len. lia. Qed.

Lemma input_bytes_length (b : buffer) :
  length (input_bytes b) = Z.to_nat (i b).
Proof. unfold input_bytes. now rewrite length_map, length_seq. Qed.

Lemma output_bytes_length (b : buffer) :
  length (output_bytes b) = Z.to_nat (o b).
Proof. unfold output_bytes. now rewrite length_map, length_seq. Qed.

Lemma b_ptr_fwd (b : buffer) (k : Z) :
  wf b -> 0 <= k <= size b ->
  b_ptr b k = if p b + k <? size b then p b + k else p b + k - size b.
Proof.
  intros (Hi & Ho & Hio & Hp & Hps) Hk. unfold b_ptr. cmp_cases; lia.
Qed.

Lemma b_ptr_bwd (b : buffer) (k : Z) :
  wf b -> 0 <= k <= size b ->
  b_ptr b (- k) = if k <=? p b then p b - k else p b - k + size b.
Proof.
  intros (Hi & Ho & Hio & Hp & Hps) Hk. unfold b_ptr. cmp_cases; lia.
Qed.

Lemma b_contig_space_eq (b : buffer) :
  wf b ->
  b_contig_space b =
  if (p b <? o b) || (size b <=? p b + i b) then room b
  else size b - (p b + i b).
Proof.
  intros Hwf. unfold b_contig_space, b_head, room.
  rewrite b_ptr_bwd by (try assumption; unfold wf in Hwf; lia).
  destruct Hwf as (Hi & Ho & Hio & Hp & Hps). cmp_cases; lia.
Qed.

Lemma bi_putblk_split (b : buffer) (blk : list byte) :
  wf b ->
  let r := Z.min (len blk) (room b) in
  exists m,
    bi_putblk b blk (len blk) = (mkbuf (p b) (size b) (i b + r) (o b) m, r) /\
    forall a, m a = put_at (data b) (size b) (b_tail b) blk r a.
Proof.
  intros Hwf r.
  pose proof (len_nonneg blk) as Hl.
  pose proof (b_contig_space_eq b Hwf) as Hc.
  assert (Ht : b_tail b = if p b + i b <? size b then p b + i b
                          else p b + i b - size b).
  { unfold b_tail. apply b_ptr_fwd; [assumption | unfold wf in Hwf; lia]. }
  destruct Hwf as (Hi & Ho & Hio & Hp & Hps).
  unfold bi_putblk, buffer_len. fold r.
  replace (if len blk >? size b - (i b + o b)
           then size b - (i b + o b) else len blk) with r
    by (unfold r, room; cmp_cases; lia).
  destruct (Z.eqb_spec r 0) as [Hr0 | Hr0].
  { exists (data b). split.
    - destruct b; simpl in *. rewrite Hr0. do 2 f_equal. lia.
    - intros a. unfold put_at. rewrite Hr0. cmp_cases; try lia; reflexivity. }
  assert (Hr : 0 < r <= room b) by (unfold r, room in *; lia).
  unfold room in *.
  set (half := if b_contig_space b >? r then r else b_contig_space b).
  assert (Hone : r <= b_contig_space b ->
    exists m,
      (let b0 := set_data b (memcpy (data b) (b_tail b) blk half) in
       let b1 := if r >? half
                 then set_data b0 (memcpy (data b0) (b_ptr b0 (i b0 + half))
                                     (skipn (Z.to_nat half) blk) (r - half))
                 else b0 in
       (set_i b1 (i b1 + r), r)) =
      (mkbuf (p b) (size b) (i b + r) (o b) m, r) /\
      forall a, m a = put_at (data b) (size b) (b_tail b) blk r a).
  { intros Hle.
    assert (Hh : half = r) by (unfold half; cmp_cases; lia).
    rewrite Hh. cbv zeta.
    rewrite (Z.gtb_ltb r r), Z.ltb_irrefl.
    eexists. split; [reflexivity|].
    intros a. cbn [data set_data]. unfold put_at, memcpy. rewrite Ht.
    cmp_cases; try lia; reflexivity. }
  destruct (Z.ltb_spec (p b) (o b)) as [Hpo | Hpo];
    [| destruct (Z.leb_spec (size b) (p b + i b)) as [Hw | Hw]];
    simpl in Hc.
  - (* the output wraps backwards: one copy *)
    apply Hone. lia.
  - (* the input wraps: one copy *)
    apply Hone. lia.
  - (* the data reach neither end of the region *)
    assert (Hh : half = Z.min r (size b - (p b + i b)))
      by (unfold half; rewrite Hc; cmp_cases; lia).
    destruct (Z.ltb_spec half r) as [Hlt | Hge]; [| apply Hone; lia].
    assert (Hh' : half = size b - (p b + i b)) by lia.
    rewrite (Z.gtb_ltb r half), (proj2 (Z.ltb_lt half r)) by lia.
    eexists. split; [reflexivity|].
    intros a. cbn [data set_data i]. unfold put_at, memcpy.
    change (b_ptr (set_data b _) (i b + half)) with (b_ptr b (i b + half)).
    rewrite (b_ptr_fwd b (i b + half)) by (unfold wf; lia).
    rewrite Ht, Hh'. cmp_lia.
    cmp_cases; rewrite ?nth_skipn; try lia; try reflexivity; f_equal; lia.
Qed.

Lemma b_ptr_ext (b b' : buffer) (k : Z) :
  p b' = p b -> size b' = size b -> b_ptr b' k = b_ptr b k.
Proof. intros Hp Hs. unfold b_ptr. now rewrite Hp, Hs. Qed.

(** A buffer whose input grew by the [r] first bytes of [blk], written at
    its tail: the input reads back as the old input followed by these
    bytes, and the output is as it was. *)
Lemma input_append (b b' : buffer) (blk : list byte) (r : Z) :
  wf b ->
  p b' = p b -> size b' = size b -> o b' = o b -> i b' = i b + r ->
  0 <= r <= room b -> r <= len blk ->
  (forall a, data b' a = put_at (data b) (size b) (b_tail b) blk r a) ->
  input_bytes b' = input_bytes b ++ firstn (Z.to_nat r) blk /\
  output_bytes b' = output_bytes b /\
  wf b'.
Proof.
  intros Hwf Hp' Hs' Ho' Hi' Hr Hrl Hd.
  assert (Ht : b_tail b = if p b + i b <? size b then p b + i b
                          else p b + i b - size b).
  { unfold b_tail. apply b_ptr_fwd; [assumption | unfold wf in Hwf; lia]. }
  pose proof Hwf as (Hi & Ho & Hio & Hp & Hps).
  unfold room, len in *.
  split; [| split].
  - unfold input_bytes. rewrite Hi'.
    replace (Z.to_nat (i b + r)) with (Z.to_nat (i b) + Z.to_nat r)%nat by lia.
    rewrite map_seq_app. f_equal.
    + apply map_seq_ext. intros k Hk. unfold b_peek.
      rewrite (b_ptr_ext b b') by assumption.
      rewrite Hd, b_ptr_fwd by (try assumption; lia).
      unfold put_at. rewrite Ht. cmp_cases; try lia; reflexivity.
    + rewrite <- (map_nth_seq blk (Z.to_nat r) x00) by lia.
      apply map_seq_ext. intros k Hk. unfold b_peek.
      rewrite (b_ptr_ext b b') by assumption.
      rewrite Hd, b_ptr_fwd by (try assumption; lia).
      unfold put_at. rewrite Ht. cmp_cases; try lia; f_equal; lia.
  - unfold output_bytes. rewrite Ho'.
    apply map_seq_ext. intros k Hk. unfold b_peek.
    rewrite (b_ptr_ext b b') by assumption.
    replace (Z.of_nat k - o b) with (- (o b - Z.of_nat k)) by lia.
    rewrite Hd, b_ptr_bwd by (try assumption; lia).
    unfold put_at. rewrite Ht. cmp_cases; try lia; reflexivity.
  - unfold wf. rewrite Hp', Hs', Ho', Hi'. lia.
Qed.

Lemma bi_putblk_correct (b : buffer) (blk : list byte) :
  wf b ->
  let r := Z.min (len blk) (room b) in
  let b' := fst (bi_putblk b blk (len blk)) in
  snd (bi_putblk b blk (len blk)) = r /\
  p b' = p b /\ size b' = size b /\ i b' = i b + r /\ o b' = o b /\
  input_bytes b' = input_bytes b ++ firstn (Z.to_nat r) blk /\
  output_bytes b' = output_bytes b /\
  wf b'.
Proof.
  intros Hwf r b'.
  destruct (bi_putblk_split b blk Hwf) as (m & Heq & Hm).
  fold r in Heq, Hm. subst b'. rewrite Heq. cbn [fst snd p size i o].
  pose proof (len_nonneg blk) as Hl.
  assert (Hr : 0 <= r <= room b /\ r <= len blk).
  { unfold r, room. unfold wf in Hwf. lia. }
  repeat (split; [reflexivity|]).
  apply input_append; try reflexivity; try assumption; lia.
Qed.

Lemma len_cons (c : byte) (s : list byte) : len (c :: s) = len s + 1.
Proof. unfold len. simpl length. lia. Qed.

(** The byte-per-iteration copy loop writes what a wrapping block copy
    writes. *)
Lemma istput_loop_put_at (sz : Z) (s : list byte) :
  forall (m : Z -> byte) (pos a : Z),
    0 <= pos <= sz -> (s <> [] -> pos < sz) -> len s <= sz ->
    istput_loop sz m pos s a = put_at m sz pos s (len s) a.
Proof.
  induction s as [|c s IH]; intros m pos a Hpos0 Hpos Hlen.
  - unfold put_at. cbn [istput_loop len length Z.of_nat].
    cmp_cases; try lia; reflexivity.
  - specialize (Hpos ltac:(discriminate)).
    rewrite len_cons in *. pose proof (len_nonneg s) as Hl.
    cbn [istput_loop].
    rewrite IH; [| cmp_cases; lia | intros _; cmp_cases; lia | lia].
    unfold put_at, store.
    cmp_cases; try lia; try reflexivity;
      try (subst a; replace (pos - pos) with 0 by lia; reflexivity);
      match goal with
      | |- _ = match Z.to_nat ?x with _ => _ end =>
          replace (Z.to_nat x) with (S (Z.to_nat (x - 1))) by lia;
          f_equal; lia
      end.
Qed.

Lemma len_pos (s : list byte) : s <> [] -> 0 < len s.
Proof. destruct s; [congruence | intros _; unfold len; simpl length; lia]. Qed.

Lemma firstn_len (s : list byte) : firstn (Z.to_nat (len s)) s = s.
Proof. unfold len. rewrite Nat2Z.id. apply firstn_all. Qed.

Lemma bi_istput_correct (b : buffer) (s : ist) :
  wf b ->
  let b' := fst (bi_istput b s) in
  if len s >? room b
  then bi_istput b s = (b, if len s <? size b then 0 else -1)
  else snd (bi_istput b s) = len s /\
       p b' = p b /\ size b' = size b /\ o b' = o b /\
       i b' = i b + len s /\
       input_bytes b' = input_bytes b ++ s /\
       output_bytes b' = output_bytes b /\
       wf b'.
Proof.
  intros Hwf b'. subst b'. unfold room.
  pose proof (len_nonneg s) as Hl.
  destruct (len s >? size b - i b - o b) eqn:Hfit.
  { unfold bi_istput. now rewrite Hfit. }
  set (b1 := set_data (set_i b (i b + len s))
               (istput_loop (size b) (data b) (b_tail b) s)).
  assert (Hrun : bi_istput b s = (b1, len s))
    by (unfold bi_istput; now rewrite Hfit).
  rewrite Hrun. cbn [fst snd].
  rewrite Z.gtb_ltb in Hfit. apply Z.ltb_ge in Hfit.
  destruct (input_append b b1 s (len s)) as (Hin & Hout & Hwf1);
    try reflexivity; try assumption; try (unfold room; lia).
  - intros a. subst b1. cbn [data set_data].
    unfold b_tail. rewrite b_ptr_fwd by (try assumption; destruct Hwf; lia).
    destruct Hwf as (Hi & Ho & Hio & Hp & Hps).
    apply istput_loop_put_at; [cmp_cases; lia | | lia].
    intros Hne.
    pose proof (len_pos s Hne).
    cmp_cases; lia.
  - rewrite firstn_len in Hin. repeat (split; [reflexivity|]).
    split; [exact Hin | split; [exact Hout | exact Hwf1]].
Qed.

(** A buffer whose output grew by the [r] first bytes of [blk], written at
    [p], which moved past them: the output reads back as the old output
    followed by these bytes. *)
Lemma output_append (b b' : buffer) (blk : list byte) (r : Z) :
  wf b ->
  p b' = b_ptr b r -> size b' = size b -> o b' = o b + r ->
  0 <= r <= size b - o b -> r <= len blk ->
  (forall a, data b' a = put_at (data b) (size b) (p b) blk r a) ->
  output_bytes b' = output_bytes b ++ firstn (Z.to_nat r) blk.
Proof.
  intros Hwf Hp' Hs' Ho' Hr Hrl Hd.
  pose proof Hwf as (Hi & Ho & Hio & Hp & Hps).
  rewrite b_ptr_fwd in Hp' by (try assumption; lia).
  unfold len in *.
  unfold output_bytes. rewrite Ho'.
  replace (Z.to_nat (o b + r)) with (Z.to_nat (o b) + Z.to_nat r)%nat by lia.
  rewrite map_seq_app. f_equal.
  - apply map_seq_ext. intros k Hk. unfold b_peek.
    replace (Z.of_nat k - o b) with (- (o b - Z.of_nat k)) by lia.
    rewrite Hd, (b_ptr_bwd b) by (try assumption; lia).
    unfold b_ptr. rewrite Hp', Hs'. unfold put_at.
    cmp_cases; try lia; try reflexivity; f_equal; lia.
  - rewrite <- (map_nth_seq blk (Z.to_nat r) x00) by lia.
    apply map_seq_ext. intros k Hk. unfold b_peek.
    rewrite Hd. unfold b_ptr. rewrite Hp', Hs'. unfold put_at.
    cmp_cases; try lia; try reflexivity; f_equal; lia.
Qed.

Lemma bo_istput_correct (b : buffer) (s : ist) :
  wf b ->
  let b' := fst (bo_istput b s) in
  if len s >? size b - o b
  then bo_istput b s = (b, if len s <? size b then 0 else -1)
  else snd (bo_istput b s) = len s /\
       p b' = b_ptr b (len s) /\ size b' = size b /\ i b' = i b /\
       o b' = o b + len s /\
       output_bytes b' = output_bytes b ++ s.
Proof.
  intros Hwf b'. subst b'.
  pose proof (len_nonneg s) as Hl.
  destruct (len s >? size b - o b) eqn:Hfit.
  { unfold bo_istput. now rewrite Hfit. }
  set (b1 := set_data (set_p (set_o b (o b + len s)) (b_ptr b (len s)))
               (istput_loop (size b) (data b) (p b) s)).
  assert (Hrun : bo_istput b s = (b1, len s))
    by (unfold bo_istput; now rewrite Hfit).
  rewrite Hrun. cbn [fst snd].
  rewrite Z.gtb_ltb in Hfit. apply Z.ltb_ge in Hfit.
  repeat (split; [reflexivity|]).
  rewrite <- (firstn_len s).
  apply output_append; try reflexivity; try assumption; try lia.
  intros a. subst b1. cbn [data set_data].
  destruct Hwf as (Hi & Ho & Hio & Hp & Hps).
  apply istput_loop_put_at; [lia | | lia].
  intros Hne.
  pose proof (len_pos s Hne).
  lia.
Qed.

Lemma isteq_loop_spec (b : buffer) (s : list byte) :
  forall pos : Z,
    0 <= pos <= size b -> (s <> [] -> pos < size b) -> len s <= size b ->
    isteq_loop b pos s = true <->
    map (fun k => data b (wrap (size b) (pos + Z.of_nat k)))
        (seq 0 (length s)) = s.
Proof.
  induction s as [|c s IH]; intros pos Hpos0 Hpos Hlen.
  - cbn. tauto.
  - specialize (Hpos ltac:(discriminate)).
    rewrite len_cons in Hlen. pose proof (len_nonneg s) as Hl.
    cbn [isteq_loop length seq map]. unfold b_end.
    replace (wrap (size b) (pos + Z.of_nat 0)) with pos
      by (unfold wrap; cmp_cases; lia).
    rewrite <- seq_shift, map_map.
    set (pos' := if pos + 1 =? size b then 0 else pos + 1).
    assert (Hext :
      map (fun k => data b (wrap (size b) (pos + Z.of_nat (S k))))
          (seq 0 (length s)) =
      map (fun k => data b (wrap (size b) (pos' + Z.of_nat k)))
          (seq 0 (length s))).
    { apply map_seq_ext. intros k Hk. f_equal. unfold len in *.
      subst pos'. unfold wrap. cmp_cases; lia. }
    rewrite Hext.
    destruct (Byte.eqb (data b pos) c) eqn:Hc.
    + apply Byte.byte_dec_bl in Hc. rewrite Hc.
      rewrite IH; [| subst pos'; cmp_cases; lia
                   | intros _; subst pos'; cmp_cases; lia | lia].
      split; [intros ->; reflexivity | intros H; now injection H].
    + split; [discriminate|]. intros H. injection H as H1 _.
      rewrite (Byte.byte_dec_lb H1) in Hc. discriminate.
Qed.

Lemma firstn_input_bytes (b : buffer) (n : nat) :
  wf b -> Z.of_nat n <= i b ->
  firstn n (input_bytes b) =
  map (fun k => data b (wrap (size b) (p b + Z.of_nat k))) (seq 0 n).
Proof.
  intros Hwf Hn. unfold input_bytes.
  rewrite firstn_map_seq by lia.
  apply map_seq_ext. intros k Hk. unfold b_peek.
  rewrite b_ptr_fwd by (try assumption; destruct Hwf; lia). reflexivity.
Qed.

Lemma b_isteq_input (b : buffer) (s : ist) :
  wf b ->
  (i b < len s -> b_isteq b 0 (i b) s = 0) /\
  (len s <= i b -> firstn (length s) (input_bytes b) = s ->
   b_isteq b 0 (i b) s = len s) /\
  (len s <= i b -> firstn (length s) (input_bytes b) <> s ->
   b_isteq b 0 (i b) s = -1).
Proof.
  intros Hwf. pose proof Hwf as (Hi & Ho & Hio & Hp & Hps).
  unfold b_isteq.
  replace (b_ptr b 0) with (p b) by (unfold b_ptr; cmp_cases; lia).
  split; [| split]; intros Hlen.
  - now rewrite (proj2 (Z.ltb_lt _ _) Hlen).
  - rewrite (proj2 (Z.ltb_ge _ _) Hlen).
    rewrite firstn_input_bytes by (assumption || (unfold len in Hlen; lia)).
    intros Heq. apply isteq_loop_spec in Heq; [now rewrite Heq | lia | | lia].
    intros Hne. pose proof (len_pos s Hne). lia.
  - rewrite (proj2 (Z.ltb_ge _ _) Hlen).
    rewrite firstn_input_bytes by (assumption || (unfold len in Hlen; lia)).
    intros Hneq. destruct (isteq_loop b (p b) s) eqn:Hloop; [| reflexivity].
    exfalso. apply Hneq. apply isteq_loop_spec; [lia | | lia | assumption].
    intros Hne. pose proof (len_pos s Hne). lia.
Qed.

(** [b_del] takes bytes off the front of the pending input. *)
Lemma b_del_input (b : buffer) (n : Z) :
  wf b -> 0 <= n <= i b ->
  let b' := b_del b n in
  input_bytes b' = skipn (Z.to_nat n) (input_bytes b) /\
  i b' = i b - n /\ o b' = o b /\ size b' = size b /\ wf b'.
Proof.
  intros Hwf Hn. pose proof Hwf as (Hi & Ho & Hio & Hp & Hps).
  assert (Hp' : p (b_del b n) = wrap (size b) (p b + n)).
  { unfold b_del. cbn [p set_p set_i].
    now rewrite b_ptr_fwd by (assumption || lia). }
  cbv zeta. split; [| split; [| split; [| split]]]; try reflexivity.
  - unfold input_bytes. cbn [i b_del set_i set_p].
    rewrite skipn_map, skipn_seq. cbn [Nat.add].
    replace (Z.to_nat (i b) - Z.to_nat n)%nat with (Z.to_nat (i b - n)) by lia.
    rewrite (map_seq_from _ (Z.to_nat n)).
    apply map_seq_ext. intros k Hk. unfold b_peek.
    change (data (b_del b n)) with (data b). f_equal.
    rewrite (b_ptr_fwd b) by (assumption || lia).
    unfold b_ptr. rewrite Hp'. change (size (b_del b n)) with (size b).
    unfold wrap. cmp_cases; lia.
  - unfold wf. rewrite Hp'. cbn [i o size b_del set_i set_p].
    unfold wrap. cmp_cases; lia.
Qed.

Lemma bo_putblk_fields (b : buffer) (blk : list byte) :
  wf b ->
  let r := Z.min (len blk) (room b) in
  let b' := fst (bo_putblk b blk (len blk)) in
  snd (bo_putblk b blk (len blk)) = r /\
  size b' = size b /\ i b' = i b /\ o b' = o b + r.
Proof.
  intros (Hi & Ho & Hio & Hp & Hps) r b'. subst r b'.
  pose proof (len_nonneg blk) as Hl.
  unfold bo_putblk, room, buffer_len.
  destruct (len blk >? size b - (i b + o b)) eqn:Hfit;
    rewrite Z.gtb_ltb in Hfit;
    [apply Z.ltb_lt in Hfit | apply Z.ltb_ge in Hfit].
  - replace (Z.min (len blk) (size b - i b - o b)) with (size b - (i b + o b))
      by lia.
    destruct (size b - (i b + o b) =? 0) eqn:Hz.
    + apply Z.eqb_eq in Hz. cbn [fst snd]. lia.
    + cbn [fst snd]. repeat split.
      destruct (_ >? _); reflexivity. destruct (_ >? _); reflexivity.
      destruct (_ >? _); reflexivity.
  - replace (Z.min (len blk) (size b - i b - o b)) with (len blk) by lia.
    destruct (len blk =? 0) eqn:Hz.
    + apply Z.eqb_eq in Hz. cbn [fst snd]. lia.
    + cbn [fst snd]. repeat split.
      destruct (_ >? _); reflexivity. destruct (_ >? _); reflexivity.
      destruct (_ >? _); reflexivity.
Qed.

(** Bytes written by a wrapping copy are found where [b_ptr] looks for
    them. *)
Lemma put_at_read (b : buffer) (m : Z -> byte) (blk : list byte) (r k : Z) :
  wf b -> 0 <= k < r -> r <= size b ->
  put_at m (size b) (p b) blk r (b_ptr b k) = nth (Z.to_nat k) blk x00.
Proof.
  intros Hwf Hk Hr. rewrite b_ptr_fwd by (assumption || lia).
  destruct Hwf as (Hi & Ho & Hio & Hp & Hps). unfold put_at.
  cmp_cases; try lia; f_equal; lia.
Qed.

(** On a buffer with no pending input, [bo_putblk] writes the bytes it
    accepts at [p] and after, wrapping. *)
Lemma bo_putblk_split (b : buffer) (blk : list byte) :
  wf b -> i b = 0 ->
  let r := Z.min (len blk) (room b) in
  exists pnew m,
    bo_putblk b blk (len blk) = (mkbuf pnew (size b) 0 (o b + r) m, r) /\
    forall a, m a = put_at (data b) (size b) (p b) blk r a.
Proof.
  intros Hwf Hi0 r.
  pose proof (len_nonneg blk) as Hl.
  pose proof (b_contig_space_eq b Hwf) as Hc.
  destruct Hwf as (Hi & Ho & Hio & Hp & Hps).
  unfold bo_putblk, buffer_len. fold r.
  replace (if len blk >? size b - (i b + o b)
           then size b - (i b + o b) else len blk) with r
    by (unfold r, room; cmp_cases; lia).
  destruct (Z.eqb_spec r 0) as [Hr0 | Hr0].
  { exists (p b), (data b). split.
    - destruct b; simpl in *. rewrite Hr0, Hi0. do 2 f_equal. lia.
    - intros a. unfold put_at. rewrite Hr0. cmp_cases; try lia; reflexivity. }
  assert (Hr : 0 < r <= room b) by (unfold r, room in *; lia).
  unfold room in *. rewrite Hi0 in *.
  set (half := if b_contig_space b >? r then r else b_contig_space b).
  destruct (Z_le_gt_dec r (b_contig_space b)) as [Hle | Hgt].
  - (* one copy *)
    assert (Hh : half = r) by (unfold half; cmp_cases; lia).
    rewrite Hh. rewrite (Z.gtb_ltb r r), Z.ltb_irrefl.
    eexists _, _. split.
    + unfold set_o, set_p, set_data. cbn [p size i o data]. rewrite Hi0.
      reflexivity.
    + intros a. unfold put_at, memcpy. cmp_cases; try lia; reflexivity.
  - (* two copies: the first one ends at the end of the region *)
    assert (Hh : half = size b - p b /\ half < r)
      by (unfold half; cmp_cases; lia).
    destruct Hh as (Hh & Hlt).
    rewrite (Z.gtb_ltb r half), (proj2 (Z.ltb_lt half r)) by lia.
    eexists _, _. split.
    + unfold set_o, set_p, set_data. cbn [p size i o data]. rewrite Hi0.
      reflexivity.
    + intros a. cbn [data set_data set_p p]. unfold put_at, memcpy.
      rewrite (b_ptr_ext b _ half) by reflexivity.
      rewrite (b_ptr_fwd b half) by (unfold wf; lia).
      rewrite Hh. cmp_lia.
      cmp_cases; rewrite ?nth_skipn; try lia; try reflexivity; f_equal; lia.
Qed.

Lemma bo_putblk_bytes (b : buffer) (blk : list byte) :
  wf b -> i b = 0 ->
  let r := Z.min (len blk) (room b) in
  map (fun k => data (fst (bo_putblk b blk (len blk))) (b_ptr b (Z.of_nat k)))
      (seq 0 (Z.to_nat r)) = firstn (Z.to_nat r) blk.
Proof.
  intros Hwf Hi0 r.
  destruct (bo_putblk_split b blk Hwf Hi0) as (pnew & m & Hrun & Hm).
  fold r in Hrun, Hm. rewrite Hrun. cbn [fst data].
  pose proof (len_nonneg blk) as Hl.
  assert (Hr : 0 <= r <= size b /\ r <= len blk)
    by (unfold r, room; destruct Hwf; lia).
  rewrite <- (map_nth_seq blk (Z.to_nat r) x00) by (unfold len in Hr; lia).
  apply map_seq_ext. intros k Hk.
  rewrite Hm, put_at_read by (assumption || lia).
  now rewrite Nat2Z.id.
Qed.

(** Whatever the number of times the input wraps, puts and consumptions on
    the input side that stay within the capacity read back as the same
    operations on a plain byte sequence. *)
Lemma bi_ops_read_back (ops : list bi_op) :
  forall b : buffer,
    wf b -> fits (size b - o b) (input_bytes b) ops ->
    input_bytes (fold_left bi_apply ops b) =
      fold_left seq_apply ops (input_bytes b) /\
    wf (fold_left bi_apply ops b).
Proof.
  induction ops as [|op ops IH]; intros b Hwf Hfits; cbn [fold_left].
  - split; [reflexivity | exact Hwf].
  - destruct Hfits as (Hop & Hrest).
    assert (Hlen : len (input_bytes b) = i b).
    { unfold len. rewrite input_bytes_length. destruct Hwf. lia. }
    assert (Hstep : input_bytes (bi_apply b op) = seq_apply (input_bytes b) op
                    /\ wf (bi_apply b op)
                    /\ size (bi_apply b op) - o (bi_apply b op)
                       = size b - o b).
    { destruct op as [blk | n]; cbn [bi_apply seq_apply].
      - destruct (bi_putblk_correct b blk Hwf)
          as (_ & _ & Hs & _ & Ho & Hin & _ & Hwf').
        replace (Z.min (len blk) (room b)) with (len blk) in Hin
          by (unfold room; lia).
        rewrite firstn_len in Hin. rewrite Hs, Ho. auto.
      - destruct (b_del_input b n Hwf) as (Hin & _ & Ho & Hs & Hwf');
          [lia|].
        rewrite Hs, Ho. auto. }
    destruct Hstep as (Hin & Hwf' & Hcap).
    rewrite <- Hin. apply IH; [exact Hwf'|].
    rewrite Hcap, Hin. exact Hrest.
Qed.

(** C1 (the code departs from the claim).  [bo_putblk] on an empty 8-byte
    buffer whose pointer is at offset 6, given the 5 bytes "ABCDE": the copy
    is split 2 + 3 across the end of the region and 5 is returned, but the
    pointer ends at offset 2 where 5 bytes past offset 6 is offset 3, and the
    5 bytes of pending output read back as a stale byte followed by "ABCD". *)
Theorem bo_putblk_split_pointer :
  wf buf_6_of_8 /\
  snd (bo_putblk buf_6_of_8 blk_ABCDE 5) = 5 /\
  o (fst (bo_putblk buf_6_of_8 blk_ABCDE 5)) = 5 /\
  b_ptr buf_6_of_8 5 = 3 /\
  p (fst (bo_putblk buf_6_of_8 blk_ABCDE 5)) = 2 /\
  output_bytes (fst (bo_putblk buf_6_of_8 blk_ABCDE 5)) =
    [x00; x41; x42; x43; x44] /\
  output_bytes (fst (bo_putblk buf_6_of_8 blk_ABCDE 5)) <> blk_ABCDE.
Proof.
  split; [unfold wf; cbn; lia|].
  repeat (split; [vm_compute; reflexivity|]).
  vm_compute. discriminate.
Qed.

(** On a buffer with no pending input, [p] follows the bytes that
    [bo_putblk] accepts when they end at or before the end of the region. *)
Lemma bo_putblk_p_fit (b : buffer) (blk : list byte) :
  wf b -> i b = 0 ->
  let r := Z.min (len blk) (room b) in
  0 < r -> p b + r <= size b ->
  p (fst (bo_putblk b blk (len blk))) = b_ptr b r.
Proof.
  intros Hwf Hi0 r Hr0 Hfit.
  pose proof (len_nonneg blk) as Hl.
  pose proof (b_contig_space_eq b Hwf) as Hc.
  pose proof Hwf as (Hi & Ho & Hio & Hp & Hps).
  unfold bo_putblk, buffer_len. fold r.
  replace (if len blk >? size b - (i b + o b)
           then size b - (i b + o b) else len blk) with r
    by (unfold r, room; cmp_cases; lia).
  replace (r =? 0) with false by (symmetry; apply Z.eqb_neq; lia).
  assert (Hr : 0 < r <= room b) by (unfold r, room in *; lia).
  unfold room in *. rewrite Hi0 in *.
  set (half := if b_contig_space b >? r then r else b_contig_space b).
  assert (Hh : half = r) by (unfold half; revert Hc; cmp_cases; lia).
  rewrite Hh, (Z.gtb_ltb r r), Z.ltb_irrefl.
  cbn [fst p set_o set_p]. apply b_ptr_ext; reflexivity.
Qed.

(** An address that a wrapping copy of [r] bytes from [p] leaves alone
    keeps its byte. *)
Lemma put_at_elsewhere (b : buffer) (m : Z -> byte) (blk : list byte)
  (r a : Z) :
  wf b -> 0 <= r <= size b ->
  (forall k, 0 <= k < r -> a <> b_ptr b k) ->
  put_at m (size b) (p b) blk r a = m a.
Proof.
  intros Hwf Hr Hout. pose proof Hwf as (Hi & Ho & Hio & Hp & Hps).
  unfold put_at.
  destruct ((p b <=? a) && (a <? p b + r) && (a <? size b)) eqn:H1.
  - exfalso. apply (Hout (a - p b)).
    + revert H1. cmp_cases; intros; try discriminate; lia.
    + rewrite b_ptr_fwd by (assumption || (revert H1; cmp_cases;
                                           intros; try discriminate; lia)).
      revert H1. cmp_cases; intros; try discriminate; lia.
  - destruct ((0 <=? a) && (a <? p b + r - size b)) eqn:H2;
      [| reflexivity].
    exfalso. apply (Hout (a - p b + size b)).
    + revert H2. cmp_cases; intros; try discriminate; lia.
    + rewrite b_ptr_fwd by (assumption || (revert H2; cmp_cases;
                                           intros; try discriminate; lia)).
      revert H2. cmp_cases; intros; try discriminate; lia.
Qed.

(** C2 as the claim states it does not hold of [bo_putblk] on every
    buffer: on an 8-byte buffer with 2 bytes of pending input, 1 byte of
    output and [p] at offset 6, a block of 10 bytes is cut to the 5 bytes
    of room and 5 is returned, but the copy starts at [p], over the pending
    input, and goes on past the end of the region, to offsets 8, 9 and 10;
    the rest of the region is as it was, and of the 5 bytes only 2 are
    found in the 6 bytes of pending output. *)
Lemma bo_putblk_pending_input_overrun :
  wf buf_busy /\ size buf_busy = 8 /\ room buf_busy = 5 /\
  input_bytes buf_busy = [x2e; x2e] /\
  snd (bo_putblk buf_busy (blk_ABCDE ++ blk_ABCDE) 10) = 5 /\
  map (data (fst (bo_putblk buf_busy (blk_ABCDE ++ blk_ABCDE) 10)))
    [0; 1; 2; 3; 4; 5; 6; 7; 8; 9; 10]
  = [x2e; x2e; x2e; x2e; x2e; x2e; x41; x42; x43; x44; x45] /\
  output_bytes (fst (bo_putblk buf_busy (blk_ABCDE ++ blk_ABCDE) 10))
  = [x2e; x41; x42; x2e; x2e; x2e].
Proof.
  split; [unfold wf; cbn; lia|].
  repeat (split; [vm_compute; reflexivity|]).
  vm_compute. reflexivity.
Qed.

(** C2, amended.  On a well-formed buffer with [K] bytes of room, a block of
    more than [K] bytes is cut to [K] bytes by both [bi_putblk] and
    [bo_putblk]: [K] is returned (never a negative value), the pending
    length grows by exactly [K], and [i + o <= size] still holds.  After
    [bi_putblk] the input reads back as the old input followed by the [K]
    first bytes of the block and the output is untouched.  After
    [bo_putblk] on a buffer without pending input, the [K] positions that
    followed [p], all inside the region, hold the [K] first bytes of the
    block and no other byte of memory has changed; when these positions do
    not cross the end of the region, [p] has moved past them, the buffer is
    well formed and its output reads back as the old output followed by
    these [K] bytes.  With no room at all both return 0 and leave the
    buffer as it was. *)
Theorem putblk_truncates (b : buffer) (blk : list byte) :
  wf b -> room b < len blk ->
  (snd (bi_putblk b blk (len blk)) = room b /\
   0 <= snd (bi_putblk b blk (len blk)) /\
   i (fst (bi_putblk b blk (len blk))) = i b + room b /\
   o (fst (bi_putblk b blk (len blk))) = o b /\
   buffer_len (fst (bi_putblk b blk (len blk))) <=
     size (fst (bi_putblk b blk (len blk))) /\
   input_bytes (fst (bi_putblk b blk (len blk))) =
     input_bytes b ++ firstn (Z.to_nat (room b)) blk /\
   output_bytes (fst (bi_putblk b blk (len blk))) = output_bytes b /\
   wf (fst (bi_putblk b blk (len blk)))) /\
  (snd (bo_putblk b blk (len blk)) = room b /\
   0 <= snd (bo_putblk b blk (len blk)) /\
   o (fst (bo_putblk b blk (len blk))) = o b + room b /\
   i (fst (bo_putblk b blk (len blk))) = i b /\
   buffer_len (fst (bo_putblk b blk (len blk))) <=
     size (fst (bo_putblk b blk (len blk))) /\
   (i b = 0 ->
    map (fun k => data (fst (bo_putblk b blk (len blk)))
                    (b_ptr b (Z.of_nat k)))
        (seq 0 (Z.to_nat (room b))) = firstn (Z.to_nat (room b)) blk /\
    (forall k, 0 <= k < room b ->
       0 <= b_ptr b k < size b /\
       data (fst (bo_putblk b blk (len blk))) (b_ptr b k)
       = nth (Z.to_nat k) blk x00) /\
    (forall a, (forall k, 0 <= k < room b -> a <> b_ptr b k) ->
       data (fst (bo_putblk b blk (len blk))) a = data b a) /\
    (p b + room b <= size b ->
     p (fst (bo_putblk b blk (len blk))) = b_ptr b (room b) /\
     wf (fst (bo_putblk b blk (len blk))) /\
     output_bytes (fst (bo_putblk b blk (len blk)))
     = output_bytes b ++ firstn (Z.to_nat (room b)) blk))) /\
  (room b = 0 ->
   bi_putblk b blk (len blk) = (b, 0) /\ bo_putblk b blk (len blk) = (b, 0)).
Proof.
  intros Hwf Hlt.
  assert (Hmin : Z.min (len blk) (room b) = room b) by lia.
  assert (Hroom : 0 <= room b) by (unfold room; destruct Hwf; lia).
  destruct (bi_putblk_correct b blk Hwf)
    as (Hr & Hp & Hs & Hi & Ho & Hin & Hout & Hwf').
  destruct (bo_putblk_fields b blk Hwf) as (Hr2 & Hs2 & Hi2 & Ho2).
  rewrite Hmin in *.
  assert (Hzero : room b = 0 ->
            bi_putblk b blk (len blk) = (b, 0) /\
            bo_putblk b blk (len blk) = (b, 0)).
  { intros Hz. unfold bi_putblk, bo_putblk, buffer_len. unfold room in *.
    replace (len blk >? size b - (i b + o b)) with true
      by (symmetry; rewrite Z.gtb_ltb; apply Z.ltb_lt; lia).
    replace (size b - (i b + o b) =? 0) with true
      by (symmetry; apply Z.eqb_eq; lia).
    split; reflexivity. }
  split; [| split].
  - unfold buffer_len. rewrite Hr, Hi, Ho, Hs.
    do 7 (split; [assumption || reflexivity || (unfold room; lia)|]).
    exact Hwf'.
  - unfold buffer_len. rewrite Hr2, Hi2, Ho2, Hs2.
    do 5 (split; [try assumption; try reflexivity; unfold room; lia|]).
    intros Hi0. pose proof (bo_putblk_bytes b blk Hwf Hi0) as Hbytes.
    cbv zeta in Hbytes. rewrite Hmin in Hbytes.
    split; [exact Hbytes|].
    pose proof Hwf as (Hwi & Hwo & Hwio & Hwp & Hwps).
    assert (Hrs : room b <= size b) by (unfold room; lia).
    destruct (Z.eq_dec (room b) 0) as [Hz | Hnz].
    { destruct (Hzero Hz) as (_ & Hbo). rewrite Hbo, Hz. cbn [fst].
      split; [intros k Hk; lia|]. split; [reflexivity|].
      intros _.
      replace (b_ptr b 0) with (p b)
        by (unfold b_ptr; cmp_cases; lia).
      split; [reflexivity|]. split; [exact Hwf|].
      cbn [Z.to_nat firstn]. now rewrite app_nil_r. }
    pose proof (bo_putblk_p_fit b blk Hwf Hi0) as Hpfit.
    destruct (bo_putblk_split b blk Hwf Hi0) as (pnew & m & Hrun & Hm).
    cbv zeta in Hpfit. rewrite Hmin in Hrun, Hm, Hpfit.
    rewrite Hrun in Hpfit |- *. cbn [fst data p] in Hpfit |- *.
    split; [| split].
    + intros k Hk. split.
      * rewrite b_ptr_fwd by (assumption || lia). cmp_cases; lia.
      * rewrite Hm. apply put_at_read; (assumption || lia).
    + intros a Ha. rewrite Hm.
      apply put_at_elsewhere; (assumption || lia).
    + intros Hfit. specialize (Hpfit ltac:(lia) Hfit).
      split; [exact Hpfit|].
      assert (Hin_region : 0 <= b_ptr b (room b) < size b).
      { rewrite b_ptr_fwd by (assumption || lia). cmp_cases; lia. }
      split.
      * unfold wf. cbn [i o size p]. rewrite Hpfit. unfold room in *. lia.
      * apply (output_append b _ blk (room b) Hwf); try reflexivity;
          try exact Hpfit; try (unfold room in *; lia).
        intros a. cbn [data]. apply Hm.
  - exact Hzero.
Qed.

Lemma putblk_truncates_witness :
  (snd (bi_putblk buf_busy (blk_ABCDE ++ blk_ABCDE) 10) = 5 /\
   input_bytes (fst (bi_putblk buf_busy (blk_ABCDE ++ blk_ABCDE) 10))
   = [x2e; x2e; x41; x42; x43; x44; x45]) /\
  (snd (bo_putblk buf_out5 blk_ABCDE 5) = 3 /\
   output_bytes (fst (bo_putblk buf_out5 blk_ABCDE 5))
   = [x2e; x2e; x2e; x2e; x2e; x41; x42; x43]) /\
  (snd (bo_putblk buf_6_of_8 (blk_ABCDE ++ blk_ABCDE) 10) = 8 /\
   map (fun k => data (fst (bo_putblk buf_6_of_8 (blk_ABCDE ++ blk_ABCDE)
                              10)) (b_ptr buf_6_of_8 (Z.of_nat k)))
     (seq 0 8)
   = [x41; x42; x43; x44; x45; x41; x42; x43]).
Proof.
  assert (Hwf1 : wf buf_busy) by (unfold wf; cbn; lia).
  assert (Hwf2 : wf buf_out5) by (unfold wf; cbn; lia).
  assert (Hwf3 : wf buf_6_of_8) by (unfold wf; cbn; lia).
  pose proof (putblk_truncates buf_busy (blk_ABCDE ++ blk_ABCDE) Hwf1
                ltac:(vm_compute; reflexivity)) as ((Hr1 & _ & _ & _ & _
                                                     & Hin1 & _) & _ & _).
  pose proof (putblk_truncates buf_out5 blk_ABCDE Hwf2
                ltac:(vm_compute; reflexivity)) as (_ & (Hr2 & _ & _ & _ & _
                                                         & Hb2) & _).
  pose proof (putblk_truncates buf_6_of_8 (blk_ABCDE ++ blk_ABCDE) Hwf3
                ltac:(vm_compute; reflexivity)) as (_ & (Hr3 & _ & _ & _ & _
                                                         & Hb3) & _).
  destruct (Hb2 eq_refl) as (_ & _ & _ & Hfit2).
  destruct (Hfit2 ltac:(vm_compute; discriminate)) as (_ & _ & Hout2).
  destruct (Hb3 eq_refl) as (Hmap3 & _).
  split; [| split].
  - split; [exact Hr1 | exact Hin1].
  - split; [exact Hr2 | exact Hout2].
  - split; [exact Hr3 | exact Hmap3].
Defined.

(** C8.  On a well-formed buffer, matching a needle against the pending
    input returns 0 when fewer bytes are pending than the needle holds, -1
    when enough are pending and the first of them differ from the needle, and
    the needle's length when they are the needle, whether or not they wrap;
    [bi_eat] returns the same value, leaves the buffer as it was when that
    value is not positive, and otherwise takes exactly the needle off the
    front of the pending input. *)
Theorem b_isteq_bi_eat (b : buffer) (s : ist) :
  wf b ->
  (i b < len s -> b_isteq b 0 (i b) s = 0) /\
  (len s <= i b -> firstn (length s) (input_bytes b) <> s ->
   b_isteq b 0 (i b) s = -1) /\
  (len s <= i b -> firstn (length s) (input_bytes b) = s ->
   b_isteq b 0 (i b) s = len s) /\
  snd (bi_eat b s) = b_isteq b 0 (i b) s /\
  (snd (bi_eat b s) <= 0 -> fst (bi_eat b s) = b) /\
  (0 < snd (bi_eat b s) ->
   snd (bi_eat b s) = len s /\
   input_bytes b = s ++ input_bytes (fst (bi_eat b s)) /\
   i (fst (bi_eat b s)) = i b - len s /\
   o (fst (bi_eat b s)) = o b /\
   wf (fst (bi_eat b s))).
Proof.
  intros Hwf.
  destruct (b_isteq_input b s Hwf) as (Hshort & Hmatch & Hdiff).
  pose proof (len_nonneg s) as Hl.
  split; [exact Hshort|]. split; [exact Hdiff|]. split; [exact Hmatch|].
  assert (Hsnd : snd (bi_eat b s) = b_isteq b 0 (i b) s).
  { unfold bi_eat. destruct (_ >? 0); reflexivity. }
  split; [exact Hsnd|]. rewrite Hsnd. split.
  - intros Hle. unfold bi_eat.
    replace (b_isteq b 0 (i b) s >? 0) with false; [reflexivity|].
    symmetry. rewrite Z.gtb_ltb. apply Z.ltb_ge. exact Hle.
  - intros Hpos.
    destruct (Z_lt_le_dec (i b) (len s)) as [Hlt | Hge];
      [rewrite (Hshort Hlt) in Hpos; lia|].
    destruct (list_eq_dec Byte.byte_eq_dec
                (firstn (length s) (input_bytes b)) s) as [Heq | Hne];
      [| rewrite (Hdiff Hge Hne) in Hpos; lia].
    assert (Hret : b_isteq b 0 (i b) s = len s) by exact (Hmatch Hge Heq).
    assert (Hrun : bi_eat b s = (b_del b (len s), len s)).
    { unfold bi_eat. rewrite Hret.
      replace (len s >? 0) with true; [reflexivity|].
      symmetry. rewrite Z.gtb_ltb. apply Z.ltb_lt. lia. }
    rewrite Hrun. cbn [fst].
    destruct (b_del_input b (len s) Hwf) as (Hin & Hi & Ho & _ & Hwf');
      [lia|].
    split; [exact Hret|].
    split; [| split; [exact Hi | split; [exact Ho | exact Hwf']]].
    rewrite Hin. unfold len. rewrite Nat2Z.id.
    rewrite <- (firstn_skipn (length s) (input_bytes b)) at 1.
    now rewrite Heq.
Qed.

Lemma b_isteq_bi_eat_witness :
  b_isteq buf_wrapped 0 (i buf_wrapped) [x41; x42; x43] = 3 /\
  input_bytes (fst (bi_eat buf_wrapped [x41; x42; x43])) = [x44; x45].
Proof.
  assert (Hwf : wf buf_wrapped) by (unfold wf; cbn; lia).
  pose proof (b_isteq_bi_eat buf_wrapped [x41; x42; x43] Hwf)
    as (_ & _ & Hm & _ & _ & _).
  split.
  - apply Hm; [vm_compute; discriminate | vm_compute; reflexivity].
  - vm_compute. reflexivity.
Defined.

(** C10.  On a well-formed buffer, [bi_istput] and [bo_istput] return 0 or
    -1 only with the buffer exactly as it was; a positive return is the
    length of the string, whose bytes were then appended, in order and across
    the end of the region if need be, to the pending input (respectively
    output), the other cursor fields being unchanged. *)
Theorem istput_all_or_nothing (b : buffer) (s : ist) :
  wf b ->
  ((snd (bi_istput b s) = 0 \/ snd (bi_istput b s) = -1 ->
    fst (bi_istput b s) = b) /\
   (0 < snd (bi_istput b s) ->
    snd (bi_istput b s) = len s /\
    input_bytes (fst (bi_istput b s)) = input_bytes b ++ s /\
    output_bytes (fst (bi_istput b s)) = output_bytes b /\
    i (fst (bi_istput b s)) = i b + len s /\
    o (fst (bi_istput b s)) = o b /\
    p (fst (bi_istput b s)) = p b /\
    size (fst (bi_istput b s)) = size b)) /\
  ((snd (bo_istput b s) = 0 \/ snd (bo_istput b s) = -1 ->
    fst (bo_istput b s) = b) /\
   (0 < snd (bo_istput b s) ->
    snd (bo_istput b s) = len s /\
    output_bytes (fst (bo_istput b s)) = output_bytes b ++ s /\
    o (fst (bo_istput b s)) = o b + len s /\
    i (fst (bo_istput b s)) = i b /\
    p (fst (bo_istput b s)) = b_ptr b (len s) /\
    size (fst (bo_istput b s)) = size b)).
Proof.
  intros Hwf. pose proof (len_nonneg s) as Hl.
  assert (Hnil : len s = 0 -> s = [])
    by (destruct s; [reflexivity |];
        rewrite len_cons; pose proof (len_nonneg s); lia).
  split.
  - pose proof (bi_istput_correct b s Hwf) as H. cbv zeta in H.
    destruct (len s >? room b) eqn:Hfit.
    + rewrite H. cbn [fst snd]. split; [reflexivity|].
      destruct (len s <? size b); intros Hc; exfalso; lia.
    + destruct H as (Hr & Hp & Hs & Ho & Hi & Hin & Hout & _).
      rewrite Hr. split.
      * intros [Hz | Hz]; [| lia]. apply Hnil in Hz. subst s.
        unfold bi_istput. unfold room in Hfit. rewrite Hfit.
        change (len []) with 0. rewrite Z.add_0_r.
        destruct b; reflexivity.
      * intros _. repeat split; assumption.
  - pose proof (bo_istput_correct b s Hwf) as H. cbv zeta in H.
    destruct (len s >? size b - o b) eqn:Hfit.
    + rewrite H. cbn [fst snd]. split; [reflexivity|].
      destruct (len s <? size b); intros Hc; exfalso; lia.
    + destruct H as (Hr & Hp & Hs & Hi & Ho & Hout).
      rewrite Hr. split.
      * intros [Hz | Hz]; [| lia]. apply Hnil in Hz. subst s.
        unfold bo_istput. rewrite Hfit.
        change (len []) with 0. rewrite Z.add_0_r.
        replace (b_ptr (set_o b (o b)) 0) with (p b)
          by (unfold b_ptr; cbn [p size set_o]; cmp_cases; lia).
        destruct b; reflexivity.
      * intros _. repeat split; assumption.
Qed.

Lemma istput_all_or_nothing_witness :
  input_bytes (fst (bi_istput buf_6_of_8 blk_ABCDE)) = blk_ABCDE /\
  output_bytes (fst (bo_istput buf_6_of_8 blk_ABCDE)) = blk_ABCDE.
Proof.
  assert (Hwf : wf buf_6_of_8) by (unfold wf; cbn; lia).
  pose proof (istput_all_or_nothing buf_6_of_8 blk_ABCDE Hwf)
    as ((_ & Hi) & (_ & Ho)).
  split.
  - apply Hi. vm_compute. reflexivity.
  - apply Ho. vm_compute. reflexivity.
Defined.

End BufferFacts.

(* ------------------------------------------------------------------ *)
(** ** The pooled allocator                                            *)
(* ------------------------------------------------------------------ *)

Section PoolFacts.

Import Pool.

Lemma uint_small (x : Z) : 0 <= x < 2 ^ 32 -> uint x = x.
Proof. intros H. unfold uint. now apply Z.mod_small. Qed.

Lemma uint_neg (x : Z) : - 2 ^ 32 <= x < 0 -> uint x = x + 2 ^ 32.
Proof.
  intros H. unfold uint.
  symmetry. apply (Z.mod_unique_pos x (2 ^ 32) (-1)); lia.
Qed.

(** The unsigned test of the fast path, read on the integers. *)
Lemma margin_test_true (ph : pool_head) (margin : Z) :
  pool_ok ph -> - 2 ^ 31 <= margin < 2 ^ 31 ->
  (uint (allocated ph - used ph) >? uint margin) = true ->
  margin < allocated ph - used ph /\ 0 < allocated ph - used ph.
Proof.
  intros (Hu & Hua & Ha & _) Hm Ht.
  rewrite Z.gtb_ltb in Ht. apply Z.ltb_lt in Ht.
  rewrite (uint_small (allocated ph - used ph)) in Ht by lia.
  destruct (Z_lt_le_dec margin 0) as [Hneg | Hpos].
  - rewrite uint_neg in Ht by lia. lia.
  - rewrite uint_small in Ht by lia. lia.
Qed.

Lemma margin_test_false (ph : pool_head) (margin : Z) :
  pool_ok ph -> allocated ph - used ph <= margin < 2 ^ 31 ->
  (uint (allocated ph - used ph) >? uint margin) = false.
Proof.
  intros (Hu & Hua & Ha & _) Hm.
  rewrite Z.gtb_ltb. apply Z.ltb_ge.
  rewrite !uint_small by lia. lia.
Qed.

(** The slow path never grows the pool past its limit. *)
Lemma refill_loop_bound (h : list Z) :
  forall (stop : Z) (ph : pool_head),
    limit ph <> 0 -> allocated ph <= limit ph ->
    let ph' := snd (fst (refill_loop h stop ph)) in
    allocated ph' <= limit ph' /\ limit ph' = limit ph.
Proof.
  induction h as [|a h IH]; intros stop ph Hl Ha; cbn [refill_loop].
  - destruct (negb (limit ph =? 0) && (limit ph <=? allocated ph));
      cbn; lia.
  - destruct (negb (limit ph =? 0) && (limit ph <=? allocated ph)) eqn:Hlim;
      [cbn; lia|].
    assert (Hlt : allocated ph < limit ph).
    { apply andb_false_iff in Hlim. destruct Hlim as [Hz | Hle].
      - apply negb_false_iff, Z.eqb_eq in Hz. contradiction.
      - apply Z.leb_gt in Hle. exact Hle. }
    destruct (allocated ph + 1 >? stop).
    + cbn. lia.
    + specialize (IH stop (mkpool (a :: free_list ph) (allocated ph + 1)
                             (used ph) (limit ph) (size ph))).
      cbn [limit allocated] in IH. apply IH; lia.
Qed.

Ltac pool_run :=
  cbv beta iota zeta delta
    [b_alloc_margin b_alloc b_alloc_fast pool_alloc_dirty pool_get_first
     bind ret get_buf buf_size get_pool set_pool set_buf emit
     HA_SPIN_LOCK HA_SPIN_UNLOCK __pool_get_first __pool_refill_alloc
     buf_setup pool_head_buffer heap buffers buf trace free_list allocated
     used limit size CONFIG_HAP_LOCKLESS_POOLS sizeof_struct_buffer
     fst snd negb lock_of unlock_of handed].

Lemma b_alloc_margin_held (cfg : config) (margin : Z) (s : state) :
  fst (buf_size (buf s) s) <> 0 ->
  b_alloc_margin cfg margin s = (Some (buf s), s).
Proof.
  intros Hsz. destruct s as [ph h bufs cur tr].
  apply Z.eqb_neq in Hsz. revert Hsz. pool_run. intros ->. reflexivity.
Qed.

Lemma b_alloc_margin_fast (cfg : config) (margin : Z) (s : state)
      (a : Z) (l : list Z) :
  fst (buf_size (buf s) s) = 0 ->
  (uint (allocated (pool_head_buffer s) - used (pool_head_buffer s))
     >? uint margin) = true ->
  free_list (pool_head_buffer s) = a :: l ->
  b_alloc_margin cfg margin s =
  (Some (buf_at a),
   handed cfg s
     (mkpool l (allocated (pool_head_buffer s))
        (used (pool_head_buffer s) + 1) (limit (pool_head_buffer s))
        (size (pool_head_buffer s)))
     (heap s) a
     (lock_of cfg ++ [EvMargin true; EvPop (Some a)] ++ unlock_of cfg)).
Proof.
  destruct s as [[fl al us li sz] h bufs cur tr], cfg as [[|] ssb].
  all: pool_run; intros ->; change (0 =? 0) with true; pool_run;
    intros -> ->; pool_run; rewrite <- ?app_assoc; reflexivity.
Qed.

Lemma b_alloc_margin_slow (cfg : config) (margin : Z) (s : state) :
  fst (buf_size (buf s) s) = 0 ->
  (uint (allocated (pool_head_buffer s) - used (pool_head_buffer s))
     >? uint margin) = false ->
  b_alloc_margin cfg margin s =
  let '(r, ph', h') :=
    refill_loop (heap s) (margin + used (pool_head_buffer s))
      (pool_head_buffer s) in
  let t := lock_of cfg ++ [EvMargin false; EvRefill r] ++ unlock_of cfg in
  match r with
  | Some a => (Some (buf_at a), handed cfg s ph' h' a t)
  | None => (None, mkstate ph' h' (buffers s) buf_wanted (trace s ++ t))
  end.
Proof.
  destruct s as [[fl al us li sz] h bufs cur tr], cfg as [[|] ssb].
  all: pool_run; intros ->; change (0 =? 0) with true; pool_run;
    intros ->; pool_run;
    destruct (refill_loop _ _ _) as [[[a|] ph'] h'];
    pool_run; rewrite <- ?app_assoc; reflexivity.
Qed.

(** The fast path when the margin test passes on an empty free list: the
    pop gives nothing and the slow path decides. *)
Lemma b_alloc_margin_empty (cfg : config) (margin : Z) (s : state) :
  fst (buf_size (buf s) s) = 0 ->
  (uint (allocated (pool_head_buffer s) - used (pool_head_buffer s))
     >? uint margin) = true ->
  free_list (pool_head_buffer s) = [] ->
  b_alloc_margin cfg margin s =
  let '(r, ph', h') :=
    refill_loop (heap s) (margin + used (pool_head_buffer s))
      (pool_head_buffer s) in
  let t := lock_of cfg ++ [EvMargin true; EvPop None; EvRefill r]
             ++ unlock_of cfg in
  match r with
  | Some a => (Some (buf_at a), handed cfg s ph' h' a t)
  | None => (None, mkstate ph' h' (buffers s) buf_wanted (trace s ++ t))
  end.
Proof.
  destruct s as [[fl al us li sz] h bufs cur tr], cfg as [[|] ssb].
  all: pool_run; intros ->; change (0 =? 0) with true; pool_run;
    intros -> ->; pool_run;
    destruct (refill_loop _ _ _) as [[[a|] ph'] h'];
    pool_run; rewrite <- ?app_assoc; reflexivity.
Qed.

(** The events of one call, when no buffer is held: the margin test, then
    the pop if the test passed, then the slow path unless the pop gave a
    buffer, with the lock taken before and released after in the builds
    that have pool locks. *)
Lemma b_alloc_margin_events (cfg : config) (margin : Z) (s : state) :
  fst (buf_size (buf s) s) = 0 ->
  exists mid,
    trace (snd (b_alloc_margin cfg margin s))
      = trace s ++ lock_of cfg ++ mid ++ unlock_of cfg /\
    ((exists a, mid = [EvMargin true; EvPop (Some a)]) \/
     (exists r, mid = [EvMargin true; EvPop None; EvRefill r]) \/
     (exists r, mid = [EvMargin false; EvRefill r])).
Proof.
  intros Hsz.
  destruct (uint (allocated (pool_head_buffer s) - used (pool_head_buffer s))
              >? uint margin) eqn:Htest.
  - destruct (free_list (pool_head_buffer s)) as [|a l] eqn:Hfl.
    + rewrite (b_alloc_margin_empty cfg margin s Hsz Htest Hfl).
      destruct (refill_loop _ _ _) as [[r ph'] h'].
      exists [EvMargin true; EvPop None; EvRefill r].
      split; [destruct r; reflexivity | right; left; now exists r].
    + rewrite (b_alloc_margin_fast cfg margin s a l Hsz Htest Hfl).
      exists [EvMargin true; EvPop (Some a)].
      split; [reflexivity | left; now exists a].
  - rewrite (b_alloc_margin_slow cfg margin s Hsz Htest).
    destruct (refill_loop _ _ _) as [[r ph'] h'].
    exists [EvMargin false; EvRefill r].
    split; [destruct r; reflexivity | right; right; now exists r].
Qed.

(** C3 as the claim states it does not hold in every build: with
    CONFIG_HAP_LOCKLESS_POOLS defined, [b_alloc_margin] tests the margin and
    pops the free list without taking the pool lock at all. *)
Lemma b_alloc_margin_lockless_no_section :
  fst (b_alloc_margin cfg_lockless 1 pool4) = Some (buf_at 100) /\
  trace (snd (b_alloc_margin cfg_lockless 1 pool4)) =
    [EvMargin true; EvPop (Some 100)] /\
  ~ In EvLock (trace (snd (b_alloc_margin cfg_lockless 1 pool4))).
Proof.
  split; [vm_compute; reflexivity|].
  split; [vm_compute; reflexivity|].
  vm_compute. intros [H | [H | []]]; discriminate H.
Qed.

(** C3, amended.  When [*buf] holds no buffer, [b_alloc_margin] pops the
    free list only if [allocated - used > margin] held before the pop, and
    [allocated - used >= margin] holds after it; when the test fails nothing
    is popped and the slow path runs, which never takes the pool past its
    limit.  In a build without CONFIG_HAP_LOCKLESS_POOLS the events of the
    call are one critical section: the lock is taken first and released
    last, and neither is done in between, where the margin test, the pop
    and the slow path take place.  In a build with CONFIG_HAP_LOCKLESS_POOLS
    the function never takes nor releases the pool lock.  When [*buf] holds
    a buffer the pool is not accessed at all. *)
Theorem b_alloc_margin_keeps_margin
  (cfg : config) (margin : Z) (s : state) :
  exists t : list event,
    trace (snd (b_alloc_margin cfg margin s)) = trace s ++ t /\
    (pool_ok (pool_head_buffer s) ->
     - 2 ^ 31 <= margin < 2 ^ 31 ->
     fst (buf_size (buf s) s) = 0 ->
     (forall a, In (EvPop (Some a)) t ->
        margin < allocated (pool_head_buffer s) - used (pool_head_buffer s) /\
        margin <=
          allocated (pool_head_buffer (snd (b_alloc_margin cfg margin s)))
          - used (pool_head_buffer (snd (b_alloc_margin cfg margin s))) /\
        fst (b_alloc_margin cfg margin s) = Some (buf_at a)) /\
     (allocated (pool_head_buffer s) - used (pool_head_buffer s) <= margin ->
        (forall r, ~ In (EvPop r) t) /\
        In (EvRefill (option_map
                        (fun b => match b with buf_at a => a | _ => 0 end)
                        (fst (b_alloc_margin cfg margin s)))) t /\
        (limit (pool_head_buffer s) <> 0 ->
         allocated (pool_head_buffer s) <= limit (pool_head_buffer s) ->
         allocated (pool_head_buffer (snd (b_alloc_margin cfg margin s)))
           <= limit (pool_head_buffer s)))) /\
    (fst (buf_size (buf s) s) = 0 ->
     CONFIG_HAP_LOCKLESS_POOLS cfg = false ->
     exists mid,
       t = EvLock :: mid ++ [EvUnlock] /\
       (forall e, In e mid -> e <> EvLock /\ e <> EvUnlock) /\
       (exists passed, In (EvMargin passed) mid) /\
       (forall r, In (EvPop r) t -> In (EvPop r) mid) /\
       (forall r, In (EvRefill r) t -> In (EvRefill r) mid)) /\
    (CONFIG_HAP_LOCKLESS_POOLS cfg = true ->
     forall e, In e t -> e <> EvLock /\ e <> EvUnlock) /\
    (fst (buf_size (buf s) s) <> 0 -> t = []).
Proof.
  destruct (Z.eq_dec (fst (buf_size (buf s) s)) 0) as [Hsz | Hsz].
  2:{ exists []. rewrite (b_alloc_margin_held cfg margin s Hsz).
      cbn [snd]. rewrite app_nil_r.
      split; [reflexivity|]. split; [intros; contradiction|].
      split; [intros; contradiction|].
      split; [intros _ e []| reflexivity]. }
  destruct (b_alloc_margin_events cfg margin s Hsz) as (mid & Ht & Hmid).
  assert (Hnolock : forall e, In e mid -> e <> EvLock /\ e <> EvUnlock).
  { intros e He.
    destruct Hmid as [(a & ->) | [(r & ->) | (r & ->)]]; cbn in He;
      intuition (subst; discriminate). }
  assert (Htested : exists passed, In (EvMargin passed) mid).
  { destruct Hmid as [(a & ->) | [(r & ->) | (r & ->)]];
      eexists; left; reflexivity. }
  exists (lock_of cfg ++ mid ++ unlock_of cfg).
  split; [exact Ht|]. split; [| split; [| split]].
  - (* the margin *)
    intros Hok Hm _. clear Hmid Hnolock Htested.
    destruct (uint (allocated (pool_head_buffer s)
                    - used (pool_head_buffer s)) >? uint margin) eqn:Htest.
    + destruct (margin_test_true _ margin Hok Hm Htest) as (Hgt & Hpos).
      destruct Hok as (Hu & Hua & Ha & Hlen).
      destruct (free_list (pool_head_buffer s)) as [|a l] eqn:Hfl;
        [cbn [length Z.of_nat] in Hlen; lia|].
      pose proof (b_alloc_margin_fast cfg margin s a l Hsz Htest Hfl) as Hrun.
      rewrite Hrun in Ht |- *.
      cbn [fst snd handed trace pool_head_buffer allocated used] in Ht |- *.
      apply app_inv_head in Ht. rewrite <- Ht. split.
      * intros x Hin. unfold lock_of, unlock_of in Hin.
        assert (x = a) as ->.
        { destruct (CONFIG_HAP_LOCKLESS_POOLS cfg); cbn in Hin;
            intuition congruence. }
        repeat split; try reflexivity; lia.
      * intros Hle. lia.
    + pose proof (b_alloc_margin_slow cfg margin s Hsz Htest) as Hrun.
      rewrite Hrun in Ht |- *.
      pose proof (refill_loop_bound (heap s)
                    (margin + used (pool_head_buffer s))
                    (pool_head_buffer s)) as Hbound.
      destruct (refill_loop _ _ _) as [[r ph'] h']. cbn [fst snd] in Hbound.
      assert (Heq : lock_of cfg ++ mid ++ unlock_of cfg
                    = lock_of cfg ++ [EvMargin false; EvRefill r]
                        ++ unlock_of cfg).
      { destruct r; cbn [snd handed trace] in Ht;
          apply app_inv_head in Ht; symmetry; exact Ht. }
      rewrite Heq. split.
      * intros x Hin. exfalso. unfold lock_of, unlock_of in Hin.
        destruct (CONFIG_HAP_LOCKLESS_POOLS cfg); cbn in Hin;
          intuition congruence.
      * intros Hle. split; [| split].
        -- intros x Hin. unfold lock_of, unlock_of in Hin.
           destruct (CONFIG_HAP_LOCKLESS_POOLS cfg); cbn in Hin;
             intuition congruence.
        -- apply in_or_app. right. right. left.
           destruct r; reflexivity.
        -- intros Hl Hal. specialize (Hbound Hl Hal).
           destruct r; cbn [snd handed pool_head_buffer]; lia.
  - (* one critical section *)
    intros _ Hl. exists mid. unfold lock_of, unlock_of. rewrite Hl.
    split; [reflexivity|]. split; [exact Hnolock|].
    split; [exact Htested|].
    split; intros r Hin; cbn [app] in Hin;
      (destruct Hin as [Hin | Hin]; [discriminate Hin|]);
      (apply in_app_or in Hin; destruct Hin as [Hin | Hin];
       [exact Hin | cbn in Hin; intuition discriminate]).
  - (* no lock at all *)
    intros Hl e Hin. unfold lock_of, unlock_of in Hin. rewrite Hl in Hin.
    cbn [app] in Hin. rewrite app_nil_r in Hin. now apply Hnolock.
  - intros Hne. contradiction.
Qed.

Lemma b_alloc_margin_keeps_margin_witness :
  exists t mid : list event,
    trace (snd (b_alloc_margin cfg_locked 1 pool4)) = trace pool4 ++ t /\
    t = EvLock :: mid ++ [EvUnlock] /\
    In (EvMargin true) mid /\ In (EvPop (Some 100)) mid.
Proof.
  destruct (b_alloc_margin_keeps_margin cfg_locked 1 pool4)
    as (t & Ht & _ & Hsec & _).
  destruct (Hsec eq_refl eq_refl) as (mid & Hmid & _).
  exists t, mid. split; [exact Ht|]. split; [exact Hmid|].
  assert (Hrun : trace (snd (b_alloc_margin cfg_locked 1 pool4))
                 = [EvLock; EvMargin true; EvPop (Some 100); EvUnlock])
    by (vm_compute; reflexivity).
  rewrite Hrun, Hmid in Ht. cbn [trace pool4 app] in Ht.
  injection Ht as Ht.
  change [EvMargin true; EvPop (Some 100); EvUnlock]
    with ([EvMargin true; EvPop (Some 100)] ++ [EvUnlock]) in Ht.
  apply app_inv_tail in Ht. rewrite <- Ht.
  split; [left; reflexivity | right; left; reflexivity].
Defined.

(** A pool that cannot grow gives the slow path nothing, and the slow path
    leaves it as it is. *)
Lemma refill_loop_no_memory (h : list Z) (stop : Z) (ph : pool_head) :
  at_limit ph = true \/ h = [] -> refill_loop h stop ph = (None, ph, h).
Proof.
  unfold at_limit. intros [Hl | ->].
  - destruct h; cbn [refill_loop]; rewrite Hl; reflexivity.
  - cbn [refill_loop]. destruct (_ && _); reflexivity.
Qed.

(** When no object is to be kept available, the slow path fails only if the
    pool cannot grow. *)
Lemma refill_loop_one (h : list Z) (stop : Z) (ph : pool_head) :
  stop <= allocated ph ->
  fst (fst (refill_loop h stop ph)) = None ->
  at_limit ph = true \/ h = [].
Proof.
  unfold at_limit. intros Hstop.
  destruct h as [|a h]; [right; reflexivity|]. cbn [refill_loop].
  destruct (negb (limit ph =? 0) && (limit ph <=? allocated ph));
    [left; reflexivity|].
  replace (allocated ph + 1 >? stop) with true
    by (symmetry; rewrite Z.gtb_ltb; apply Z.ltb_lt; lia).
  cbn [fst]. discriminate.
Qed.

(** What [b_alloc_margin] returns when no buffer is held and the fast path
    gives nothing: the result of the slow path. *)
Lemma b_alloc_margin_result (cfg : config) (margin : Z) (s : state) :
  fst (buf_size (buf s) s) = 0 ->
  (uint (allocated (pool_head_buffer s) - used (pool_head_buffer s))
     >? uint margin) = false
  \/ free_list (pool_head_buffer s) = [] ->
  fst (b_alloc_margin cfg margin s)
    = option_map buf_at
        (fst (fst (refill_loop (heap s)
                     (margin + used (pool_head_buffer s))
                     (pool_head_buffer s)))) /\
  (fst (b_alloc_margin cfg margin s) = None ->
   buf (snd (b_alloc_margin cfg margin s)) = buf_wanted /\
   pool_head_buffer (snd (b_alloc_margin cfg margin s))
     = snd (fst (refill_loop (heap s) (margin + used (pool_head_buffer s))
                   (pool_head_buffer s)))).
Proof.
  destruct s as [[fl al us li sz] h bufs cur tr], cfg as [lockless ssb].
  cbn [pool_head_buffer heap free_list allocated used buf buf_size fst].
  intros Hsz Hfast.
  assert (Hz : (match cur with
                | buf_at a => Buffer.size (bufs a)
                | _ => 0
                end =? 0) = true) by (apply Z.eqb_eq; exact Hsz).
  pool_run. rewrite Hz.
  destruct lockless; pool_run;
    (destruct (uint (al - us) >? uint margin) eqn:Htest;
     [destruct Hfast as [Hf | Hf]; [discriminate | subst fl] |]);
    pool_run;
    destruct (refill_loop h (margin + us) (mkpool _ al us li sz))
      as [[[x|] ph'] h'];
    pool_run; cbn [option_map];
    (split; [reflexivity | intros Hn; try discriminate Hn;
                           split; reflexivity]).
Qed.

(** C4.  When the pool has no memory for them, [b_alloc], [b_alloc_fast]
    and [b_alloc_margin] return NULL and leave the caller's handle on
    [buf_wanted]: [b_alloc_fast] as soon as the free list is empty,
    [b_alloc] when moreover the pool cannot grow (it is at its limit or the
    system has no memory left), [b_alloc_margin], called without a buffer
    held, when the fast path gives nothing (the margin test fails or the
    free list is empty) and the slow path gives nothing, which is the case
    whenever the pool cannot grow.  They return NULL in no other case.
    Whenever one of them returns NULL the handle designates [buf_wanted],
    and whenever it returns a buffer the handle designates that buffer.
    [b_alloc_margin] called with a handle on a buffer of non-zero size
    returns that buffer and changes nothing, the pool included.  The three
    functions are total: no input makes them stop otherwise. *)
Theorem alloc_failure_leaves_wanted (cfg : config) (margin : Z) (s : state) :
  let ph := pool_head_buffer s in
  let fast_fails :=
    (uint (allocated ph - used ph) >? uint margin) = false
    \/ free_list ph = [] in
  let slow := refill_loop (heap s) (margin + used ph) ph in
  ((free_list ph = [] ->
    fst (b_alloc_fast cfg s) = None /\
    buf (snd (b_alloc_fast cfg s)) = buf_wanted /\
    pool_head_buffer (snd (b_alloc_fast cfg s)) = ph) /\
   (free_list ph = [] -> no_memory s ->
    fst (b_alloc cfg s) = None /\
    buf (snd (b_alloc cfg s)) = buf_wanted /\
    pool_head_buffer (snd (b_alloc cfg s)) = ph) /\
   (fst (buf_size (buf s) s) = 0 -> fast_fails ->
    fst (fst slow) = None ->
    fst (b_alloc_margin cfg margin s) = None /\
    buf (snd (b_alloc_margin cfg margin s)) = buf_wanted) /\
   (no_memory s -> slow = (None, ph, heap s)) /\
   (fst (buf_size (buf s) s) = 0 -> fast_fails -> no_memory s ->
    fst (b_alloc_margin cfg margin s) = None /\
    buf (snd (b_alloc_margin cfg margin s)) = buf_wanted /\
    pool_head_buffer (snd (b_alloc_margin cfg margin s)) = ph)) /\
  ((fst (b_alloc_fast cfg s) = None -> free_list ph = []) /\
   (used ph <= allocated ph -> fst (b_alloc cfg s) = None ->
    free_list ph = [] /\ no_memory s) /\
   (fst (buf_size (buf s) s) = 0 ->
    fst (b_alloc_margin cfg margin s) = None ->
    fast_fails /\ fst (fst slow) = None)) /\
  (fst (b_alloc cfg s) = None -> buf (snd (b_alloc cfg s)) = buf_wanted) /\
  (fst (b_alloc_fast cfg s) = None ->
   buf (snd (b_alloc_fast cfg s)) = buf_wanted) /\
  (fst (b_alloc_margin cfg margin s) = None ->
   buf (snd (b_alloc_margin cfg margin s)) = buf_wanted) /\
  (forall b, fst (b_alloc cfg s) = Some b -> buf (snd (b_alloc cfg s)) = b) /\
  (forall b, fst (b_alloc_fast cfg s) = Some b ->
             buf (snd (b_alloc_fast cfg s)) = b) /\
  (forall b, fst (b_alloc_margin cfg margin s) = Some b ->
             buf (snd (b_alloc_margin cfg margin s)) = b) /\
  (fst (buf_size (buf s) s) <> 0 ->
   b_alloc_margin cfg margin s = (Some (buf s), s)).
Proof.
  cbv zeta.
  assert (Hmargin :
    (fst (b_alloc_margin cfg margin s) = None ->
     buf (snd (b_alloc_margin cfg margin s)) = buf_wanted) /\
    (forall b, fst (b_alloc_margin cfg margin s) = Some b ->
               buf (snd (b_alloc_margin cfg margin s)) = b) /\
    (fst (buf_size (buf s) s) = 0 ->
     fst (b_alloc_margin cfg margin s) = None ->
     (uint (allocated (pool_head_buffer s) - used (pool_head_buffer s))
        >? uint margin) = false
     \/ free_list (pool_head_buffer s) = [])).
  { destruct (Z.eq_dec (fst (buf_size (buf s) s)) 0) as [Hsz | Hsz].
    - destruct (uint (allocated (pool_head_buffer s)
                      - used (pool_head_buffer s)) >? uint margin) eqn:Htest.
      + destruct (free_list (pool_head_buffer s)) as [|a l] eqn:Hfl.
        * (* nothing to pop: the slow path decides *)
          assert (Hrun : b_alloc_margin cfg margin s =
            let '(r, ph', h') :=
              refill_loop (heap s) (margin + used (pool_head_buffer s))
                (pool_head_buffer s) in
            let t := lock_of cfg ++ [EvMargin true; EvPop None; EvRefill r]
                       ++ unlock_of cfg in
            match r with
            | Some a => (Some (buf_at a), handed cfg s ph' h' a t)
            | None => (None, mkstate ph' h' (buffers s) buf_wanted
                               (trace s ++ t))
            end).
          { revert Hsz Htest Hfl.
            destruct s as [[fl al us li sz] h bufs cur tr], cfg as [[|] ssb].
            all: pool_run; intros ->; change (0 =? 0) with true; pool_run;
              intros -> ->; pool_run;
              destruct (refill_loop _ _ _) as [[[a|] ph'] h'];
              pool_run; rewrite <- ?app_assoc; reflexivity. }
          rewrite Hrun. destruct (refill_loop _ _ _) as [[[a|] ph'] h'];
            cbn [fst snd buf handed];
            (split; [| split]); try congruence; intros; right; reflexivity.
        * rewrite (b_alloc_margin_fast cfg margin s a l Hsz Htest Hfl).
          cbn [fst snd buf handed]. (split; [| split]); congruence.
      + rewrite (b_alloc_margin_slow cfg margin s Hsz Htest).
        destruct (refill_loop _ _ _) as [[[a|] ph'] h'];
          cbn [fst snd buf handed];
          (split; [| split]); try congruence; intros; left; reflexivity.
    - rewrite (b_alloc_margin_held cfg margin s Hsz). cbn [fst snd].
      (split; [| split]); congruence. }
  destruct Hmargin as (Hm1 & Hm2 & Hm3).
  assert (Hplain :
    ((fst (b_alloc cfg s) = None -> buf (snd (b_alloc cfg s)) = buf_wanted) /\
     (forall b, fst (b_alloc cfg s) = Some b ->
                buf (snd (b_alloc cfg s)) = b)) /\
    ((fst (b_alloc_fast cfg s) = None ->
      buf (snd (b_alloc_fast cfg s)) = buf_wanted) /\
     (forall b, fst (b_alloc_fast cfg s) = Some b ->
                buf (snd (b_alloc_fast cfg s)) = b))).
  { destruct s as [[[|a fl] al us li sz] h bufs cur tr], cfg as [[|] ssb].
    all: pool_run;
      try (destruct (refill_loop _ _ _) as [[[x|] ph'] h']); pool_run;
      repeat split; congruence. }
  destruct Hplain as ((Ha1 & Ha2) & (Hf1 & Hf2)).
  assert (Hfast : fst (b_alloc_fast cfg s) = None <->
                  free_list (pool_head_buffer s) = []).
  { destruct s as [[[|a fl] al us li sz] h bufs cur tr], cfg as [[|] ssb];
      pool_run; split; congruence. }
  assert (Halloc : fst (b_alloc cfg s)
                   = match free_list (pool_head_buffer s) with
                     | a :: _ => Some (buf_at a)
                     | [] => option_map buf_at
                               (fst (fst (refill_loop (heap s)
                                            (0 + used (pool_head_buffer s))
                                            (pool_head_buffer s))))
                     end /\
                   (fst (b_alloc cfg s) = None ->
                    pool_head_buffer (snd (b_alloc cfg s))
                    = snd (fst (refill_loop (heap s)
                                  (0 + used (pool_head_buffer s))
                                  (pool_head_buffer s))))).
  { destruct s as [[[|a fl] al us li sz] h bufs cur tr], cfg as [[|] ssb].
    all: pool_run;
      try (destruct (refill_loop _ _ _) as [[[x|] ph'] h']); pool_run;
      split; try reflexivity; intros Hn; try discriminate Hn; reflexivity. }
  destruct Halloc as (Halloc & Hallocp).
  split; [| split; [| repeat split; try assumption;
                      apply b_alloc_margin_held]].
  - split; [| split; [| split; [| split]]].
    + intros Hfl. split; [now apply Hfast|].
      split; [apply Hf1; now apply Hfast|].
      revert Hfl.
      destruct s as [[fl al us li sz] h bufs cur tr], cfg as [[|] ssb];
        pool_run; intros ->; reflexivity.
    + intros Hfl Hno.
      assert (Hnone : fst (b_alloc cfg s) = None).
      { rewrite Halloc, Hfl, refill_loop_no_memory by exact Hno.
        reflexivity. }
      split; [exact Hnone|]. split; [exact (Ha1 Hnone)|].
      rewrite (Hallocp Hnone), refill_loop_no_memory by exact Hno.
      reflexivity.
    + intros Hsz Hff Hslow.
      destruct (b_alloc_margin_result cfg margin s Hsz Hff) as (Hr & Hw).
      rewrite Hslow in Hr. cbn [option_map] in Hr.
      split; [exact Hr | exact (proj1 (Hw Hr))].
    + intros Hno. now apply refill_loop_no_memory.
    + intros Hsz Hff Hno.
      destruct (b_alloc_margin_result cfg margin s Hsz Hff) as (Hr & Hw).
      rewrite refill_loop_no_memory in Hr, Hw by exact Hno.
      cbn [option_map fst snd] in Hr, Hw.
      split; [exact Hr|]. destruct (Hw Hr) as (Hb & Hp).
      split; assumption.
  - split; [| split].
    + apply Hfast.
    + intros Hua Hnone. rewrite Halloc in Hnone.
      destruct (free_list (pool_head_buffer s)) as [|a l]; [| discriminate].
      split; [reflexivity|].
      apply (refill_loop_one (heap s) (0 + used (pool_head_buffer s))
               (pool_head_buffer s)); [lia|].
      destruct (fst (fst (refill_loop _ _ _)));
        [cbn [option_map] in Hnone; discriminate Hnone | reflexivity].
    + intros Hsz Hnone. pose proof (Hm3 Hsz Hnone) as Hff.
      split; [exact Hff|].
      destruct (b_alloc_margin_result cfg margin s Hsz Hff) as (Hr & _).
      rewrite Hnone in Hr. revert Hr.
      destruct (fst (fst (refill_loop _ (margin + _) _)));
        [cbn [option_map]; intros Hr; discriminate Hr | reflexivity].
Qed.

Lemma alloc_failure_leaves_wanted_witness :
  (fst (b_alloc cfg_locked pool4_used) = None /\
   buf (snd (b_alloc cfg_locked pool4_used)) = buf_wanted) /\
  (fst (b_alloc_margin cfg_locked 1 pool4_used) = None /\
   buf (snd (b_alloc_margin cfg_locked 1 pool4_used)) = buf_wanted) /\
  (fst (b_alloc_margin cfg_locked 4 pool4) = None /\
   buf (snd (b_alloc_margin cfg_locked 4 pool4)) = buf_wanted).
Proof.
  pose proof (alloc_failure_leaves_wanted cfg_locked 1 pool4_used)
    as ((_ & Ha & _ & _ & Hm) & _).
  pose proof (alloc_failure_leaves_wanted cfg_locked 4 pool4)
    as ((_ & _ & _ & _ & Hm4) & _).
  cbv zeta in Ha, Hm, Hm4.
  destruct (Ha eq_refl (or_intror eq_refl)) as (Ha1 & Ha2 & _).
  destruct (Hm eq_refl (or_intror eq_refl) (or_intror eq_refl))
    as (Hm1 & Hm2 & _).
  destruct (Hm4 eq_refl (or_introl eq_refl) (or_intror eq_refl))
    as (Hm41 & Hm42 & _).
  repeat split; assumption.
Defined.

End PoolFacts.

(* ------------------------------------------------------------------ *)
(** ** Stream endpoint flags and shutdowns                             *)
(* ------------------------------------------------------------------ *)

Section StconnFacts.

Import Stconn.

Context {F : se_flags}.

(** A flag that was just set is seen by a test of any mask that holds it. *)
Lemma land_lor_nonzero_l (f x y : Z) :
  x <> 0 -> Z.land (Z.lor f x) (Z.lor x y) <> 0.
Proof.
  intros Hx H. apply Hx. apply Z.bits_inj_0. intros n.
  apply (f_equal (fun z => Z.testbit z n)) in H.
  rewrite Z.land_spec, !Z.lor_spec, Z.bits_0 in H.
  destruct (Z.testbit x n); [| reflexivity].
  now rewrite orb_true_r in H.
Qed.

Lemma land_lor_nonzero_r (f x y : Z) :
  y <> 0 -> Z.land (Z.lor f y) (Z.lor x y) <> 0.
Proof. rewrite (Z.lor_comm x y). apply land_lor_nonzero_l. Qed.

Lemma test_lor (f a b : Z) :
  negb (Z.land f (Z.lor a b) =? 0) =
  negb (Z.land f a =? 0) || negb (Z.land f b =? 0).
Proof.
  rewrite Z.land_lor_distr_r.
  destruct (Z.eqb_spec (Z.land f a) 0) as [Ha | Ha];
    destruct (Z.eqb_spec (Z.land f b) 0) as [Hb | Hb]; cbn.
  - rewrite Ha, Hb. reflexivity.
  - apply negb_true_iff, Z.eqb_neq. intros H.
    apply Z.lor_eq_0_iff in H. tauto.
  - apply negb_true_iff, Z.eqb_neq. intros H.
    apply Z.lor_eq_0_iff in H. tauto.
  - apply negb_true_iff, Z.eqb_neq. intros H.
    apply Z.lor_eq_0_iff in H. tauto.
Qed.

(** C7.  [se_fl_set_error] ors SE_FL_ERROR into the flags when SE_FL_EOS or
    SE_FL_EOI is set on entry and ors SE_FL_ERR_PENDING into them otherwise;
    in the first case every bit outside SE_FL_ERROR, in the second every bit
    outside SE_FL_ERR_PENDING, keeps its value, and so do the other fields
    of the descriptor. *)
Theorem se_fl_set_error_spec (sd : sedesc) :
  (se_fl_test sd SE_FL_EOS = true \/ se_fl_test sd SE_FL_EOI = true ->
   flags (se_fl_set_error sd) = Z.lor (flags sd) SE_FL_ERROR /\
   (forall n, Z.testbit SE_FL_ERROR n = false ->
      Z.testbit (flags (se_fl_set_error sd)) n = Z.testbit (flags sd) n)) /\
  (se_fl_test sd SE_FL_EOS = false /\ se_fl_test sd SE_FL_EOI = false ->
   flags (se_fl_set_error sd) = Z.lor (flags sd) SE_FL_ERR_PENDING /\
   (forall n, Z.testbit SE_FL_ERR_PENDING n = false ->
      Z.testbit (flags (se_fl_set_error sd)) n = Z.testbit (flags sd) n)) /\
  se (se_fl_set_error sd) = se sd /\
  conn (se_fl_set_error sd) = conn sd /\
  lra (se_fl_set_error sd) = lra sd /\
  fsb (se_fl_set_error sd) = fsb sd.
Proof.
  assert (Hbit : forall f x n, Z.testbit x n = false ->
                   Z.testbit (Z.lor f x) n = Z.testbit f n).
  { intros f x n Hx. rewrite Z.lor_spec, Hx. apply orb_false_r. }
  unfold se_fl_set_error, se_fl_test. rewrite test_lor.
  split; [| split].
  - intros Hset.
    replace (negb (Z.land (flags sd) SE_FL_EOS =? 0)
             || negb (Z.land (flags sd) SE_FL_EOI =? 0)) with true
      by (symmetry; apply orb_true_iff; exact Hset).
    cbn [flags se_fl_set]. split; [reflexivity | intros n; apply Hbit].
  - intros (He & Hi). rewrite He, Hi.
    cbn [orb flags se_fl_set]. split; [reflexivity | intros n; apply Hbit].
  - destruct (_ || _); repeat split; reflexivity.
Qed.

Variable muxes : nat -> mux_ops.

Lemma sc_ep_test_set_shr (s : stconn) (mode : co_shr_mode) :
  se_flags_ok F ->
  sc_ep_test (sc_ep_set s (match mode with
                           | CO_SHR_DRAIN => SE_FL_SHRD
                           | CO_SHR_RESET => SE_FL_SHRR
                           end)) SE_FL_SHR = true.
Proof.
  intros (Hr & Hw & Hrd & Hrr & Hwn & Hws).
  unfold sc_ep_test, sc_ep_set, se_fl_test, se_fl_set, with_sedesc.
  cbn [sc_sedesc flags]. rewrite Hr.
  apply negb_true_iff, Z.eqb_neq. destruct mode.
  - now apply land_lor_nonzero_l.
  - now apply land_lor_nonzero_r.
Qed.

Lemma sc_ep_test_set_shw (s : stconn) (mode : co_shw_mode) :
  se_flags_ok F ->
  sc_ep_test (sc_ep_set s (match mode with
                           | CO_SHW_NORMAL => SE_FL_SHWN
                           | CO_SHW_SILENT => SE_FL_SHWS
                           end)) SE_FL_SHW = true.
Proof.
  intros (Hr & Hw & Hrd & Hrr & Hwn & Hws).
  unfold sc_ep_test, sc_ep_set, se_fl_test, se_fl_set, with_sedesc.
  cbn [sc_sedesc flags]. rewrite Hw.
  apply negb_true_iff, Z.eqb_neq. destruct mode.
  - now apply land_lor_nonzero_l.
  - now apply land_lor_nonzero_r.
Qed.

(** A shutdown that finds its direction already shut changes nothing. *)
Lemma sc_conn_shutr_shut (mode : co_shr_mode) (w : world) :
  sc_conn (sc w) <> None -> sc_ep_test (sc w) SE_FL_SHR = true ->
  sc_conn_shutr muxes mode w = Some w.
Proof.
  intros Hc Ht. unfold sc_conn_shutr, BUG_ON.
  destruct (sc_conn (sc w)); [| contradiction].
  cbn [is_none]. now rewrite Ht.
Qed.

Lemma sc_conn_shutw_shut (mode : co_shw_mode) (w : world) :
  sc_conn (sc w) <> None -> sc_ep_test (sc w) SE_FL_SHW = true ->
  sc_conn_shutw muxes mode w = Some w.
Proof.
  intros Hc Ht. unfold sc_conn_shutw, BUG_ON.
  destruct (sc_conn (sc w)); [| contradiction].
  cbn [is_none]. now rewrite Ht.
Qed.

(** A shutdown on an attached connector returns, with its direction shut
    and at most one more call into the multiplexer. *)
Lemma sc_conn_shutr_once (mode : co_shr_mode) (w : world) :
  se_flags_ok F -> sc_conn (sc w) <> None ->
  exists w1, sc_conn_shutr muxes mode w = Some w1 /\
             sc_ep_test (sc w1) SE_FL_SHR = true /\
             (length (calls w1) <= S (length (calls w)))%nat.
Proof.
  intros Hok Hc. unfold sc_conn_shutr, BUG_ON.
  destruct (sc_conn (sc w)) eqn:Hconn; [| contradiction].
  cbn [is_none].
  destruct (sc_ep_test (sc w) SE_FL_SHR) eqn:Ht.
  - exists w. repeat split; [assumption | lia].
  - eexists. split; [reflexivity|]. cbn [sc calls].
    split; [now apply sc_ep_test_set_shr|].
    destruct (sc_mux_ops muxes (sc w)) as [[m ops]|]; [| lia].
    destruct (shutr ops); cbn [calls]; [rewrite length_app; cbn; lia | lia].
Qed.

Lemma sc_conn_shutw_once (mode : co_shw_mode) (w : world) :
  se_flags_ok F -> sc_conn (sc w) <> None ->
  exists w1, sc_conn_shutw muxes mode w = Some w1 /\
             sc_ep_test (sc w1) SE_FL_SHW = true /\
             (length (calls w1) <= S (length (calls w)))%nat.
Proof.
  intros Hok Hc. unfold sc_conn_shutw, BUG_ON.
  destruct (sc_conn (sc w)) eqn:Hconn; [| contradiction].
  cbn [is_none].
  destruct (sc_ep_test (sc w) SE_FL_SHW) eqn:Ht.
  - exists w. repeat split; [assumption | lia].
  - eexists. split; [reflexivity|]. cbn [sc calls].
    split; [now apply sc_ep_test_set_shw|].
    destruct (sc_mux_ops muxes (sc w)) as [[m ops]|]; [| lia].
    destruct (shutw ops); cbn [calls]; [rewrite length_app; cbn; lia | lia].
Qed.

(** C5.  On a stream connector attached to a connection, [sc_conn_shutr]
    returns a state [w1] in which the read direction is recorded as shut,
    having called the multiplexer at most once; called again on [w1], still
    attached to its connection, it returns [w1] itself: same flags, same
    calls into the multiplexer.  The same holds of [sc_conn_shutw]. *)
Theorem sc_conn_shut_twice (w : world) :
  se_flags_ok F ->
  sc_conn (sc w) <> None ->
  (forall mode : co_shr_mode,
     exists w1,
       sc_conn_shutr muxes mode w = Some w1 /\
       sc_ep_test (sc w1) SE_FL_SHR = true /\
       (length (calls w1) <= S (length (calls w)))%nat /\
       (sc_conn (sc w1) <> None ->
        seq_ (sc_conn_shutr muxes mode) (sc_conn_shutr muxes mode) w
        = Some w1)) /\
  (forall mode : co_shw_mode,
     exists w1,
       sc_conn_shutw muxes mode w = Some w1 /\
       sc_ep_test (sc w1) SE_FL_SHW = true /\
       (length (calls w1) <= S (length (calls w)))%nat /\
       (sc_conn (sc w1) <> None ->
        seq_ (sc_conn_shutw muxes mode) (sc_conn_shutw muxes mode) w
        = Some w1)).
Proof.
  intros Hok Hc. split; intros mode.
  - destruct (sc_conn_shutr_once mode w Hok Hc) as (w1 & Hrun & Ht & Hn).
    exists w1. repeat split; try assumption.
    intros Hc1. unfold seq_. rewrite Hrun.
    now apply sc_conn_shutr_shut.
  - destruct (sc_conn_shutw_once mode w Hok Hc) as (w1 & Hrun & Ht & Hn).
    exists w1. repeat split; try assumption.
    intros Hc1. unfold seq_. rewrite Hrun.
    now apply sc_conn_shutw_shut.
Qed.

End StconnFacts.

Section StconnRun.

Import Stconn.

Lemma se_fl_set_error_spec_witness :
  flags (se_fl_set_error (F := haproxy_se_flags)
           (mksedesc 0 None 0x00008001 0 0)) = 0x00018001 /\
  flags (se_fl_set_error (F := haproxy_se_flags)
           (mksedesc 0 None 0x00000001 0 0)) = 0x00020001.
Proof.
  split.
  - destruct (se_fl_set_error_spec (F := haproxy_se_flags)
                (mksedesc 0 None 0x00008001 0 0)) as (Hconfirmed & _).
    apply Hconfirmed. left. vm_compute. reflexivity.
  - destruct (se_fl_set_error_spec (F := haproxy_se_flags)
                (mksedesc 0 None 0x00000001 0 0)) as (_ & Hpending & _).
    apply Hpending. split; vm_compute; reflexivity.
Defined.

Lemma sc_conn_shut_twice_witness :
  exists w1,
    seq_ (sc_conn_shutr (F := haproxy_se_flags) one_mux CO_SHR_DRAIN)
         (sc_conn_shutr (F := haproxy_se_flags) one_mux CO_SHR_DRAIN)
         sc_attached = Some w1 /\
    sc_conn_shutr (F := haproxy_se_flags) one_mux CO_SHR_DRAIN sc_attached
    = Some w1.
Proof.
  assert (Hok : se_flags_ok haproxy_se_flags)
    by (unfold se_flags_ok; cbn; repeat split; (reflexivity || discriminate)).
  assert (Hc : sc_conn (F := haproxy_se_flags) (sc sc_attached) <> None)
    by (vm_compute; discriminate).
  destruct (sc_conn_shut_twice (F := haproxy_se_flags) one_mux sc_attached
              Hok Hc) as (Hr & _).
  destruct (Hr CO_SHR_DRAIN) as (w1 & Hrun & _ & _ & Htwice).
  exists w1. split; [| exact Hrun].
  apply Htwice.
  assert (Hw1 : w1 = mkworld (mkstconn (mksedesc 0 (Some (mkconn (Some 0%nat)))
                                          0x00000101 0 0) 0 0)
                       [CallShutr 0 CO_SHR_DRAIN]).
  { vm_compute in Hrun. now injection Hrun as <-. }
  rewrite Hw1. vm_compute. discriminate.
Defined.

End StconnRun.

Section ConnStreamFacts.

Import ConnStream.

Lemma freed_emit (e : event) (w : world) :
  freed (emit e w) =
  freed w || match e with EvCsFree => true | _ => false end.
Proof.
  unfold freed, emit. cbn [log]. rewrite existsb_app. cbn [existsb].
  now rewrite orb_false_r.
Qed.

Lemma freed_upd (f : conn_stream -> conn_stream) (w : world) :
  freed (upd f w) = freed w.
Proof. reflexivity. Qed.

Lemma cs_free_spec (w : world) :
  freed (cs_free w) = true /\ alive (cs_free w) = false /\
  cs (cs_free w) = cs w.
Proof.
  unfold cs_free. cbn [alive cs]. split; [| split; reflexivity].
  unfold freed. cbn [log emit]. rewrite !existsb_app. cbn [existsb].
  now rewrite orb_true_r.
Qed.

Variable mux_unsubscribe : nat -> conn_stream -> conn_stream.
Variable mux_detach : nat -> conn_stream -> conn_stream.

Lemma cs_detach_endp_unfold (w : world) :
  cs_detach_endp mux_unsubscribe mux_detach w =
  match app (cs (detach_endp_body mux_unsubscribe mux_detach w)) with
  | None => cs_free (detach_endp_body mux_unsubscribe mux_detach w)
  | Some _ => detach_endp_body mux_unsubscribe mux_detach w
  end.
Proof. reflexivity. Qed.

Lemma detach_endp_body_spec (w : world) :
  freed (detach_endp_body mux_unsubscribe mux_detach w) = freed w /\
  alive (detach_endp_body mux_unsubscribe mux_detach w) = alive w /\
  endp (cs (detach_endp_body mux_unsubscribe mux_detach w)) = None.
Proof.
  unfold detach_endp_body, when.
  repeat match goal with
         | |- context [match ?x with _ => _ end] => destruct x
         end;
    cbn [alive cs upd emit endp set_data_cb set_si_ops];
    rewrite ?freed_upd, ?freed_emit, ?freed_upd, ?freed_emit;
    cbn [orb]; rewrite ?orb_false_r;
    repeat split;
    repeat match goal with
           | |- context [match ?x with _ => _ end] => destruct x
           end; reflexivity.
Qed.

(** C6.  On a live conn_stream, [cs_detach_endp] hands the conn_stream to
    [pool_free] exactly when its application pointer is NULL once the
    endpoint is detached, and [cs_detach_app] exactly when its endpoint
    pointer is NULL once the application is detached; otherwise the
    conn_stream stays alive, with the detached side cleared. *)
Theorem cs_detach_frees_iff (w : world) :
  alive w = true -> freed w = false ->
  ((freed (cs_detach_endp mux_unsubscribe mux_detach w) = true <->
    app (cs (cs_detach_endp mux_unsubscribe mux_detach w)) = None) /\
   (alive (cs_detach_endp mux_unsubscribe mux_detach w) = true <->
    app (cs (cs_detach_endp mux_unsubscribe mux_detach w)) <> None) /\
   endp (cs (cs_detach_endp mux_unsubscribe mux_detach w)) = None) /\
  ((freed (cs_detach_app w) = true <-> endp (cs (cs_detach_app w)) = None) /\
   (alive (cs_detach_app w) = true <-> endp (cs (cs_detach_app w)) <> None) /\
   app (cs (cs_detach_app w)) = None).
Proof.
  intros Halive Hfreed. split.
  - rewrite cs_detach_endp_unfold.
    destruct (detach_endp_body_spec w) as (Hf & Ha & He).
    rewrite Hfreed in Hf. rewrite Halive in Ha.
    destruct (app (cs (detach_endp_body mux_unsubscribe mux_detach w)))
      as [x|] eqn:Happ.
    + rewrite Hf, Ha, Happ. repeat split; congruence.
    + destruct (cs_free_spec
                  (detach_endp_body mux_unsubscribe mux_detach w))
        as (Hf' & Ha' & Hcs).
      rewrite Hf', Ha', Hcs, Happ. repeat split; congruence.
  - unfold cs_detach_app.
    set (w1 := upd (fun c => mkcs (flags c) (endp c) (ctx c) None None None)
                 (emit (EvSiFree (si (cs w))) w)).
    assert (Hw1 : freed w1 = false /\ alive w1 = true /\
                  endp (cs w1) = endp (cs w) /\ app (cs w1) = None).
    { subst w1. rewrite freed_upd, freed_emit, Hfreed.
      repeat split; assumption. }
    destruct Hw1 as (Hf & Ha & He & Hp).
    destruct (endp (cs w1)) as [x|] eqn:Hend.
    + rewrite Hf, Ha, Hend, Hp. repeat split; congruence.
    + destruct (cs_free_spec w1) as (Hf' & Ha' & Hcs).
      rewrite Hf', Ha', Hcs, Hend, Hp. repeat split; congruence.
Qed.

End ConnStreamFacts.

Section ConnStreamRun.

Import ConnStream.

Lemma cs_detach_frees_iff_witness :
  freed (cs_detach_endp (fun _ c => c) (fun _ c => c) cs_endp_only) = true /\
  alive (cs_detach_endp (fun _ c => c) (fun _ c => c) cs_both) = true.
Proof.
  split.
  - destruct (cs_detach_frees_iff (fun _ c => c) (fun _ c => c) cs_endp_only
                eq_refl eq_refl) as ((Hfree & _ & _) & _).
    apply Hfree. reflexivity.
  - destruct (cs_detach_frees_iff (fun _ c => c) (fun _ c => c) cs_both
                eq_refl eq_refl) as ((_ & Hlive & _) & _).
    apply Hlive. vm_compute. discriminate.
Defined.

End ConnStreamRun.

(* ------------------------------------------------------------------ *)
(** ** Per-stream flow control                                         *)
(* ------------------------------------------------------------------ *)

Section MuxQuicFacts.

Import MuxQuic.

Variable rx_max_offset : Z.
Variable conn_room : Z.

(** An accepted input keeps the bounds and never moves [sent_offset]
    backwards. *)
Lemma qcs_step_ok (q q' : qcs) (x : input) :
  fctl_ok rx_max_offset q -> qcs_step rx_max_offset conn_room q x = Ok q' ->
  fctl_ok rx_max_offset q' /\ tx_sent_offset q <= tx_sent_offset q'.
Proof.
  intros (Hrx & Hsent & Hmsd) Hstep. unfold fctl_ok.
  destruct x as [n | n | n | off | m]; cbn [qcs_step] in Hstep.
  - destruct ((n <? 0) || (n >? rx_max_offset - rx_offset q)) eqn:Hc;
      [discriminate|].
    apply orb_false_iff in Hc. destruct Hc as (Hn & Hlim).
    rewrite Z.gtb_ltb in Hlim. apply Z.ltb_ge in Hn, Hlim.
    injection Hstep as <-. cbn. lia.
  - destruct (n <? 0) eqn:Hn; [discriminate|]. apply Z.ltb_ge in Hn.
    destruct (n >? Z.min (tx_msd q) conn_room - tx_offset q) eqn:Hlim;
      injection Hstep as <-; cbn [rx_offset tx_offset tx_sent_offset tx_msd].
    + lia.
    + rewrite Z.gtb_ltb in Hlim. apply Z.ltb_ge in Hlim. lia.
  - destruct ((n <? 0) || (n >? tx_offset q - tx_sent_offset q)) eqn:Hc;
      [discriminate|].
    apply orb_false_iff in Hc. destruct Hc as (Hn & Hlim).
    rewrite Z.gtb_ltb in Hlim. apply Z.ltb_ge in Hn, Hlim.
    injection Hstep as <-. cbn. lia.
  - destruct ((off <? 0) || (off >? tx_sent_offset q)); [discriminate|].
    injection Hstep as <-. cbn. lia.
  - destruct (m >? tx_msd q) eqn:Hm; injection Hstep as <-.
    + rewrite Z.gtb_ltb in Hm. apply Z.ltb_lt in Hm.
      cbn [rx_offset tx_offset tx_sent_offset tx_msd]. lia.
    + lia.
Qed.

(** Feeding inputs to a reachable state leads to a reachable state. *)
Lemma qcs_run_reachable (msd : Z) (xs : list input) :
  forall q, reachable rx_max_offset conn_room msd q ->
            reachable rx_max_offset conn_room msd
              (fst (qcs_run rx_max_offset conn_room q xs)).
Proof.
  induction xs as [|x xs IH]; intros q Hq; cbn [qcs_run].
  - exact Hq.
  - destruct (qcs_step rx_max_offset conn_room q x) as [q'|] eqn:Hstep.
    + apply IH. now apply reach_step with (q := q) (x := x).
    + specialize (IH q Hq).
      destruct (qcs_run rx_max_offset conn_room q xs). exact IH.
Qed.

(** C9.  With non-negative ceilings, every state of a stream's flow-control
    record reached from its opening through accepted inputs satisfies
    [rx.offset <= rx ceiling] and [tx.sent_offset <= tx.offset <= tx.msd];
    an accepted input never decreases [tx.sent_offset]; a reception past the
    receive ceiling, a transport report past [tx.offset] and an
    acknowledgment past [tx.sent_offset] are refused as protocol errors; data
    queued past the transmit limit are not accepted, the stream being
    flagged as blocked. *)
Theorem qcs_fctl_invariant (msd : Z) :
  0 <= rx_max_offset -> 0 <= msd ->
  (forall q, reachable rx_max_offset conn_room msd q ->
     fctl_ok rx_max_offset q) /\
  (forall q x q',
     fctl_ok rx_max_offset q -> qcs_step rx_max_offset conn_room q x = Ok q' ->
     fctl_ok rx_max_offset q' /\ tx_sent_offset q <= tx_sent_offset q') /\
  (forall q n, rx_max_offset - rx_offset q < n ->
     qcs_step rx_max_offset conn_room q (Recv n) = ProtocolError) /\
  (forall q n, tx_offset q - tx_sent_offset q < n ->
     qcs_step rx_max_offset conn_room q (Sent n) = ProtocolError) /\
  (forall q off, tx_sent_offset q < off \/ off < 0 ->
     qcs_step rx_max_offset conn_room q (Ack off) = ProtocolError) /\
  (forall q n, 0 <= n -> Z.min (tx_msd q) conn_room - tx_offset q < n ->
     exists q', qcs_step rx_max_offset conn_room q (Produce n) = Ok q' /\
                tx_offset q' = tx_offset q /\
                Z.land (flags q') QC_SF_BLK_SFCTL = QC_SF_BLK_SFCTL).
Proof.
  intros Hrx Hmsd. split; [| split; [| split; [| split; [| split]]]].
  - intros q Hreach. induction Hreach as [| q x q' _ IH Hstep].
    + unfold fctl_ok, qcs_new. cbn. lia.
    + exact (proj1 (qcs_step_ok q q' x IH Hstep)).
  - intros q x q'. apply qcs_step_ok.
  - intros q n Hn. cbn [qcs_step].
    replace (n >? rx_max_offset - rx_offset q) with true
      by (symmetry; rewrite Z.gtb_ltb; apply Z.ltb_lt; lia).
    now rewrite orb_true_r.
  - intros q n Hn. cbn [qcs_step].
    replace (n >? tx_offset q - tx_sent_offset q) with true
      by (symmetry; rewrite Z.gtb_ltb; apply Z.ltb_lt; lia).
    now rewrite orb_true_r.
  - intros q off [Hoff | Hoff]; cbn [qcs_step].
    + replace (off >? tx_sent_offset q) with true
        by (symmetry; rewrite Z.gtb_ltb; apply Z.ltb_lt; lia).
      now rewrite orb_true_r.
    + replace (off <? 0) with true by (symmetry; apply Z.ltb_lt; lia).
      reflexivity.
  - intros q n Hn Hlim. cbn [qcs_step].
    replace (n <? 0) with false by (symmetry; apply Z.ltb_ge; lia).
    replace (n >? Z.min (tx_msd q) conn_room - tx_offset q) with true
      by (symmetry; rewrite Z.gtb_ltb; apply Z.ltb_lt; lia).
    eexists. split; [reflexivity|]. cbn [tx_offset flags].
    split; [reflexivity|].
    apply Z.bits_inj'. intros k _.
    rewrite Z.land_spec, Z.lor_spec.
    destruct (Z.testbit QC_SF_BLK_SFCTL k);
      [now rewrite orb_true_r | apply andb_false_r].
Qed.

End MuxQuicFacts.

Section MuxQuicRun.

Import MuxQuic.

Lemma qcs_fctl_invariant_witness :
  fctl_ok 100
    (fst (qcs_run 100 50 (qcs_new 40)
            [Recv 60; Recv 60; Produce 30; Sent 20; Sent 20; Ack 10;
             Produce 30; MaxStreamData 80])).
Proof.
  destruct (qcs_fctl_invariant 100 50 40 ltac:(lia) ltac:(lia)) as (Hreach & _).
  apply Hreach. apply qcs_run_reachable. apply reach_new.
Defined.

End MuxQuicRun.

(* ------------------------------------------------------------------ *)
(** ** More of buffer.h                                             *)
(* ------------------------------------------------------------------ *)

Section BufferPointers.

Import Buffer.

(** X1.  In a well-formed buffer of non-zero size, [b_ptr] of an offset of
    magnitude at most [size] is the position [p + ofs] taken modulo [size]:
    it lies inside the region; and going [k] bytes forward then [k] bytes
    backward, or the converse, leads back to [p]. *)
Theorem b_ptr_in_region (b : buffer) (ofs : Z) :
  wf b -> 0 < size b -> - size b <= ofs <= size b ->
  b_ptr b ofs = (p b + ofs) mod size b /\
  0 <= b_ptr b ofs < size b /\
  b_ptr (set_p b (b_ptr b ofs)) (- ofs) = p b.
Proof.
  intros (Hi & Ho & Hio & Hp & Hps) Hsz Hofs.
  assert (Hmod : b_ptr b ofs = (p b + ofs) mod size b).
  { unfold b_ptr.
    destruct (Z.ltb_spec 0 ofs) as [Hpos | Hpos]; cbn [andb].
    - destruct (Z.leb_spec (size b) (p b + ofs)) as [Hw | Hw].
      + apply (Z.mod_unique_pos _ _ 1); lia.
      + destruct (Z.ltb_spec ofs 0); [lia|]. cbn [andb].
        apply (Z.mod_unique_pos _ _ 0); lia.
    - destruct (Z.ltb_spec ofs 0) as [Hneg | Hneg]; cbn [andb].
      + destruct (Z.ltb_spec (p b + ofs) 0) as [Hw | Hw].
        * apply (Z.mod_unique_pos _ _ (-1)); lia.
        * apply (Z.mod_unique_pos _ _ 0); lia.
      + apply (Z.mod_unique_pos _ _ 0); lia. }
  split; [exact Hmod|]. split.
  - rewrite Hmod. apply Z.mod_pos_bound. exact Hsz.
  - unfold b_ptr. cbn [p size set_p]. cmp_cases; lia.
Qed.

Lemma b_ptr_in_region_witness :
  b_ptr buf_6_of_8 5 = 3 /\ b_ptr (set_p buf_6_of_8 3) (-5) = 6.
Proof.
  assert (Hwf : wf buf_6_of_8) by (unfold wf; cbn; lia).
  destruct (b_ptr_in_region buf_6_of_8 5 Hwf ltac:(cbn; lia) ltac:(cbn; lia))
    as (Hm & _ & Hback).
  split; [rewrite Hm; reflexivity | exact Hback].
Defined.

(** X2.  The pointer normalisations apply one correction only: in a region
    of non-zero size [buffer_wrap_add] takes [0 .. 2*size-1] to the position
    modulo [size], [buffer_wrap_sub] does so for [-size .. size-1] and
    [buffer_pointer] for [-size .. 2*size-1]; a pointer further away is
    returned outside of the region by [buffer_pointer]. *)
Theorem buffer_pointer_normalises (b : buffer) (ptr : Z) :
  0 < size b ->
  (0 <= ptr < 2 * size b -> buffer_wrap_add b ptr = ptr mod size b) /\
  (- size b <= ptr < size b -> buffer_wrap_sub b ptr = ptr mod size b) /\
  (- size b <= ptr < 2 * size b ->
   buffer_pointer b ptr = ptr mod size b /\
   0 <= buffer_pointer b ptr < size b) /\
  (ptr < - size b \/ 2 * size b <= ptr ->
   ~ 0 <= buffer_pointer b ptr < size b).
Proof.
  intros Hsz. split; [| split; [| split]].
  - intros Hr. unfold buffer_wrap_add.
    destruct (Z.leb_spec 0 (ptr - size b)).
    + apply (Z.mod_unique_pos _ _ 1); lia.
    + apply (Z.mod_unique_pos _ _ 0); lia.
  - intros Hr. unfold buffer_wrap_sub.
    destruct (Z.ltb_spec ptr 0).
    + apply (Z.mod_unique_pos _ _ (-1)); lia.
    + apply (Z.mod_unique_pos _ _ 0); lia.
  - intros Hr.
    assert (Hm : buffer_pointer b ptr = ptr mod size b).
    { unfold buffer_pointer.
      destruct (Z.ltb_spec ptr 0).
      - apply (Z.mod_unique_pos _ _ (-1)); lia.
      - destruct (Z.leb_spec 0 (ptr - size b)).
        + apply (Z.mod_unique_pos _ _ 1); lia.
        + apply (Z.mod_unique_pos _ _ 0); lia. }
    split; [exact Hm|]. rewrite Hm. apply Z.mod_pos_bound. exact Hsz.
  - intros Hr. unfold buffer_pointer.
    destruct (Z.ltb_spec ptr 0); [lia|].
    destruct (Z.leb_spec 0 (ptr - size b)); lia.
Qed.

Lemma buffer_pointer_normalises_witness :
  buffer_pointer buf_6_of_8 11 = 3 /\ buffer_pointer buf_6_of_8 (-2) = 6.
Proof.
  destruct (buffer_pointer_normalises buf_6_of_8 11 ltac:(cbn; lia))
    as (_ & _ & H11 & _).
  destruct (buffer_pointer_normalises buf_6_of_8 (-2) ltac:(cbn; lia))
    as (_ & _ & H2 & _).
  split.
  - rewrite (proj1 (H11 ltac:(cbn; lia))). reflexivity.
  - rewrite (proj1 (H2 ltac:(cbn; lia))). reflexivity.
Defined.

(** X3.  For two positions of the region, [buffer_count] is the number of
    bytes to go forward from the first to reach the second, wrapping: it is
    in [0 .. size-1], advancing the first position by it and normalising
    gives the second, it is 0 only for equal positions, and the distances
    there and back add up to [size]. *)
Theorem buffer_count_distance (b : buffer) (from to : Z) :
  0 <= from < size b -> 0 <= to < size b ->
  0 <= buffer_count b from to < size b /\
  buffer_pointer b (from + buffer_count b from to) = to /\
  (buffer_count b from to = 0 <-> from = to) /\
  (from <> to ->
   buffer_count b from to + buffer_count b to from = size b).
Proof.
  intros Hf Ht. unfold buffer_count, buffer_pointer.
  cmp_cases; repeat split; intros; lia.
Qed.

Lemma buffer_count_distance_witness :
  buffer_count buf_6_of_8 6 3 = 5 /\
  buffer_pointer buf_6_of_8 (6 + buffer_count buf_6_of_8 6 3) = 3.
Proof.
  destruct (buffer_count_distance buf_6_of_8 6 3 ltac:(cbn; lia)
              ltac:(cbn; lia)) as (_ & Hback & _).
  split; [reflexivity | exact Hback].
Defined.

(** X4.  [buffer_flush] on a well-formed buffer moves no byte: the storage
    is the same, the output then reads back as the former output followed
    by the former input, no input is left, the buffer is still well formed,
    and a second flush changes nothing. *)
Theorem buffer_flush_schedules_input (b : buffer) :
  wf b ->
  data (buffer_flush b) = data b /\
  output_bytes (buffer_flush b) = output_bytes b ++ input_bytes b /\
  input_bytes (buffer_flush b) = [] /\
  size (buffer_flush b) = size b /\
  wf (buffer_flush b) /\
  buffer_flush (buffer_flush b) = buffer_flush b.
Proof.
  intros Hwf. pose proof Hwf as (Hi & Ho & Hio & Hp & Hps).
  assert (Hp' : p (buffer_flush b) = wrap (size b) (p b + i b)).
  { unfold buffer_flush, buffer_wrap_add, wrap. cbn [p set_p set_o set_i].
    cmp_cases; lia. }
  split; [reflexivity|]. split; [| split; [| split; [| split]]].
  - unfold output_bytes, input_bytes.
    change (o (buffer_flush b)) with (o b + i b).
    replace (Z.to_nat (o b + i b)) with (Z.to_nat (o b) + Z.to_nat (i b))%nat
      by lia.
    rewrite map_seq_app. f_equal.
    + apply map_seq_ext. intros k Hk. unfold b_peek.
      change (data (buffer_flush b)) with (data b). f_equal.
      replace (Z.of_nat k - o b) with (- (o b - Z.of_nat k)) by lia.
      rewrite (b_ptr_bwd b) by (assumption || lia).
      unfold b_ptr. rewrite Hp'. change (size (buffer_flush b)) with (size b).
      unfold wrap. cmp_cases; lia.
    + apply map_seq_ext. intros k Hk. unfold b_peek.
      change (data (buffer_flush b)) with (data b). f_equal.
      rewrite (b_ptr_fwd b) by (assumption || lia).
      unfold b_ptr. rewrite Hp'. change (size (buffer_flush b)) with (size b).
      unfold wrap. cmp_cases; lia.
  - reflexivity.
  - reflexivity.
  - unfold wf. rewrite Hp'.
    change (i (buffer_flush b)) with 0.
    change (o (buffer_flush b)) with (o b + i b).
    change (size (buffer_flush b)) with (size b).
    unfold wrap. cmp_cases; lia.
  - unfold buffer_flush at 1. cbn [set_p set_o set_i p size i o data].
    change (i (buffer_flush b)) with 0.
    change (o (buffer_flush b)) with (o b + i b).
    change (size (buffer_flush b)) with (size b).
    change (data (buffer_flush b)) with (data b).
    rewrite !Z.add_0_r.
    replace (buffer_wrap_add (buffer_flush b) (p (buffer_flush b)))
      with (p (buffer_flush b)).
    + reflexivity.
    + unfold buffer_wrap_add. change (size (buffer_flush b)) with (size b).
      rewrite Hp'. unfold wrap. cmp_cases; lia.
Qed.

Lemma buffer_flush_schedules_input_witness :
  output_bytes (buffer_flush buf_wrapped) = blk_ABCDE /\
  input_bytes (buffer_flush buf_wrapped) = [].
Proof.
  assert (Hwf : wf buf_wrapped) by (unfold wf; cbn; lia).
  destruct (buffer_flush_schedules_input buf_wrapped Hwf)
    as (_ & Hout & Hin & _).
  split; [rewrite Hout; vm_compute; reflexivity | exact Hin].
Defined.

End BufferPointers.

Section BufferBytes.

Import Buffer.

(** Storing one byte is a block copy of length 1. *)
Lemma store_put_at (m : Z -> byte) (sz pos : Z) (c : byte) (a : Z) :
  0 <= pos < sz -> store m pos c a = put_at m sz pos [c] 1 a.
Proof.
  intros Hpos. unfold store, put_at.
  cmp_cases; try lia; try reflexivity.
  subst a. replace (pos - pos) with 0 by lia. reflexivity.
Qed.

(** X5.  [bi_putchr] on a well-formed buffer that is not full appends the
    byte to the pending input and leaves the pending output and [p] as they
    were; on a full buffer it changes nothing. *)
Theorem bi_putchr_appends (b : buffer) (c : byte) :
  wf b ->
  (room b = 0 -> bi_putchr b c = b) /\
  (0 < room b ->
   input_bytes (bi_putchr b c) = input_bytes b ++ [c] /\
   output_bytes (bi_putchr b c) = output_bytes b /\
   p (bi_putchr b c) = p b /\
   wf (bi_putchr b c)).
Proof.
  intros Hwf. pose proof Hwf as (Hi & Ho & Hio & Hp & Hps).
  unfold bi_putchr, buffer_len, room. split; intros Hroom.
  - replace (i b + o b =? size b) with true
      by (symmetry; apply Z.eqb_eq; lia).
    reflexivity.
  - replace (i b + o b =? size b) with false
      by (symmetry; apply Z.eqb_neq; lia).
    set (b1 := set_i (set_data b (store (data b) (b_tail b) c)) (i b + 1)).
    destruct (input_append b b1 [c] 1) as (Hin & Hout & Hwf1);
      try reflexivity; try assumption; try (unfold room, len; cbn; lia).
    + intros a. subst b1. cbn [data set_i set_data].
      apply store_put_at. unfold b_tail.
      rewrite b_ptr_fwd by (assumption || lia). cmp_cases; lia.
    + split; [exact Hin|]. split; [exact Hout|].
      split; [reflexivity | exact Hwf1].
Qed.

Lemma bi_putchr_appends_witness :
  input_bytes (bi_putchr buf_wrapped x46) = blk_ABCDE ++ [x46].
Proof.
  assert (Hwf : wf buf_wrapped) by (unfold wf; cbn; lia).
  destruct (bi_putchr_appends buf_wrapped x46 Hwf) as (_ & Happ).
  destruct (Happ ltac:(vm_compute; reflexivity)) as (Hin & _).
  rewrite Hin. reflexivity.
Defined.

(** X6.  [bo_putchr] on a well-formed buffer that is not full appends the
    byte to the pending output and moves [p] one byte forward, wrapping; on
    a full buffer it changes nothing. *)
Theorem bo_putchr_appends (b : buffer) (c : byte) :
  wf b ->
  (room b = 0 -> bo_putchr b c = b) /\
  (0 < room b ->
   output_bytes (bo_putchr b c) = output_bytes b ++ [c] /\
   p (bo_putchr b c) = b_ptr b 1 /\
   o (bo_putchr b c) = o b + 1 /\
   i (bo_putchr b c) = i b).
Proof.
  intros Hwf. pose proof Hwf as (Hi & Ho & Hio & Hp & Hps).
  unfold bo_putchr, buffer_len, room. split; intros Hroom.
  - replace (i b + o b =? size b) with true
      by (symmetry; apply Z.eqb_eq; lia).
    reflexivity.
  - replace (i b + o b =? size b) with false
      by (symmetry; apply Z.eqb_neq; lia).
    set (b1 := set_o (set_p (set_data b (store (data b) (p b) c))
                        (b_ptr (set_data b (store (data b) (p b) c)) 1))
                 (o b + 1)).
    split; [| repeat split].
    apply (output_append b b1 [c] 1); try reflexivity; try assumption;
      try (unfold len; cbn; lia).
    intros a. subst b1. cbn [data set_o set_p set_data].
    apply store_put_at. lia.
Qed.

Lemma bo_putchr_appends_witness :
  output_bytes (bo_putchr (bo_putchr buf_6_of_8 x41) x42) = [x41; x42].
Proof.
  assert (Hwf : wf buf_6_of_8) by (unfold wf; cbn; lia).
  assert (Hwf1 : wf (bo_putchr buf_6_of_8 x41)) by (unfold wf; cbn; lia).
  destruct (bo_putchr_appends (bo_putchr buf_6_of_8 x41) x42 Hwf1)
    as (_ & Happ).
  destruct (Happ ltac:(vm_compute; reflexivity)) as (Hout & _).
  rewrite Hout. reflexivity.
Defined.

(** On a match, [bi_eat] deletes the needle's length. *)
Lemma bi_eat_match (b : buffer) (s : ist) :
  wf b -> s <> [] -> len s <= i b ->
  firstn (length s) (input_bytes b) = s ->
  bi_eat b s = (b_del b (len s), len s).
Proof.
  intros Hwf Hne Hlen Heq.
  destruct (b_isteq_input b s Hwf) as (_ & Hmatch & _).
  unfold bi_eat. rewrite (Hmatch Hlen Heq).
  pose proof (len_pos s Hne).
  replace (len s >? 0) with true; [reflexivity|].
  symmetry. rewrite Z.gtb_ltb. apply Z.ltb_lt. lia.
Qed.

(** X7.  What is injected is eaten first in, first out: on a well-formed
    buffer with no pending input, after [bi_istput] of [s1] then of [s2],
    both fitting, [bi_eat] of [s1] returns the length of [s1] and leaves
    exactly [s2] pending; and [bi_eat] of a string that is not what comes
    first changes nothing. *)
Theorem istput_then_eat_fifo (b : buffer) (s1 s2 : ist) :
  wf b -> i b = 0 -> s1 <> [] -> len s1 + len s2 <= room b ->
  let b2 := fst (bi_istput (fst (bi_istput b s1)) s2) in
  input_bytes b2 = s1 ++ s2 /\
  snd (bi_eat b2 s1) = len s1 /\
  input_bytes (fst (bi_eat b2 s1)) = s2 /\
  (forall s, 0 < len s -> firstn (length s) (s1 ++ s2) <> s ->
             bi_eat b2 s = (b2, if len s <=? len s1 + len s2 then -1 else 0)).
Proof.
  intros Hwf Hi0 Hne Hfit.
  pose proof (len_nonneg s1) as Hl1. pose proof (len_nonneg s2) as Hl2.
  assert (Hin0 : input_bytes b = []).
  { unfold input_bytes. rewrite Hi0. reflexivity. }
  pose proof (bi_istput_correct b s1 Hwf) as H1. cbv zeta in H1.
  replace (len s1 >? room b) with false in H1
    by (symmetry; rewrite Z.gtb_ltb; apply Z.ltb_ge; lia).
  destruct H1 as (_ & _ & Hs1 & Ho1 & Hi1 & Hin1 & _ & Hwf1).
  set (b1 := fst (bi_istput b s1)) in *.
  assert (Hroom1 : room b1 = room b - len s1)
    by (unfold room; rewrite Hs1, Ho1, Hi1; lia).
  pose proof (bi_istput_correct b1 s2 Hwf1) as H2. cbv zeta in H2.
  replace (len s2 >? room b1) with false in H2
    by (symmetry; rewrite Z.gtb_ltb; apply Z.ltb_ge; lia).
  destruct H2 as (_ & _ & Hs2 & Ho2 & Hi2 & Hin2 & _ & Hwf2).
  cbv zeta. set (b2 := fst (bi_istput b1 s2)) in *.
  rewrite Hin1, Hin0 in Hin2. cbn [app] in Hin2.
  assert (Hi2' : i b2 = len s1 + len s2) by lia.
  split; [exact Hin2|].
  assert (Hpre : firstn (length s1) (input_bytes b2) = s1).
  { rewrite Hin2, firstn_app, Nat.sub_diag, firstn_all. cbn [firstn].
    apply app_nil_r. }
  rewrite (bi_eat_match b2 s1 Hwf2 Hne ltac:(lia) Hpre). cbn [fst snd].
  split; [reflexivity|]. split.
  - destruct (b_del_input b2 (len s1) Hwf2 ltac:(lia)) as (Hdel & _).
    rewrite Hdel, Hin2. unfold len. rewrite Nat2Z.id.
    rewrite skipn_app, skipn_all, Nat.sub_diag. reflexivity.
  - intros s Hpos Hdiff. rewrite <- Hin2 in Hdiff.
    destruct (b_isteq_input b2 s Hwf2) as (Hshort & _ & Hmis).
    unfold bi_eat. rewrite <- Hi2'.
    destruct (Z.leb_spec (len s) (i b2)) as [Hle | Hgt].
    + rewrite (Hmis Hle Hdiff). reflexivity.
    + rewrite (Hshort Hgt). reflexivity.
Qed.

Lemma istput_then_eat_fifo_witness :
  input_bytes
    (fst (bi_eat (fst (bi_istput (fst (bi_istput buf_6_of_8 [x41; x42; x43]))
                         [x44; x45]))
            [x41; x42; x43])) = [x44; x45].
Proof.
  assert (Hwf : wf buf_6_of_8) by (unfold wf; cbn; lia).
  destruct (istput_then_eat_fifo buf_6_of_8 [x41; x42; x43] [x44; x45] Hwf
              eq_refl ltac:(discriminate) ltac:(vm_compute; discriminate))
    as (_ & _ & Hrest & _).
  exact Hrest.
Defined.

(** X8.  [bi_fast_delete] does not wrap: on a well-formed buffer, cutting
    [n] pending input bytes removes them from the front of the input when
    [p + n] stays inside the region, and takes [p] out of the region
    otherwise. *)
Theorem bi_fast_delete_contiguous (b : buffer) (n : Z) :
  wf b -> 0 <= n <= i b ->
  (p b + n < size b ->
   input_bytes (bi_fast_delete b n) = skipn (Z.to_nat n) (input_bytes b) /\
   wf (bi_fast_delete b n)) /\
  (0 < size b -> size b <= p b + n -> ~ wf (bi_fast_delete b n)).
Proof.
  intros Hwf Hn. pose proof Hwf as (Hi & Ho & Hio & Hp & Hps).
  split.
  - intros Hin. split.
    + unfold input_bytes.
      change (i (bi_fast_delete b n)) with (i b - n).
      rewrite skipn_map, skipn_seq. cbn [Nat.add].
      replace (Z.to_nat (i b) - Z.to_nat n)%nat with (Z.to_nat (i b - n))
        by lia.
      rewrite (map_seq_from _ (Z.to_nat n)).
      apply map_seq_ext. intros k Hk. unfold b_peek.
      change (data (bi_fast_delete b n)) with (data b). f_equal.
      rewrite (b_ptr_fwd b) by (assumption || lia).
      unfold b_ptr.
      change (p (bi_fast_delete b n)) with (p b + n).
      change (size (bi_fast_delete b n)) with (size b).
      cmp_cases; lia.
    + unfold wf.
      change (i (bi_fast_delete b n)) with (i b - n).
      change (o (bi_fast_delete b n)) with (o b).
      change (p (bi_fast_delete b n)) with (p b + n).
      change (size (bi_fast_delete b n)) with (size b). lia.
  - intros Hsz Hout (_ & _ & _ & _ & Hps').
    change (p (bi_fast_delete b n)) with (p b + n) in Hps'.
    change (size (bi_fast_delete b n)) with (size b) in Hps'. lia.
Qed.

Lemma bi_fast_delete_contiguous_witness :
  input_bytes (bi_fast_delete buf_wrapped 1) = [x42; x43; x44; x45] /\
  ~ wf (bi_fast_delete buf_wrapped 2).
Proof.
  assert (Hwf : wf buf_wrapped) by (unfold wf; cbn; lia).
  split.
  - destruct (bi_fast_delete_contiguous buf_wrapped 1 Hwf ltac:(cbn; lia))
      as (Hok & _).
    destruct (Hok ltac:(cbn; lia)) as (Hin & _). rewrite Hin. reflexivity.
  - destruct (bi_fast_delete_contiguous buf_wrapped 2 Hwf ltac:(cbn; lia))
      as (_ & Hout).
    apply Hout; cbn; lia.
Defined.

(** X9.  On a well-formed buffer [bi_space_for_replace] is 0 as soon as the
    pending input reaches the end of the region.  Otherwise, unless the
    output fills the whole buffer, it counts free bytes that follow the
    input without wrapping: all the free room when the output wraps, the
    bytes up to the end of the region when it does not; it is then at most
    the free room.  When the output fills the whole buffer it still answers
    [size - p], although no byte is free. *)
Theorem bi_space_for_replace_bounds (b : buffer) :
  wf b ->
  (size b <= p b + i b -> bi_space_for_replace b = 0) /\
  (p b + i b < size b -> o b < size b ->
   bi_space_for_replace b =
     (if p b <? o b then room b else size b - (p b + i b)) /\
   0 <= bi_space_for_replace b <= room b /\
   p b + i b + bi_space_for_replace b <= size b) /\
  (0 < size b -> o b = size b ->
   bi_space_for_replace b = size b - p b /\ room b = 0).
Proof.
  intros (Hi & Ho & Hio & Hp & Hps).
  unfold bi_space_for_replace, buffer_wrap_sub, room.
  split; [| split].
  - intros Hw. cmp_cases; lia.
  - intros Hw Hout. cmp_cases; repeat split; lia.
  - intros Hsz Hfull. cmp_cases; split; lia.
Qed.

(** An 8-byte buffer full of pending output. *)
Lemma bi_space_for_replace_bounds_witness :
  bi_space_for_replace buf_wrapped = 0 /\
  bi_space_for_replace buf_busy = 0 /\
  bi_space_for_replace (mkbuf 3 8 0 8 (fun _ => x00)) = 5.
Proof.
  split; [| split].
  - destruct (bi_space_for_replace_bounds buf_wrapped) as (Hw & _);
      [unfold wf; cbn; lia|].
    apply Hw. vm_compute; discriminate.
  - destruct (bi_space_for_replace_bounds buf_busy) as (Hw & _);
      [unfold wf; cbn; lia|].
    apply Hw. vm_compute; discriminate.
  - destruct (bi_space_for_replace_bounds (mkbuf 3 8 0 8 (fun _ => x00)))
      as (_ & _ & Hfull); [unfold wf; cbn; lia|].
    destruct Hfull as (Hr & _); [cbn; lia | reflexivity |]. exact Hr.
Defined.

(** X10.  On a well-formed buffer, [buffer_empty] holds exactly when neither
    input nor output is pending, and [buffer_not_empty] is then 0. *)
Theorem buffer_empty_iff (b : buffer) :
  wf b ->
  (buffer_empty b = true <-> input_bytes b = [] /\ output_bytes b = []) /\
  (buffer_not_empty b = 0 <-> buffer_len b = 0).
Proof.
  intros (Hi & Ho & Hio & Hp & Hps).
  assert (Hor : buffer_not_empty b = 0 <-> i b = 0 /\ o b = 0).
  { unfold buffer_not_empty. apply Z.lor_eq_0_iff. }
  assert (Hnil : forall (f : nat -> byte) n,
             map f (seq 0 (Z.to_nat n)) = [] <-> Z.to_nat n = 0%nat).
  { intros f n. destruct (Z.to_nat n); cbn; split; congruence. }
  split.
  - unfold buffer_empty. rewrite Z.eqb_eq, Hor.
    unfold input_bytes, output_bytes. rewrite !Hnil. lia.
  - rewrite Hor. unfold buffer_len. lia.
Qed.

Lemma buffer_empty_iff_witness :
  buffer_empty buf_6_of_8 = true /\ buffer_empty buf_wrapped = false.
Proof.
  split.
  - apply (buffer_empty_iff buf_6_of_8); [unfold wf; cbn; lia|].
    split; reflexivity.
  - destruct (buffer_empty buf_wrapped) eqn:He; [| reflexivity].
    apply (buffer_empty_iff buf_wrapped) in He; [| unfold wf; cbn; lia].
    destruct He as (Hin & _). vm_compute in Hin. discriminate.
Defined.

End BufferBytes.

Section BufferOutput.

Import Buffer.

(** X11.  On a well-formed buffer with no pending input and room for the
    whole block, [bo_putblk] returns the block's length; when the block ends
    at or before the end of the region the output reads back as the old
    output followed by the block and [p] has moved by the block's length;
    when the block crosses the end of the region, [p] ends [size - p] bytes
    after the start of the region, which is where it should be only for a
    block cut in two equal halves. *)
Theorem bo_putblk_pointer (b : buffer) (blk : list byte) :
  wf b -> i b = 0 -> 0 < len blk <= room b ->
  snd (bo_putblk b blk (len blk)) = len blk /\
  (p b + len blk <= size b ->
   p (fst (bo_putblk b blk (len blk))) = b_ptr b (len blk) /\
   output_bytes (fst (bo_putblk b blk (len blk))) = output_bytes b ++ blk) /\
  (size b < p b + len blk ->
   p (fst (bo_putblk b blk (len blk))) = size b - p b /\
   (p (fst (bo_putblk b blk (len blk))) = b_ptr b (len blk) <->
    len blk = 2 * (size b - p b))).
Proof.
  intros Hwf Hi0 Hlen.
  pose proof (b_contig_space_eq b Hwf) as Hc.
  pose proof Hwf as (Hi & Ho & Hio & Hp & Hps).
  unfold room in *. rewrite Hi0 in *.
  assert (Hclip : (if len blk >? size b - buffer_len b
                   then size b - buffer_len b else len blk) = len blk).
  { unfold buffer_len. rewrite Hi0. cmp_cases; lia. }
  assert (Hnz : (len blk =? 0) = false) by (apply Z.eqb_neq; lia).
  unfold bo_putblk. rewrite Hclip, Hnz.
  set (half := if b_contig_space b >? len blk then len blk
               else b_contig_space b).
  split; [reflexivity|]. split.
  - (* the block does not cross the end of the region: one copy *)
    intros Hfit.
    assert (Hh : half = len blk) by (unfold half; cmp_cases; lia).
    rewrite Hh, (Z.gtb_ltb (len blk) (len blk)), Z.ltb_irrefl.
    cbn [fst p set_o set_p]. split.
    + apply b_ptr_ext; reflexivity.
    + match goal with |- output_bytes ?x = _ => set (b1 := x) end.
      pose proof (output_append b b1 blk (len blk) Hwf) as Happ.
      rewrite firstn_len in Happ. apply Happ; try lia.
      * subst b1. cbn [p set_o set_p]. apply b_ptr_ext; reflexivity.
      * reflexivity.
      * reflexivity.
      * intros a. subst b1. cbn [data set_o set_p set_data].
        unfold memcpy, put_at. cmp_cases; try lia; reflexivity.
  - (* the block crosses the end of the region: two copies *)
    intros Hcross.
    assert (Hh : half = size b - p b /\ half < len blk)
      by (unfold half; cmp_cases; lia).
    destruct Hh as (Hh & Hlt).
    rewrite (Z.gtb_ltb (len blk) half), (proj2 (Z.ltb_lt _ _) Hlt).
    cbn [fst p set_o set_p set_data].
    assert (Hp1 : b_ptr (set_data b (memcpy (data b) (p b) blk half)) half
                  = 0).
    { rewrite (b_ptr_ext b) by reflexivity.
      rewrite b_ptr_fwd by (assumption || lia). cmp_cases; lia. }
    rewrite Hp1.
    assert (Hfinal : b_ptr
                       (set_data
                          (set_p (set_data b (memcpy (data b) (p b) blk half))
                             0)
                          (memcpy
                             (data (set_p (set_data b
                                             (memcpy (data b) (p b) blk half))
                                      0))
                             0 (skipn (Z.to_nat half) blk) (len blk - half)))
                       half = size b - p b).
    { unfold b_ptr. cbn [p size set_p set_data]. cmp_cases; lia. }
    rewrite Hfinal. split; [reflexivity|].
    rewrite b_ptr_fwd by (assumption || lia).
    destruct (Z.ltb_spec (p b + len blk) (size b)); lia.
Qed.

Lemma bo_putblk_pointer_witness :
  output_bytes (fst (bo_putblk buf_6_of_8 [x41; x42] 2)) = [x41; x42] /\
  p (fst (bo_putblk buf_6_of_8 blk_ABCDE 5)) = 2.
Proof.
  assert (Hwf : wf buf_6_of_8) by (unfold wf; cbn; lia).
  split.
  - destruct (bo_putblk_pointer buf_6_of_8 [x41; x42] Hwf eq_refl
                ltac:(vm_compute; split; [reflexivity | discriminate]))
      as (_ & Hfit & _).
    destruct (Hfit ltac:(vm_compute; discriminate)) as (_ & Hout).
    exact Hout.
  - destruct (bo_putblk_pointer buf_6_of_8 blk_ABCDE Hwf eq_refl
                ltac:(vm_compute; split; [reflexivity | discriminate]))
      as (_ & _ & Hcross).
    destruct (Hcross ltac:(vm_compute; reflexivity)) as (Hp & _).
    exact Hp.
Defined.

End BufferOutput.

(* ------------------------------------------------------------------ *)
(** ** More of the buffer pool                                      *)
(* ------------------------------------------------------------------ *)

Section PoolRelease.

Import Pool.

Ltac pool_step :=
  cbv beta iota zeta delta
    [b_alloc_margin b_alloc b_alloc_fast pool_alloc_dirty pool_get_first
     b_free b_drop __b_drop pool_free
     bind ret get_buf buf_size get_pool set_pool set_buf emit
     HA_SPIN_LOCK HA_SPIN_UNLOCK __pool_get_first __pool_refill_alloc
     buf_setup pool_head_buffer heap buffers buf trace free_list allocated
     used limit size CONFIG_HAP_LOCKLESS_POOLS sizeof_struct_buffer
     fst snd negb].

(** The slow path changes neither the object size nor the limit of the
    pool. *)
Lemma refill_loop_size (h : list Z) :
  forall (stop : Z) (ph : pool_head),
    size (snd (fst (refill_loop h stop ph))) = size ph.
Proof.
  induction h as [|a h IH]; intros stop ph; cbn [refill_loop].
  - destruct (negb (limit ph =? 0) && (limit ph <=? allocated ph));
      reflexivity.
  - destruct (negb (limit ph =? 0) && (limit ph <=? allocated ph));
      [reflexivity|].
    destruct (allocated ph + 1 >? stop); [reflexivity|].
    rewrite IH. reflexivity.
Qed.

(** X12.  [b_free] always leaves the handle on [buf_empty]; when the handle
    was on a buffer of size 0 (the static buffers) the pool is not touched
    at all; when it was on an allocated buffer that buffer goes back on top
    of the free list and one object less is in use; and a second [b_free]
    changes nothing, so that no buffer is given back twice. *)
Theorem b_free_releases_once (cfg : config) (s : state) :
  buf (snd (b_free cfg s)) = buf_empty /\
  (fst (buf_size (buf s) s) = 0 ->
   snd (b_free cfg s) =
   mkstate (pool_head_buffer s) (heap s) (buffers s) buf_empty (trace s)) /\
  (forall a, buf s = buf_at a -> Buffer.size (buffers s a) <> 0 ->
   free_list (pool_head_buffer (snd (b_free cfg s)))
     = a :: free_list (pool_head_buffer s) /\
   used (pool_head_buffer (snd (b_free cfg s)))
     = used (pool_head_buffer s) - 1 /\
   allocated (pool_head_buffer (snd (b_free cfg s)))
     = allocated (pool_head_buffer s)) /\
  snd (b_free cfg (snd (b_free cfg s))) = snd (b_free cfg s).
Proof.
  destruct s as [ph h bufs cur tr], cfg as [lockless ssb].
  assert (Hsecond : forall st, buf st = buf_empty ->
            snd (b_free (mkconfig lockless ssb) st) = st).
  { intros [ph' h' bufs' cur' tr'] Hb. cbn [buf] in Hb. subst cur'.
    pool_step. reflexivity. }
  assert (Hfirst : buf (snd (b_free (mkconfig lockless ssb)
                               (mkstate ph h bufs cur tr))) = buf_empty).
  { pool_step. destruct cur as [| |a];
      [reflexivity | reflexivity |].
    destruct (Buffer.size (bufs a) =? 0), lockless; reflexivity. }
  split; [exact Hfirst|]. split; [| split].
  - pool_step. intros Hsz. rewrite Hsz. reflexivity.
  - intros a Hcur Hsz. cbn [buf buffers] in Hcur, Hsz. subst cur.
    apply Z.eqb_neq in Hsz. pool_step. rewrite Hsz.
    destruct lockless; repeat split; reflexivity.
  - apply Hsecond. exact Hfirst.
Qed.

Lemma b_free_releases_once_witness :
  free_list (pool_head_buffer (snd (b_free cfg_locked pool_holding)))
    = [100; 200] /\
  snd (b_free cfg_locked pool4) = pool4.
Proof.
  split.
  - destruct (b_free_releases_once cfg_locked pool_holding)
      as (_ & _ & Hrel & _).
    destruct (Hrel 100 eq_refl ltac:(vm_compute; discriminate)) as (Hfl & _).
    exact Hfl.
  - destruct (b_free_releases_once cfg_locked pool4) as (_ & Hnop & _).
    exact (Hnop eq_refl).
Defined.

(** X13.  Whichever of [b_alloc], [b_alloc_fast] and [b_alloc_margin] (the
    latter called without a buffer held) returns a buffer, the buffer is a
    pool object, it is empty with [p] at the start of its storage, its size
    is the pool's object size less the size of [struct buffer], and the
    object size of the pool has not changed; if that size is not 0, a
    [b_alloc_margin] that follows returns the same buffer and changes
    nothing. *)
Theorem alloc_hands_reset_buffer
  (cfg : config) (f : allocator) (s : state) (b : buffer_ptr) :
  (forall m, f = AllocMargin m -> fst (buf_size (buf s) s) = 0) ->
  fst (run_alloc cfg f s) = Some b ->
  exists a,
    b = buf_at a /\
    buf (snd (run_alloc cfg f s)) = buf_at a /\
    Buffer.i (buffers (snd (run_alloc cfg f s)) a) = 0 /\
    Buffer.o (buffers (snd (run_alloc cfg f s)) a) = 0 /\
    Buffer.p (buffers (snd (run_alloc cfg f s)) a) = 0 /\
    Buffer.size (buffers (snd (run_alloc cfg f s)) a)
      = size (pool_head_buffer s) - sizeof_struct_buffer cfg /\
    size (pool_head_buffer (snd (run_alloc cfg f s)))
      = size (pool_head_buffer s) /\
    (size (pool_head_buffer s) - sizeof_struct_buffer cfg <> 0 ->
     forall m, b_alloc_margin cfg m (snd (run_alloc cfg f s))
               = (Some b, snd (run_alloc cfg f s))).
Proof.
  intros Hheld Hres.
  assert (Hmain : exists a,
    b = buf_at a /\
    buf (snd (run_alloc cfg f s)) = buf_at a /\
    Buffer.i (buffers (snd (run_alloc cfg f s)) a) = 0 /\
    Buffer.o (buffers (snd (run_alloc cfg f s)) a) = 0 /\
    Buffer.p (buffers (snd (run_alloc cfg f s)) a) = 0 /\
    Buffer.size (buffers (snd (run_alloc cfg f s)) a)
      = size (pool_head_buffer s) - sizeof_struct_buffer cfg /\
    size (pool_head_buffer (snd (run_alloc cfg f s)))
      = size (pool_head_buffer s)).
  { destruct f as [| | m]; cbn [run_alloc] in *.
    - (* b_alloc *)
      revert Hres.
      destruct s as [[fl al us li sz] h bufs cur tr], cfg as [lockless ssb].
      pose proof (refill_loop_size h (0 + us) (mkpool fl al us li sz))
        as Hsize.
      destruct fl as [|x fl]; destruct lockless; pool_step;
        try (destruct (refill_loop _ _ _) as [[[y|] ph'] h'];
             cbn [fst snd size] in Hsize; pool_step);
        intros Hres; try discriminate; injection Hres as <-;
        eexists; (split; [reflexivity|]); rewrite ?Z.eqb_refl; subst;
        repeat split; try reflexivity.
    - (* b_alloc_fast *)
      revert Hres.
      destruct s as [[fl al us li sz] h bufs cur tr], cfg as [lockless ssb].
      destruct fl as [|x fl]; destruct lockless; pool_step;
        intros Hres; try discriminate; injection Hres as <-;
        exists x; rewrite ?Z.eqb_refl; repeat split; reflexivity.
    - (* b_alloc_margin, nothing held *)
      specialize (Hheld m eq_refl). revert Hres Hheld.
      destruct s as [[fl al us li sz] h bufs cur tr], cfg as [lockless ssb].
      pose proof (refill_loop_size h (m + us) (mkpool fl al us li sz))
        as Hsize.
      pool_step. intros Hres Hsz. revert Hres. rewrite Hsz.
      change (0 =? 0) with true. pool_step.
      destruct lockless; pool_step;
        destruct (Pool.uint (al - us) >? Pool.uint m);
        destruct fl as [|x fl]; pool_step;
        try (destruct (refill_loop _ _ _) as [[[y|] ph'] h'];
             cbn [fst snd size] in Hsize; pool_step);
        intros Hres; try discriminate; injection Hres as <-;
        eexists; (split; [reflexivity|]); rewrite ?Z.eqb_refl; subst;
        repeat split; try reflexivity. }
  destruct Hmain as (a & Hb & Hbuf & Hi & Ho & Hp & Hsz & Hps).
  exists a. repeat (split; [assumption|]).
  intros Hnz m. subst b. rewrite <- Hbuf.
  apply b_alloc_margin_held.
  unfold buf_size. cbn [fst]. rewrite Hbuf, Hsz. exact Hnz.
Qed.

Lemma alloc_hands_reset_buffer_witness :
  b_alloc_margin cfg_locked 3 (snd (b_alloc_fast cfg_locked pool4)) =
  (Some (buf_at 100), snd (b_alloc_fast cfg_locked pool4)).
Proof.
  destruct (alloc_hands_reset_buffer cfg_locked AllocFast pool4 (buf_at 100))
    as (a & _ & _ & _ & _ & _ & _ & _ & Hagain).
  - intros m Hm. discriminate Hm.
  - vm_compute. reflexivity.
  - apply Hagain. vm_compute. discriminate.
Defined.

(** X14.  [b_alloc_fast] only picks from the pool: it takes no memory from
    the system and never changes the number of allocated objects, and it
    returns NULL exactly when the free list is empty, whatever memory the
    system has left; [b_alloc] in the same situation, when the system has
    memory and the pool is below its limit, returns a new object. *)
Theorem b_alloc_fast_only_picks (cfg : config) (s : state) :
  heap (snd (b_alloc_fast cfg s)) = heap s /\
  allocated (pool_head_buffer (snd (b_alloc_fast cfg s)))
    = allocated (pool_head_buffer s) /\
  (fst (b_alloc_fast cfg s) = None <-> free_list (pool_head_buffer s) = []) /\
  (forall a h,
     free_list (pool_head_buffer s) = [] -> heap s = a :: h ->
     used (pool_head_buffer s) <= allocated (pool_head_buffer s) ->
     limit (pool_head_buffer s) = 0
     \/ allocated (pool_head_buffer s) < limit (pool_head_buffer s) ->
     fst (b_alloc cfg s) = Some (buf_at a) /\
     allocated (pool_head_buffer (snd (b_alloc cfg s)))
       = allocated (pool_head_buffer s) + 1).
Proof.
  destruct s as [[fl al us li sz] h bufs cur tr], cfg as [lockless ssb].
  cbn [pool_head_buffer heap free_list allocated used limit].
  split; [| split; [| split]].
  - destruct fl, lockless; reflexivity.
  - destruct fl, lockless; reflexivity.
  - destruct fl, lockless; pool_step; split; congruence.
  - intros a h' -> -> Hua Hlim.
    assert (Hloop : refill_loop (a :: h') (0 + us) (mkpool [] al us li sz)
                    = (Some a, mkpool [] (al + 1) (us + 1) li sz, h')).
    { cbn [refill_loop limit allocated used free_list size].
      replace (negb (li =? 0) && (li <=? al)) with false.
      - replace (al + 1 >? 0 + us) with true; [reflexivity|].
        symmetry. rewrite Z.gtb_ltb. apply Z.ltb_lt. lia.
      - symmetry. apply andb_false_iff. destruct Hlim as [Hz | Hlt].
        + left. subst li. reflexivity.
        + right. apply Z.leb_gt. exact Hlt. }
    destruct lockless; pool_step; rewrite Hloop; pool_step;
      split; reflexivity.
Qed.

Lemma b_alloc_fast_only_picks_witness :
  fst (b_alloc_fast cfg_locked
         (mkstate (mkpool [] 0 0 0 16416) [7; 8] (buffers pool4) buf_empty []))
    = None /\
  fst (b_alloc cfg_locked
         (mkstate (mkpool [] 0 0 0 16416) [7; 8] (buffers pool4) buf_empty []))
    = Some (buf_at 7).
Proof.
  destruct (b_alloc_fast_only_picks cfg_locked
              (mkstate (mkpool [] 0 0 0 16416) [7; 8] (buffers pool4)
                 buf_empty [])) as (_ & _ & Hnone & Hgrow).
  split.
  - apply Hnone. reflexivity.
  - apply (Hgrow 7 [8] eq_refl eq_refl); cbn; lia.
Defined.

(** X15.  Taking a buffer with [b_alloc_fast] and giving it back with
    [b_free] leaves the pool as it was (same free list, same counters) and
    the handle on [buf_empty], provided the pool's objects are larger than
    [struct buffer]. *)
Theorem alloc_fast_then_free (cfg : config) (s : state) :
  free_list (pool_head_buffer s) <> [] ->
  size (pool_head_buffer s) - sizeof_struct_buffer cfg <> 0 ->
  pool_head_buffer (snd (b_free cfg (snd (b_alloc_fast cfg s))))
    = pool_head_buffer s /\
  heap (snd (b_free cfg (snd (b_alloc_fast cfg s)))) = heap s /\
  buf (snd (b_free cfg (snd (b_alloc_fast cfg s)))) = buf_empty.
Proof.
  destruct s as [[fl al us li sz] h bufs cur tr], cfg as [lockless ssb].
  cbn [pool_head_buffer free_list size sizeof_struct_buffer].
  intros Hfl Hsz. destruct fl as [|a fl]; [congruence|].
  apply Z.eqb_neq in Hsz.
  destruct lockless; pool_step; rewrite Z.eqb_refl;
    cbv beta iota zeta delta [Buffer.b_reset Buffer.size];
    rewrite Hsz; pool_step;
    (split; [f_equal; lia | split; reflexivity]).
Qed.

Lemma alloc_fast_then_free_witness :
  pool_head_buffer
    (snd (b_free cfg_locked (snd (b_alloc_fast cfg_locked pool4))))
  = pool_head_buffer pool4.
Proof.
  apply (alloc_fast_then_free cfg_locked pool4);
    vm_compute; discriminate.
Defined.

End PoolRelease.

(* ------------------------------------------------------------------ *)
(** ** More of stconn.h                                             *)
(* ------------------------------------------------------------------ *)

Section FlagFacts.

(** Bit sets: what setting and clearing a mask do. *)
Lemma land_lor_same (f m : Z) : Z.land (Z.lor f m) m = m.
Proof.
  apply Z.bits_inj'. intros n _. rewrite Z.land_spec, Z.lor_spec.
  destruct (Z.testbit f n), (Z.testbit m n); reflexivity.
Qed.

Lemma land_lnot_same (f m : Z) : Z.land (Z.land f (Z.lnot m)) m = 0.
Proof.
  apply Z.bits_inj'. intros n Hn.
  rewrite !Z.land_spec, Z.lnot_spec, Z.bits_0 by exact Hn.
  destruct (Z.testbit f n), (Z.testbit m n); reflexivity.
Qed.

Lemma lor_then_lnot (f m : Z) :
  Z.land (Z.lor f m) (Z.lnot m) = Z.land f (Z.lnot m).
Proof.
  apply Z.bits_inj'. intros n Hn.
  rewrite !Z.land_spec, Z.lor_spec, Z.lnot_spec by exact Hn.
  destruct (Z.testbit f n), (Z.testbit m n); reflexivity.
Qed.

Lemma land_lnot_disjoint (f m : Z) :
  Z.land f m = 0 -> Z.land f (Z.lnot m) = f.
Proof.
  intros H. apply Z.bits_inj'. intros n Hn.
  apply (f_equal (fun z => Z.testbit z n)) in H.
  rewrite Z.land_spec, Z.bits_0 in H.
  rewrite Z.land_spec, Z.lnot_spec by exact Hn.
  destruct (Z.testbit f n), (Z.testbit m n); try reflexivity; discriminate.
Qed.

Lemma land_mono_nonzero (f f' t : Z) :
  Z.land f f' = f -> Z.land f t <> 0 -> Z.land f' t <> 0.
Proof.
  intros Hsub Hf Hf'. apply Hf.
  rewrite <- Hsub, <- Z.land_assoc, Hf'. apply Z.land_0_r.
Qed.

Lemma land_lor_keep (f m : Z) : Z.land f (Z.lor f m) = f.
Proof.
  apply Z.bits_inj'. intros n _. rewrite Z.land_spec, Z.lor_spec.
  destruct (Z.testbit f n), (Z.testbit m n); reflexivity.
Qed.

Lemma land_sub_trans (f g h : Z) :
  Z.land f g = f -> Z.land g h = g -> Z.land f h = f.
Proof.
  intros Hfg Hgh. rewrite <- Hfg at 1.
  rewrite <- Z.land_assoc, Hgh. exact Hfg.
Qed.

End FlagFacts.

Section StconnActivity.

Import Stconn.

(** X16.  The endpoint flag accessors behave as operations on a set of
    bits: a mask that was just set tests true unless it is 0, a mask that
    was just cleared tests false, setting twice is setting once, clearing
    after setting clears, which gives the descriptor back when none of the
    mask's bits was set at first; a bit outside the mask is touched by
    neither; after [se_fl_zero] nothing tests true and [se_fl_get] returns
    what [se_fl_setall] stored. *)
Theorem se_fl_set_clr_test (sd : sedesc) (m : Z) :
  (se_fl_test (se_fl_set sd m) m = true <-> m <> 0) /\
  se_fl_test (se_fl_clr sd m) m = false /\
  se_fl_set (se_fl_set sd m) m = se_fl_set sd m /\
  se_fl_clr (se_fl_set sd m) m = se_fl_clr sd m /\
  (se_fl_test sd m = false -> se_fl_clr (se_fl_set sd m) m = sd) /\
  (forall n, 0 <= n -> Z.testbit m n = false ->
     Z.testbit (flags (se_fl_set sd m)) n = Z.testbit (flags sd) n /\
     Z.testbit (flags (se_fl_clr sd m)) n = Z.testbit (flags sd) n) /\
  se_fl_test (se_fl_zero sd) m = false /\
  se_fl_get (se_fl_setall sd m) = m.
Proof.
  destruct sd as [e c f l b].
  unfold se_fl_test, se_fl_set, se_fl_clr, se_fl_zero, se_fl_setall,
    se_fl_get.
  cbn [flags se conn lra fsb].
  split; [| split; [| split; [| split; [| split; [| split; [| split]]]]]].
  - rewrite land_lor_same, negb_true_iff, Z.eqb_neq. tauto.
  - rewrite land_lnot_same. reflexivity.
  - f_equal. rewrite <- Z.lor_assoc, Z.lor_diag. reflexivity.
  - f_equal. apply lor_then_lnot.
  - intros Ht. apply negb_false_iff, Z.eqb_eq in Ht.
    f_equal. rewrite lor_then_lnot. now apply land_lnot_disjoint.
  - intros n Hn Hbit. rewrite Z.lor_spec, Z.land_spec, Z.lnot_spec, Hbit
      by exact Hn.
    split; [apply orb_false_r | apply andb_true_r].
  - reflexivity.
  - reflexivity.
Qed.

Lemma se_fl_set_clr_test_witness :
  se_fl_clr (se_fl_set (mksedesc 0 None 0x00000001 0 0) 0x00000300)
    0x00000300 = mksedesc 0 None 0x00000001 0 0.
Proof.
  destruct (se_fl_set_clr_test (mksedesc 0 None 0x00000001 0 0) 0x00000300)
    as (_ & _ & _ & _ & Hback & _).
  apply Hback. reflexivity.
Defined.

Context {F : se_flags} {G : se_flags_app} {S : sc_fl} {T : ticks}.

Lemma need_have_flag (now_ms now' fl : Z) (s : stconn) :
  fl <> 0 ->
  Z.land (sc_flags (need_flag fl s)) fl <> 0 /\
  Z.land (sc_flags (have_flag now_ms fl (need_flag fl s))) fl = 0 /\
  sc_ep_lra (have_flag now_ms fl (need_flag fl s)) = now_ms /\
  (Z.land (sc_flags s) fl = 0 ->
   have_flag now_ms fl s = s /\
   sc_flags (have_flag now_ms fl (need_flag fl s)) = sc_flags s) /\
  have_flag now' fl (have_flag now_ms fl (need_flag fl s))
    = have_flag now_ms fl (need_flag fl s) /\
  need_flag fl (need_flag fl s) = need_flag fl s /\
  sc_sedesc (need_flag fl s) = sc_sedesc s.
Proof.
  intros Hfl. destruct s as [sd f io].
  unfold have_flag, need_flag, with_sc_flags, sc_ep_report_read_activity,
    sc_ep_lra, with_sedesc.
  cbn [sc_flags sc_sedesc ioto].
  assert (Hset : (Z.land (Z.lor f fl) fl =? 0) = false)
    by (rewrite land_lor_same; apply Z.eqb_neq; exact Hfl).
  rewrite Hset. cbn [negb sc_flags sc_sedesc ioto lra].
  rewrite land_lnot_same. cbn [Z.eqb negb].
  split; [rewrite land_lor_same; exact Hfl|].
  split; [reflexivity|]. split; [reflexivity|]. split; [| split; [| split]].
  - intros Hclear. rewrite Hclear. cbn [Z.eqb negb].
    split; [reflexivity|].
    rewrite lor_then_lnot. now apply land_lnot_disjoint.
  - reflexivity.
  - f_equal. rewrite <- Z.lor_assoc, Z.lor_diag. reflexivity.
  - reflexivity.
Qed.

(** X17.  Back-pressure flags: after [sc_need_room] the connector is
    waiting for room; the [sc_have_room] that follows lowers the flag and
    records the date as last read activity; a second [sc_have_room], or one
    made when no room was needed, changes nothing and reports no activity;
    raising then lowering the flag leaves the other connector flags as they
    were.  The same holds of [sc_need_buff] with [sc_have_buff] and of
    [sc_wont_read] with [sc_will_read]. *)
Theorem need_then_have (now_ms now' : Z) (s : stconn) :
  SC_FL_NEED_ROOM <> 0 -> SC_FL_NEED_BUFF <> 0 -> SC_FL_WONT_READ <> 0 ->
  (sc_waiting_room (sc_need_room s) = true /\
   sc_waiting_room (sc_have_room now_ms (sc_need_room s)) = false /\
   sc_ep_lra (sc_have_room now_ms (sc_need_room s)) = now_ms /\
   (sc_waiting_room s = false ->
    sc_have_room now_ms s = s /\
    sc_flags (sc_have_room now_ms (sc_need_room s)) = sc_flags s) /\
   sc_have_room now' (sc_have_room now_ms (sc_need_room s))
     = sc_have_room now_ms (sc_need_room s)) /\
  (sc_ep_lra (sc_have_buff now_ms (sc_need_buff s)) = now_ms /\
   Z.land (sc_flags (sc_have_buff now_ms (sc_need_buff s))) SC_FL_NEED_BUFF
     = 0 /\
   (Z.land (sc_flags s) SC_FL_NEED_BUFF = 0 ->
    sc_have_buff now_ms s = s /\
    sc_flags (sc_have_buff now_ms (sc_need_buff s)) = sc_flags s) /\
   sc_have_buff now' (sc_have_buff now_ms (sc_need_buff s))
     = sc_have_buff now_ms (sc_need_buff s)) /\
  (sc_ep_lra (sc_will_read now_ms (sc_wont_read s)) = now_ms /\
   Z.land (sc_flags (sc_will_read now_ms (sc_wont_read s))) SC_FL_WONT_READ
     = 0 /\
   (Z.land (sc_flags s) SC_FL_WONT_READ = 0 ->
    sc_will_read now_ms s = s /\
    sc_flags (sc_will_read now_ms (sc_wont_read s)) = sc_flags s) /\
   sc_will_read now' (sc_will_read now_ms (sc_wont_read s))
     = sc_will_read now_ms (sc_wont_read s)).
Proof.
  intros Hroom Hbuff Hread.
  destruct (need_have_flag now_ms now' SC_FL_NEED_ROOM s Hroom)
    as (R1 & R2 & R3 & R4 & R5 & _).
  destruct (need_have_flag now_ms now' SC_FL_NEED_BUFF s Hbuff)
    as (_ & B2 & B3 & B4 & B5 & _).
  destruct (need_have_flag now_ms now' SC_FL_WONT_READ s Hread)
    as (_ & W2 & W3 & W4 & W5 & _).
  split; [| split].
  - change (sc_need_room s) with (need_flag SC_FL_NEED_ROOM s).
    change (sc_have_room now_ms) with (have_flag now_ms SC_FL_NEED_ROOM).
    change (sc_have_room now') with (have_flag now' SC_FL_NEED_ROOM).
    unfold sc_waiting_room.
    split; [apply negb_true_iff, Z.eqb_neq; exact R1|].
    split; [rewrite R2; reflexivity|]. split; [exact R3|].
    split; [| exact R5].
    intros Hw. apply negb_false_iff, Z.eqb_eq in Hw. exact (R4 Hw).
  - change (sc_need_buff s) with (need_flag SC_FL_NEED_BUFF s).
    change (sc_have_buff now_ms) with (have_flag now_ms SC_FL_NEED_BUFF).
    change (sc_have_buff now') with (have_flag now' SC_FL_NEED_BUFF).
    repeat split; try assumption; apply B4; assumption.
  - change (sc_wont_read s) with (need_flag SC_FL_WONT_READ s).
    change (sc_will_read now_ms) with (have_flag now_ms SC_FL_WONT_READ).
    change (sc_will_read now') with (have_flag now' SC_FL_WONT_READ).
    repeat split; try assumption; apply W4; assumption.
Qed.

(** X18.  The date of the first blocked send sticks: on a connector whose
    [fsb] is not set, [sc_ep_report_blocked_send] records the date, and
    when that date counts as set a later report leaves it alone; a date
    that does not count as set (the value meaning "never") is replaced by
    the next report.  [sc_ep_report_send_activity] resets [fsb] to
    TICK_ETERNITY, so that the next blocked send is recorded again, and it
    reports a read activity unless the connector has SC_FL_INDEP_STR. *)
Theorem blocked_send_first_date (t1 t2 : Z) (s : stconn) :
  tick_isset TICK_ETERNITY = false ->
  (tick_isset (sc_ep_fsb s) = true -> sc_ep_report_blocked_send t1 s = s) /\
  (tick_isset (sc_ep_fsb s) = false ->
   sc_ep_fsb (sc_ep_report_blocked_send t1 s) = t1 /\
   (tick_isset t1 = true ->
    sc_ep_report_blocked_send t2 (sc_ep_report_blocked_send t1 s)
    = sc_ep_report_blocked_send t1 s) /\
   (tick_isset t1 = false ->
    sc_ep_fsb (sc_ep_report_blocked_send t2
                 (sc_ep_report_blocked_send t1 s)) = t2)) /\
  sc_ep_fsb (sc_ep_report_send_activity t1 s) = TICK_ETERNITY /\
  sc_ep_fsb (sc_ep_report_blocked_send t2 (sc_ep_report_send_activity t1 s))
    = t2 /\
  (Z.land (sc_flags s) SC_FL_INDEP_STR = 0 ->
   sc_ep_lra (sc_ep_report_send_activity t1 s) = t1) /\
  (Z.land (sc_flags s) SC_FL_INDEP_STR <> 0 ->
   sc_ep_lra (sc_ep_report_send_activity t1 s) = sc_ep_lra s).
Proof.
  intros Hnever. destruct s as [[e c f l b] sf io].
  unfold sc_ep_report_blocked_send, sc_ep_report_send_activity,
    sc_ep_report_read_activity, sc_ep_fsb, sc_ep_lra, with_sedesc.
  cbn [sc_sedesc sc_flags ioto se conn flags lra fsb].
  split; [| split; [| split; [| split; [| split]]]].
  - intros Hset. rewrite Hset. reflexivity.
  - intros Hunset. rewrite Hunset.
    cbn [negb sc_sedesc sc_flags ioto se conn flags lra fsb].
    split; [reflexivity|]. split; intros Ht1; rewrite Ht1; reflexivity.
  - destruct (Z.land sf SC_FL_INDEP_STR =? 0); reflexivity.
  - destruct (Z.land sf SC_FL_INDEP_STR =? 0);
      cbn [sc_sedesc fsb]; rewrite Hnever; reflexivity.
  - intros Hz. rewrite Hz. reflexivity.
  - intros Hnz. apply Z.eqb_neq in Hnz. rewrite Hnz. reflexivity.
Qed.

(** X19.  Consumption by the endpoint: after [se_wont_consume] the flag
    tests true; [se_will_consume] then clears it and counts as a send
    activity ([fsb] reset), whereas on an endpoint that was not refusing to
    consume it changes nothing and reports nothing; [se_need_more_data]
    leaves SE_FL_WAIT_DATA set and, when the two flags have no bit in
    common, SE_FL_WONT_CONSUME clear. *)
Theorem will_consume_after_wont (now_ms : Z) (s : stconn) :
  SE_FL_WONT_CONSUME <> 0 -> SE_FL_WAIT_DATA <> 0 ->
  se_fl_test (sc_sedesc (se_wont_consume s)) SE_FL_WONT_CONSUME = true /\
  se_fl_test (sc_sedesc (se_will_consume now_ms (se_wont_consume s)))
    SE_FL_WONT_CONSUME = false /\
  sc_ep_fsb (se_will_consume now_ms (se_wont_consume s)) = TICK_ETERNITY /\
  (se_fl_test (sc_sedesc s) SE_FL_WONT_CONSUME = false ->
   se_will_consume now_ms s = s) /\
  se_fl_test (sc_sedesc (se_need_more_data now_ms s)) SE_FL_WAIT_DATA
    = true /\
  (Z.land SE_FL_WAIT_DATA SE_FL_WONT_CONSUME = 0 ->
   se_fl_test (sc_sedesc (se_need_more_data now_ms s)) SE_FL_WONT_CONSUME
     = false).
Proof.
  intros Hwc Hwd. destruct s as [[e c f l b] sf io].
  assert (Hact : forall s0,
            flags (sc_sedesc (sc_ep_report_send_activity now_ms s0))
              = flags (sc_sedesc s0) /\
            sc_ep_fsb (sc_ep_report_send_activity now_ms s0)
              = TICK_ETERNITY).
  { intros [[e0 c0 f0 l0 b0] sf0 io0].
    unfold sc_ep_report_send_activity, sc_ep_report_read_activity,
      sc_ep_fsb, with_sedesc.
    cbn [sc_sedesc sc_flags ioto se conn flags lra fsb].
    destruct (Z.land sf0 SC_FL_INDEP_STR =? 0); split; reflexivity. }
  assert (Hwill : forall s0,
            se_fl_test (sc_sedesc (se_will_consume now_ms s0))
              SE_FL_WONT_CONSUME = false).
  { intros s0. unfold se_will_consume.
    destruct (se_fl_test (sc_sedesc s0) SE_FL_WONT_CONSUME) eqn:Ht;
      [| exact Ht].
    unfold se_fl_test. rewrite (proj1 (Hact _)).
    unfold with_sedesc, se_fl_clr. cbn [sc_sedesc flags].
    rewrite land_lnot_same. reflexivity. }
  split; [| split; [| split; [| split; [| split]]]].
  - unfold se_wont_consume, with_sedesc, se_fl_test, se_fl_set.
    cbn [sc_sedesc flags]. rewrite land_lor_same.
    apply negb_true_iff, Z.eqb_neq. exact Hwc.
  - apply Hwill.
  - unfold se_will_consume.
    replace (se_fl_test (sc_sedesc (se_wont_consume _)) SE_FL_WONT_CONSUME)
      with true.
    + apply Hact.
    + symmetry. unfold se_wont_consume, with_sedesc, se_fl_test, se_fl_set.
      cbn [sc_sedesc flags]. rewrite land_lor_same.
      apply negb_true_iff, Z.eqb_neq. exact Hwc.
  - intros Ht. unfold se_will_consume. rewrite Ht. reflexivity.
  - unfold se_need_more_data, with_sedesc, se_fl_test, se_fl_set.
    cbn [sc_sedesc flags]. rewrite land_lor_same.
    apply negb_true_iff, Z.eqb_neq. exact Hwd.
  - intros Hdisj. pose proof (Hwill (mkstconn (mksedesc e c f l b) sf io))
      as Hw.
    unfold se_fl_test in Hw. apply negb_false_iff, Z.eqb_eq in Hw.
    unfold se_need_more_data, with_sedesc, se_fl_test, se_fl_set.
    cbn [sc_sedesc flags].
    rewrite Z.land_lor_distr_l, Hw, Hdisj. reflexivity.
Qed.

End StconnActivity.

Section StconnActivityRun.

Import Stconn.

Lemma need_then_have_witness :
  sc_waiting_room (S := haproxy_sc_fl)
    (sc_have_room (S := haproxy_sc_fl) 5
       (sc_need_room (S := haproxy_sc_fl) sc_idle)) = false /\
  sc_ep_lra
    (sc_have_room (S := haproxy_sc_fl) 5
       (sc_need_room (S := haproxy_sc_fl) sc_idle)) = 5.
Proof.
  destruct (need_then_have (S := haproxy_sc_fl) 5 9 sc_idle)
    as ((_ & Hw & Hl & _) & _); try discriminate.
  split; [exact Hw | exact Hl].
Defined.

Lemma blocked_send_first_date_witness :
  sc_ep_report_blocked_send (T := haproxy_ticks) 9
    (sc_ep_report_blocked_send (T := haproxy_ticks) 5 sc_idle)
  = sc_ep_report_blocked_send (T := haproxy_ticks) 5 sc_idle.
Proof.
  destruct (blocked_send_first_date (S := haproxy_sc_fl)
              (T := haproxy_ticks) 5 9 sc_idle eq_refl)
    as (_ & Hfirst & _).
  destruct (Hfirst eq_refl) as (_ & Hstick & _).
  exact (Hstick eq_refl).
Defined.

Lemma will_consume_after_wont_witness :
  sc_ep_fsb
    (se_will_consume (G := haproxy_se_flags_app) (S := haproxy_sc_fl)
       (T := haproxy_ticks) 5
       (se_wont_consume (G := haproxy_se_flags_app) sc_idle)) = 0.
Proof.
  destruct (will_consume_after_wont (G := haproxy_se_flags_app)
              (S := haproxy_sc_fl) (T := haproxy_ticks) 5 sc_idle)
    as (_ & _ & Hfsb & _); try discriminate.
  exact Hfsb.
Defined.

End StconnActivityRun.

Section ShutBoth.

Import Stconn.
Context {F : se_flags}.
Variable muxes : nat -> mux_ops.

Lemma sc_grows_test (w w1 : world) (t : Z) :
  sc_grows w w1 -> sc_ep_test (sc w) t = true -> sc_ep_test (sc w1) t = true.
Proof.
  intros (_ & Hsub). unfold sc_ep_test, se_fl_test.
  rewrite !negb_true_iff, !Z.eqb_neq. now apply land_mono_nonzero.
Qed.

Lemma sc_grows_conn (w w1 : world) :
  sc_grows w w1 -> sc_conn (sc w) <> None -> sc_conn (sc w1) <> None.
Proof.
  intros Hg. pose proof (sc_grows_test w w1 SE_FL_T_MUX Hg) as Ht.
  destruct Hg as (Hc & _). unfold sc_conn, __sc_conn in *.
  destruct (sc_ep_test (sc w) SE_FL_T_MUX); [| congruence].
  rewrite (Ht eq_refl), Hc. exact (fun H => H).
Qed.

Lemma sc_conn_shutw_grows (mode : co_shw_mode) (w w1 : world) :
  hooks_keep_endpoint muxes ->
  sc_conn_shutw muxes mode w = Some w1 -> sc_grows w w1.
Proof.
  intros Hk. unfold sc_conn_shutw, BUG_ON.
  destruct (is_none (sc_conn (sc w))); [discriminate|].
  destruct (sc_ep_test (sc w) SE_FL_SHW).
  - intros [= <-]. split; [reflexivity | apply Z.land_diag].
  - intros [= <-]. unfold sc_grows, sc_mux_ops.
    destruct (sc_conn (sc w)) as [c|];
      [destruct (mux c) as [m|] |];
      try (cbn [sc sc_ep_set with_sedesc sc_sedesc se_fl_set conn flags];
           split; [reflexivity | apply land_lor_keep]).
    destruct (shutw (muxes m)) as [h|] eqn:Hh;
      cbn [sc sc_ep_set with_sedesc sc_sedesc se_fl_set conn flags];
      [| split; [reflexivity | apply land_lor_keep]].
    destruct (proj2 (Hk m (sc w)) h mode Hh) as (Hc & Hsub).
    split; [exact Hc|].
    eapply land_sub_trans; [exact Hsub | apply land_lor_keep].
Qed.

Lemma sc_conn_shutr_grows (mode : co_shr_mode) (w w1 : world) :
  hooks_keep_endpoint muxes ->
  sc_conn_shutr muxes mode w = Some w1 -> sc_grows w w1.
Proof.
  intros Hk. unfold sc_conn_shutr, BUG_ON.
  destruct (is_none (sc_conn (sc w))); [discriminate|].
  destruct (sc_ep_test (sc w) SE_FL_SHR).
  - intros [= <-]. split; [reflexivity | apply Z.land_diag].
  - intros [= <-]. unfold sc_grows, sc_mux_ops.
    destruct (sc_conn (sc w)) as [c|];
      [destruct (mux c) as [m|] |];
      try (cbn [sc sc_ep_set with_sedesc sc_sedesc se_fl_set conn flags];
           split; [reflexivity | apply land_lor_keep]).
    destruct (shutr (muxes m)) as [h|] eqn:Hh;
      cbn [sc sc_ep_set with_sedesc sc_sedesc se_fl_set conn flags];
      [| split; [reflexivity | apply land_lor_keep]].
    destruct (proj1 (Hk m (sc w)) h mode Hh) as (Hc & Hsub).
    split; [exact Hc|].
    eapply land_sub_trans; [exact Hsub | apply land_lor_keep].
Qed.

Lemma shutw_then_shutr (mode : co_shr_mode) (w : world) :
  se_flags_ok F -> hooks_keep_endpoint muxes -> sc_conn (sc w) <> None ->
  exists w2,
    seq_ (sc_conn_shutw muxes CO_SHW_SILENT) (sc_conn_shutr muxes mode) w
      = Some w2 /\
    sc_ep_test (sc w2) SE_FL_SHW = true /\
    sc_ep_test (sc w2) SE_FL_SHR = true /\
    sc_conn (sc w2) <> None /\
    (length (calls w2) <= 2 + length (calls w))%nat.
Proof.
  intros Hok Hk Hc.
  destruct (sc_conn_shutw_once muxes CO_SHW_SILENT w Hok Hc)
    as (w1 & E1 & T1 & L1).
  pose proof (sc_conn_shutw_grows _ _ _ Hk E1) as G1.
  pose proof (sc_grows_conn _ _ G1 Hc) as Hc1.
  destruct (sc_conn_shutr_once muxes mode w1 Hok Hc1)
    as (w2 & E2 & T2 & L2).
  pose proof (sc_conn_shutr_grows _ _ _ Hk E2) as G2.
  exists w2. unfold seq_. rewrite E1.
  split; [exact E2|]. split; [exact (sc_grows_test _ _ _ G2 T1)|].
  split; [exact T2|]. split; [exact (sc_grows_conn _ _ G2 Hc1) | lia].
Qed.

Lemma shut_both_again (mode : co_shr_mode) (w : world) :
  sc_conn (sc w) <> None ->
  sc_ep_test (sc w) SE_FL_SHW = true -> sc_ep_test (sc w) SE_FL_SHR = true ->
  seq_ (sc_conn_shutw muxes CO_SHW_SILENT) (sc_conn_shutr muxes mode) w
  = Some w.
Proof.
  intros Hc Tw Tr. unfold seq_.
  rewrite (sc_conn_shutw_shut muxes _ w Hc Tw).
  exact (sc_conn_shutr_shut muxes _ w Hc Tr).
Qed.

(** X20.  With shutdown hooks that leave the connector on its connection
    and clear no endpoint flag, [sc_conn_shut] and [sc_conn_drain_and_shut]
    on an attached connector both return with the two directions shut and
    the connector still attached, after at most two calls into the
    multiplexer; either of them called on the result returns it unchanged.
    On a connector with no connection both stop on [BUG_ON]. *)
Theorem sc_conn_shut_both (w : world) :
  se_flags_ok F -> hooks_keep_endpoint muxes ->
  (sc_conn (sc w) <> None ->
   (exists w2,
      sc_conn_shut muxes w = Some w2 /\
      sc_ep_test (sc w2) SE_FL_SHW = true /\
      sc_ep_test (sc w2) SE_FL_SHR = true /\
      sc_conn (sc w2) <> None /\
      (length (calls w2) <= 2 + length (calls w))%nat /\
      sc_conn_shut muxes w2 = Some w2 /\
      sc_conn_drain_and_shut muxes w2 = Some w2) /\
   (exists w2,
      sc_conn_drain_and_shut muxes w = Some w2 /\
      sc_ep_test (sc w2) SE_FL_SHW = true /\
      sc_ep_test (sc w2) SE_FL_SHR = true /\
      sc_conn (sc w2) <> None /\
      (length (calls w2) <= 2 + length (calls w))%nat /\
      sc_conn_shut muxes w2 = Some w2 /\
      sc_conn_drain_and_shut muxes w2 = Some w2)) /\
  (sc_conn (sc w) = None ->
   sc_conn_shut muxes w = None /\ sc_conn_drain_and_shut muxes w = None).
Proof.
  intros Hok Hk. split.
  - intros Hc. unfold sc_conn_shut, sc_conn_drain_and_shut. split.
    + destruct (shutw_then_shutr CO_SHR_RESET w Hok Hk Hc)
        as (w2 & E & Tw & Tr & Hc2 & L).
      exists w2. repeat split; try assumption;
        now apply shut_both_again.
    + destruct (shutw_then_shutr CO_SHR_DRAIN w Hok Hk Hc)
        as (w2 & E & Tw & Tr & Hc2 & L).
      exists w2. repeat split; try assumption;
        now apply shut_both_again.
  - intros Hn.
    unfold sc_conn_shut, sc_conn_drain_and_shut, seq_, sc_conn_shutw, BUG_ON.
    rewrite Hn. split; reflexivity.
Qed.

End ShutBoth.

Section ShutBothRun.
Import Stconn.

Lemma one_mux_keeps : hooks_keep_endpoint one_mux.
Proof.
  intros m s. split; intros h mode; cbn; intros [= <-];
    (split; [reflexivity | apply Z.land_diag]) || discriminate.
Qed.

Lemma sc_conn_shut_both_witness :
  exists w2,
    sc_conn_shut (F := haproxy_se_flags) one_mux sc_attached = Some w2 /\
    sc_ep_test (sc w2) 0x00000c00 = true /\
    sc_ep_test (sc w2) 0x00000300 = true.
Proof.
  assert (Hok : se_flags_ok haproxy_se_flags)
    by (repeat split; discriminate).
  assert (Hc : sc_conn (F := haproxy_se_flags) (sc sc_attached) <> None)
    by discriminate.
  destruct (sc_conn_shut_both (F := haproxy_se_flags) one_mux sc_attached
              Hok one_mux_keeps) as (Hatt & _).
  destruct (Hatt Hc) as ((w2 & E & Tw & Tr & _) & _).
  exists w2. repeat split; assumption.
Defined.
End ShutBothRun.

(* ------------------------------------------------------------------ *)
(** ** More of conn_stream.c                                        *)
(* ------------------------------------------------------------------ *)

Section ConnStreamAttach.

Import ConnStream.

Lemma count_events_app (f : event -> bool) (l1 l2 : list event) :
  count_events f (l1 ++ l2) = (count_events f l1 + count_events f l2)%nat.
Proof. unfold count_events. now rewrite filter_app, length_app. Qed.

(** X21.  On a conn_stream that has no stream interface yet, and with an
    [si_new] that succeeds, [cs_attach_app] returns 0 and [cs_attach_endp]
    can follow it.  The callbacks are then set by what was attached: a
    stream on a connection gets [si_conn_ops] and [si_conn_cb], a stream on
    an applet [si_applet_ops] and no data callback, a check gets
    [check_conn_cb] and no stream interface.  Attaching the endpoint first
    gives the same conn_stream, unless the conn_stream was already marked
    as held by a stream (as a failed [cs_attach_app] leaves it) and the
    endpoint is a connection: [cs_attach_endp] then writes through the
    NULL [cs->si]. *)
Theorem cs_attach_either_order (w : world) (e : endpoint) (cx : option Z)
  (a : application) (s0 : stream_interface) :
  si (cs w) = None ->
  let app_first := cs_attach_app (Some s0) a w in
  fst app_first = 0 /\
  (exists w2,
     cs_attach_endp e cx (snd app_first) = Some w2 /\
     app (cs w2) = Some a /\ ctx (cs w2) = cx /\ log w2 = log w /\
     alive w2 = alive w /\
     match a, e with
     | AppStream, EndConn _ =>
         si (cs w2) = Some (mksi si_conn_ops (wait_event_events s0)) /\
         data_cb (cs w2) = Some si_conn_cb
     | AppStream, EndAppctx _ =>
         si (cs w2) = Some (mksi si_applet_ops (wait_event_events s0)) /\
         data_cb (cs w2) = None
     | AppCheck, _ =>
         si (cs w2) = None /\ data_cb (cs w2) = Some check_conn_cb
     end) /\
  (cs_strm (cs w) = false \/ (exists x, e = EndAppctx x) ->
   exists w1,
     cs_attach_endp e cx w = Some w1 /\
     fst (cs_attach_app (Some s0) a w1) = 0 /\
     cs_attach_endp e cx (snd app_first)
     = Some (snd (cs_attach_app (Some s0) a w1))) /\
  (cs_strm (cs w) = true ->
   forall c, e = EndConn c -> cs_attach_endp e cx w = None).
Proof.
  destruct w as [[f e0 c0 a0 s d] al lg]. cbn [cs si]. intros ->.
  destruct s0 as [o0 ev0].
  split; [destruct a, e0 as [[?|?]|]; reflexivity|]. split; [| split].
  - destruct a, e as [[m cc dc]|[rel own]];
      try destruct cc; destruct e0 as [[?|?]|];
      cbv; eexists; (split; [reflexivity|]); repeat split; reflexivity.
  - intros Hok.
    destruct a, e as [[m cc dc]|[rel own]];
      try destruct cc; destruct a0 as [[|]|]; destruct e0 as [[?|?]|];
      try (exfalso; destruct Hok as [Hs | (x & Hx)];
           [cbv in Hs; discriminate | discriminate]);
      cbv; eexists; (split; [reflexivity|]); split; reflexivity.
  - unfold cs_strm. cbn [cs app]. intros Hs c ->.
    destruct a0 as [[|]|]; try discriminate. reflexivity.
Qed.

Lemma cs_attach_either_order_witness :
  exists w1,
    cs_attach_endp (EndConn (mkconn (Some 0%nat) false false)) (Some 7)
      cs_fresh = Some w1 /\
    cs_attach_endp (EndConn (mkconn (Some 0%nat) false false)) (Some 7)
      (snd (cs_attach_app (Some (mksi si_embedded_ops 0)) AppStream
              cs_fresh))
    = Some (snd (cs_attach_app (Some (mksi si_embedded_ops 0)) AppStream
                   w1)).
Proof.
  destruct (cs_attach_either_order cs_fresh
              (EndConn (mkconn (Some 0%nat) false false)) (Some 7)
              AppStream (mksi si_embedded_ops 0) eq_refl)
    as (_ & _ & Horder & _).
  destruct (Horder (or_introl eq_refl)) as (w1 & H1 & _ & Heq).
  exists w1. split; [exact H1 | exact Heq].
Defined.

(** X22.  [cs_attach_app] returns -1 in one case only: the application is
    a stream, the conn_stream has no stream interface and [si_new] fails.
    It has then already stored the application pointer, and nothing else
    has changed; in every other case it returns 0, and a stream then has
    its stream interface. *)
Theorem cs_attach_app_failure (sn : option stream_interface)
  (a : application) (w : world) :
  (fst (cs_attach_app sn a w) = -1 <->
   a = AppStream /\ si (cs w) = None /\ sn = None) /\
  (fst (cs_attach_app sn a w) = -1 \/ fst (cs_attach_app sn a w) = 0) /\
  (fst (cs_attach_app sn a w) = -1 ->
   snd (cs_attach_app sn a w)
   = upd (fun c => mkcs (flags c) (endp c) (ctx c) (Some AppStream) (si c)
                     (data_cb c)) w) /\
  (fst (cs_attach_app sn a w) = 0 -> a = AppStream ->
   si (cs (snd (cs_attach_app sn a w))) <> None) /\
  app (cs (snd (cs_attach_app sn a w))) = Some a /\
  endp (cs (snd (cs_attach_app sn a w))) = endp (cs w) /\
  log (snd (cs_attach_app sn a w)) = log w.
Proof.
  destruct w as [[f e0 c0 a0 s d] al lg].
  destruct a, sn as [s1|], s as [s2|], e0 as [[cn|ap]|];
    cbv; repeat split; intros; try reflexivity; try discriminate;
    try tauto;
    repeat match goal with
           | H : _ /\ _ |- _ => destruct H
           end; try discriminate; auto.
Qed.

Variable mux_unsubscribe : nat -> conn_stream -> conn_stream.
Variable mux_detach : nat -> conn_stream -> conn_stream.

(** What the first part of [cs_detach_endp] does with hooks that leave
    the application side alone. *)
Lemma detach_endp_body_log (w : world) :
  hook_keeps_app mux_unsubscribe -> hook_keeps_app mux_detach ->
  app (cs (detach_endp_body mux_unsubscribe mux_detach w)) = app (cs w) /\
  si (cs (detach_endp_body mux_unsubscribe mux_detach w))
    = embedded (si (cs w)) /\
  exists l,
    log (detach_endp_body mux_unsubscribe mux_detach w) = log w ++ l /\
    count_events is_cs_free l = 0%nat /\
    count_events is_si_release l = 0%nat /\
    count_events is_endp_release l = has_endp (cs w).
Proof.
  intros Hu Hd. destruct w as [[f e0 c0 a0 s d] al lg].
  unfold detach_endp_body, cs_conn, cs_appctx, has_endp.
  cbn [cs endp si].
  destruct e0 as [[[[m|] cc dc]|[rel own]]|]; cbn [mux destroy_cb
    applet_release].
  - destruct s as [s|]; [destruct (wait_event_events s =? 0) |];
      cbn [when negb upd emit cs alive log set_data_cb set_si_ops app si
           flags endp ctx data_cb];
      rewrite ?(proj1 (Hd _ _)), ?(proj2 (Hd _ _)),
        ?(proj1 (Hu _ _)), ?(proj2 (Hu _ _));
      cbn [app si embedded wait_event_events];
      (split; [reflexivity|]); (split; [reflexivity|]);
      rewrite <- ?app_assoc; eexists; (split; [reflexivity|]);
      repeat split; reflexivity.
  - destruct dc;
      cbn [when negb upd emit cs alive log set_data_cb set_si_ops app si
           flags endp ctx data_cb];
      (split; [reflexivity|]); (split; [destruct s; reflexivity|]);
      rewrite <- ?app_assoc; eexists; (split; [reflexivity|]);
      repeat split; reflexivity.
  - destruct rel;
      cbn [when negb upd emit cs alive log set_data_cb set_si_ops app si
           flags endp ctx data_cb];
      (split; [reflexivity|]); (split; [destruct s; reflexivity|]);
      rewrite <- ?app_assoc; eexists; (split; [reflexivity|]);
      repeat split; reflexivity.
  - cbn [when negb upd emit cs alive log set_data_cb set_si_ops app si
         flags endp ctx data_cb].
    (split; [reflexivity|]); (split; [destruct s; reflexivity|]).
    exists []. rewrite app_nil_r. repeat split; reflexivity.
Qed.

Lemma cs_free_log (w : world) :
  log (cs_free w) = log w ++ [EvSiFree (si (cs w)); EvCsFree] /\
  alive (cs_free w) = false /\ cs (cs_free w) = cs w.
Proof.
  unfold cs_free, emit. cbn [log cs alive].
  rewrite <- app_assoc. repeat split; reflexivity.
Qed.

Lemma cs_detach_app_log (w : world) :
  log (cs_detach_app w)
    = log w ++ EvSiFree (si (cs w))
        :: match endp (cs w) with
           | Some _ => []
           | None => [EvSiFree None; EvCsFree]
           end /\
  alive (cs_detach_app w)
    = match endp (cs w) with Some _ => alive w | None => false end /\
  cs (cs_detach_app w)
    = mkcs (flags (cs w)) (endp (cs w)) (ctx (cs w)) None None None.
Proof.
  destruct w as [[f e0 c0 a0 s d] al lg].
  unfold cs_detach_app, cs_free, emit, upd.
  destruct e0 as [e0|]; cbn [cs endp si flags ctx log alive];
    rewrite <- ?app_assoc; repeat split; reflexivity.
Qed.

Lemma count_si_release (s : option stream_interface) :
  count_events is_si_release [EvSiFree (embedded s)]
  = match s with Some _ => 1%nat | None => 0%nat end.
Proof. destruct s; reflexivity. Qed.

(** X23.  A conn_stream that has both an endpoint and an application is
    torn down by the two detach functions, in either order, with hooks
    that leave the application side alone: after the second call the
    conn_stream has been handed to [pool_free] exactly once and is no
    longer alive, the endpoint was released exactly once (through the
    multiplexer's detach, [conn_free] or [appctx_free]), and [si_free] was
    called on the stream interface exactly once when there is one. *)
Theorem cs_teardown_either_order (w w' : world) :
  hook_keeps_app mux_unsubscribe -> hook_keeps_app mux_detach ->
  endp (cs w) <> None -> app (cs w) <> None ->
  w' = cs_detach_app (cs_detach_endp mux_unsubscribe mux_detach w) \/
  w' = cs_detach_endp mux_unsubscribe mux_detach (cs_detach_app w) ->
  alive w' = false /\
  endp (cs w') = None /\ app (cs w') = None /\ si (cs w') = None /\
  count_events is_cs_free (log w')
    = S (count_events is_cs_free (log w)) /\
  count_events is_endp_release (log w')
    = S (count_events is_endp_release (log w)) /\
  count_events is_si_release (log w')
    = (count_events is_si_release (log w)
       + match si (cs w) with Some _ => 1 | None => 0 end)%nat.
Proof.
  intros Hu Hd He Ha [-> | ->].
  - rewrite cs_detach_endp_unfold.
    destruct (detach_endp_body_log w Hu Hd) as (Bapp & Bsi & l & Bl & C1 & C2
      & C3).
    destruct (detach_endp_body_spec mux_unsubscribe mux_detach w)
      as (_ & Balive & Bend).
    set (w1 := detach_endp_body mux_unsubscribe mux_detach w) in *.
    rewrite Bapp. destruct (app (cs w)) as [a|]; [| contradiction].
    destruct (cs_detach_app_log w1) as (Dl & Dal & Dcs).
    rewrite Bend in Dl, Dal, Dcs. rewrite Dl, Dal, Dcs, Bl, Bsi.
    cbn [endp app si].
    change (EvSiFree (embedded (si (cs w))) :: [EvSiFree None; EvCsFree])
      with ([EvSiFree (embedded (si (cs w)))] ++ [EvSiFree None; EvCsFree]).
    rewrite !count_events_app, C1, C2, C3, count_si_release.
    unfold has_endp. destruct (endp (cs w)); [| contradiction].
    destruct (si (cs w)); cbn; repeat split; lia.
  - rewrite cs_detach_endp_unfold.
    destruct (cs_detach_app_log w) as (Dl & Dal & Dcs).
    set (w1 := cs_detach_app w) in *.
    destruct (detach_endp_body_log w1 Hu Hd) as (Bapp & Bsi & l & Bl & C1 & C2
      & C3).
    destruct (detach_endp_body_spec mux_unsubscribe mux_detach w1)
      as (_ & Balive & Bend).
    set (w2 := detach_endp_body mux_unsubscribe mux_detach w1) in *.
    rewrite Dcs in Bapp, Bsi, C3. cbn [app si embedded] in Bapp, Bsi.
    unfold has_endp in C3. cbn [endp] in C3.
    destruct (endp (cs w)) as [e|]; [| contradiction].
    rewrite Bapp.
    destruct (cs_free_log w2) as (Fl & Fal & Fcs).
    rewrite Fl, Fal, Fcs, Bend, Bapp, Bsi, Bl, Dl.
    rewrite !count_events_app, C1, C2, C3.
    change (EvSiFree (si (cs w)) :: [])
      with ([EvSiFree (si (cs w))] ++ []).
    destruct (si (cs w)); cbn; repeat split; lia.
Qed.

Lemma detach_endp_body_shape (w : world) :
  cs (detach_endp_body mux_unsubscribe mux_detach w)
  = mkcs CS_FL_NONE None None
      (app (cs (detach_endp_body mux_unsubscribe mux_detach w)))
      (embedded (si (cs (detach_endp_body mux_unsubscribe mux_detach w))))
      None /\
  forall w1, cs w1 = cs (detach_endp_body mux_unsubscribe mux_detach w) ->
             detach_endp_body mux_unsubscribe mux_detach w1 = w1.
Proof.
  unfold detach_endp_body.
  match goal with
  | |- context [upd (fun c => mkcs CS_FL_NONE None None _ _ _) ?x] =>
      set (w0 := x)
  end.
  cbn [cs upd set_data_cb set_si_ops flags endp ctx app si data_cb].
  split.
  - destruct (si (cs w0)); reflexivity.
  - intros [c1 al1 lg1]. cbn [cs]. intros ->.
    unfold cs_conn, cs_appctx.
    cbn [cs upd set_data_cb set_si_ops flags endp ctx app si data_cb].
    destruct (si (cs w0)); reflexivity.
Qed.

(** X24.  [cs_detach_endp] leaves the conn_stream without endpoint,
    context, flags or data callback, and its stream interface, if any, on
    [si_embedded_ops], whatever the hooks do.  Called again on a
    conn_stream that is still held by its application it changes nothing
    and calls nothing; called again on one that had no application, it
    hands the conn_stream to [pool_free] a second time.  A second
    [cs_detach_app] on a conn_stream kept by its endpoint only calls
    [si_free(NULL)]. *)
Theorem cs_detach_endp_again (w : world) :
  let w1 := cs_detach_endp mux_unsubscribe mux_detach w in
  (flags (cs w1) = CS_FL_NONE /\ endp (cs w1) = None /\
   ctx (cs w1) = None /\ data_cb (cs w1) = None /\
   forall s, si (cs w1) = Some s -> ops s = si_embedded_ops) /\
  (app (cs w1) <> None ->
   cs_detach_endp mux_unsubscribe mux_detach w1 = w1) /\
  (app (cs w1) = None ->
   cs_detach_endp mux_unsubscribe mux_detach w1 = cs_free w1 /\
   count_events is_cs_free
     (log (cs_detach_endp mux_unsubscribe mux_detach w1))
   = (2 + count_events is_cs_free
            (log (detach_endp_body mux_unsubscribe mux_detach w)))%nat) /\
  (endp (cs w) <> None ->
   cs (cs_detach_app (cs_detach_app w)) = cs (cs_detach_app w) /\
   alive (cs_detach_app (cs_detach_app w)) = alive w /\
   log (cs_detach_app (cs_detach_app w))
   = log (cs_detach_app w) ++ [EvSiFree None]).
Proof.
  cbv zeta. rewrite cs_detach_endp_unfold.
  destruct (detach_endp_body_shape w) as (Hshape & Hfix).
  set (b := detach_endp_body mux_unsubscribe mux_detach w) in *.
  destruct (cs_free_log b) as (Fl & Fal & Fcs).
  assert (Hcs : cs (match app (cs b) with
                    | Some _ => b | None => cs_free b end) = cs b)
    by (destruct (app (cs b)); [reflexivity | exact Fcs]).
  split; [| split; [| split]].
  - rewrite Hcs, Hshape. cbn [flags endp ctx data_cb si].
    repeat split. intros s. destruct (si (cs b)); cbn [embedded].
    + intros [= <-]. reflexivity.
    + discriminate.
  - rewrite Hcs. intros Happ. rewrite cs_detach_endp_unfold.
    destruct (app (cs b)) as [a|] eqn:Hb; [| contradiction].
    rewrite (Hfix b eq_refl), Hb. reflexivity.
  - rewrite Hcs. intros Happ. rewrite cs_detach_endp_unfold.
    rewrite Happ. rewrite (Hfix (cs_free b) Fcs), Fcs, Happ.
    split; [reflexivity|].
    destruct (cs_free_log (cs_free b)) as (Fl2 & _).
    rewrite Fl2, Fl, !count_events_app.
    unfold count_events. cbn [filter is_cs_free length]. lia.
  - intros He. destruct (cs_detach_app_log w) as (Dl & Dal & Dcs).
    destruct (cs_detach_app_log (cs_detach_app w)) as (Dl2 & Dal2 & Dcs2).
    rewrite Dcs in Dl2, Dal2, Dcs2.
    cbn [endp si flags ctx] in Dl2, Dal2, Dcs2.
    destruct (endp (cs w)) as [e|]; [| contradiction].
    rewrite Dcs2, Dcs, Dal2, Dal, Dl2. repeat split; reflexivity.
Qed.

End ConnStreamAttach.

Section ConnStreamAttachRun.

Import ConnStream.

Lemma hook_id_keeps_app : hook_keeps_app (fun _ c => c).
Proof. intros m c. split; reflexivity. Qed.

Lemma cs_teardown_either_order_witness :
  alive (cs_detach_app (cs_detach_endp (fun _ c => c) (fun _ c => c)
                          cs_both)) = false /\
  count_events is_cs_free
    (log (cs_detach_app (cs_detach_endp (fun _ c => c) (fun _ c => c)
                           cs_both))) = 1%nat.
Proof.
  destruct (cs_teardown_either_order (fun _ c => c) (fun _ c => c)
              cs_both _ hook_id_keeps_app hook_id_keeps_app
              ltac:(discriminate) ltac:(discriminate)
              (or_introl eq_refl))
    as (Hal & _ & _ & _ & Hfree & _).
  split; [exact Hal | exact Hfree].
Defined.

End ConnStreamAttachRun.
